(** * cold_mailer: the rate-limited send pipeline

    A shallow embedding of [rate_limiter.py] (the ledger and the rate
    governor), of the parts of [recruiter_manager.py] the pipeline calls
    (the contact store) and of [mailer.py] (the dispatcher [send_email] and
    the bulk loop [send_to_all_pending]), followed by the properties the
    specification states about them.

    Python objects with mutable attributes become fields of one [World]
    record threaded through a state-and-exception monad.  A raised exception
    keeps every mutation made before it, as in Python.  What the program
    cannot control (the wall clock, the SMTP server, the file system's
    willingness to be written, the Jinja2 templates on disk) is an oracle of
    the environment [Env], so every theorem holds for all behaviours of
    these collaborators. *)

From Stdlib Require Import ZArith List String Ascii Bool Lia DecimalString.
From Stdlib Require Import Sorted Permutation DecimalZ DecimalPos FinFun.
Import ListNotations.
Local Open Scope string_scope.
Local Open Scope Z_scope.

(** ** Python built-ins used by the source *)

Module Py.

(** [str(n)] and [f"{n}"] for an [int]: decimal digits, a leading minus
    sign for negative numbers. *)
Definition str_int (n : Z) : string := NilZero.string_of_int (Z.to_int n).

(** [len(l)]. *)
Definition len {A : Type} (l : list A) : Z := Z.of_nat (List.length l).

(** [max(a, b)] on integers. *)
Definition max (a b : Z) : Z := if a <? b then b else a.

(** The ASCII characters [str.isspace] accepts: tab, line feed, vertical
    tab, form feed, carriage return, the four separators 0x1c-0x1f and the
    space. *)
Definition isspace (c : ascii) : bool :=
  let n := nat_of_ascii c in
  ((9 <=? n)%nat && (n <=? 13)%nat) || ((28 <=? n)%nat && (n <=? 32)%nat).

Fixpoint lstrip (s : string) : string :=
  match s with
  | EmptyString => EmptyString
  | String c s' => if isspace c then lstrip s' else s
  end.

(** [rstrip] keeps a character when it is not a space or when something
    survives to its right. *)
Fixpoint rstrip (s : string) : string :=
  match s with
  | EmptyString => EmptyString
  | String c s' =>
      match rstrip s' with
      | EmptyString => if isspace c then EmptyString else String c EmptyString
      | r => String c r
      end
  end.

(** [s.strip()]. *)
Definition strip (s : string) : string := rstrip (lstrip s).

(** ["c" * n]. *)
Fixpoint repeat_char (c : ascii) (n : nat) : string :=
  match n with
  | O => EmptyString
  | S n' => String c (repeat_char c n')
  end.

(** [needle in hay] for strings, as a proposition. *)
Definition contains (needle hay : string) : Prop :=
  exists pre post, hay = pre ++ needle ++ post.

End Py.

(** ** Naive local datetimes

    [datetime.now()] returns a naive local datetime with microsecond
    resolution.  Python's arithmetic on naive datetimes is exact arithmetic
    on the proleptic Gregorian time line, so a datetime is represented by
    its offset in microseconds from local midnight of day 0 of that line
    (days are numbered as [date.toordinal()] numbers them) and a
    [timedelta] by a number of microseconds.  The line has two ends,
    [datetime.min] and [datetime.max]; a sum that leaves it raises
    [OverflowError].  A timestamp of the ledger is held as the datetime
    that [fromisoformat] reads from its text; [isoformat] gives the text
    back where the source works on the text itself. *)

Module Datetime.

Definition datetime := Z.
Definition timedelta := Z.

Definition us_per_second : Z := 1000000.
Definition us_per_day : Z := 86400 * us_per_second.

(** [timedelta(hours=h)] and [timedelta(days=d)]. *)
Definition hours (h : Z) : timedelta := h * 3600 * us_per_second.
Definition days (d : Z) : timedelta := d * us_per_day.

(** [t.date()]: the calendar day, as a day number. *)
Definition date (t : datetime) : Z := t / us_per_day.

(** [t.replace(hour=0, minute=0, second=0)]: hour, minute and second are
    cleared; the [microsecond] field is not named and so is kept. *)
Definition replace_hms_zero (t : datetime) : datetime :=
  date t * us_per_day + t mod us_per_second.

(** [datetime.min], 0001-01-01 00:00:00, and [datetime.max], 9999-12-31
    23:59:59.999999: the days 1 and 3652059. *)
Definition datetime_min : datetime := 1 * us_per_day.
Definition datetime_max : datetime := 3652060 * us_per_day - 1.

(** Whether an instant is a [datetime]. *)
Definition in_range (t : datetime) : bool :=
  (datetime_min <=? t) && (t <=? datetime_max).

(** [a / b] rounded to the nearest integer, a tie to the even one, for
    [0 <= a] and [0 < b]. *)
Definition round_half_even (a b : Z) : Z :=
  let q := a / b in
  let r := a mod b in
  if 2 * r <? b then q
  else if b <? 2 * r then q + 1
  else if Z.even q then q else q + 1.

(** [int(n / 10**6)] for an integer [0 <= n].  The true division of two
    integers gives the double nearest to the quotient: 53 significant bits,
    a tie to the even one; [int] then drops the fraction.  With [e] the
    binary exponent of the quotient, the double is a multiple of
    [2^(e-52)].  A quotient below 1 is at most 0.999999 and its double is
    below 1 too. *)
Definition whole_seconds (n : Z) : Z :=
  let q := n / us_per_second in
  if q =? 0 then 0
  else
    let e := Z.log2 q in
    if e <? 52
    then round_half_even (n * 2 ^ (52 - e)) us_per_second / 2 ^ (52 - e)
    else round_half_even n (us_per_second * 2 ^ (e - 52)) * 2 ^ (e - 52).

(** [int(d.total_seconds())].  [total_seconds()] divides the microseconds
    of [d] by [10**6] into a float, and the division rounds the magnitude
    and keeps the sign; [int] truncates towards zero.  For a [d] of less
    than 2^34 seconds the result is the truncated quotient; for a longer one
    it can be one second more. *)
Definition int_total_seconds (d : timedelta) : Z :=
  Z.sgn d * whole_seconds (Z.abs d).

(** Whole seconds elapsed since local midnight (hour*3600+minute*60+second). *)
Definition second_of_day (t : datetime) : Z := (t mod us_per_day) / us_per_second.

(** Local midnight that ends the day of [t]. *)
Definition next_midnight (t : datetime) : datetime := (date t + 1) * us_per_day.

(** *** The text of a datetime

    The calendar of CPython's [datetime] module ([_ord2ymd] and its
    tables) and the text [isoformat] writes for a naive datetime:
    [YYYY-MM-DDTHH:MM:SS], followed by the six digits of the microseconds
    when they are not zero. *)

(** [_DAYS_BEFORE_MONTH[m] + (m > 2 and leap)]. *)
Definition days_before_month (leap : bool) (m : Z) : Z :=
  nth (Z.to_nat m) [0; 0; 31; 59; 90; 120; 151; 181; 212; 243; 273; 304; 334] 0
  + (if (2 <? m) && leap then 1 else 0).

(** [_DAYS_IN_MONTH[m] + (m == 2 and leap)]. *)
Definition days_in_month (leap : bool) (m : Z) : Z :=
  nth (Z.to_nat m) [0; 31; 28; 31; 30; 31; 30; 31; 31; 30; 31; 30; 31] 0
  + (if (m =? 2) && leap then 1 else 0).

(** The end of [_ord2ymd]: month and day of the day [n], counted from 0,
    of a year.  The month is estimated as [(n + 50) >> 5] and corrected
    when the estimate is one too high. *)
Definition month_day (leap : bool) (n : Z) : Z * Z :=
  let month := (n + 50) / 32 in
  let preceding := days_before_month leap month in
  if preceding >? n
  then (month - 1, n - (preceding - days_in_month leap (month - 1)) + 1)
  else (month, n - preceding + 1).

(** [_ord2ymd(n)]: year, month and day of the day number [n], by the
    cycles of 400, 100 and 4 years. *)
Definition ord2ymd (n : Z) : Z * (Z * Z) :=
  let n := n - 1 in
  let n400 := n / 146097 in
  let n := n mod 146097 in
  let n100 := n / 36524 in
  let n := n mod 36524 in
  let n4 := n / 1461 in
  let n := n mod 1461 in
  let n1 := n / 365 in
  let n := n mod 365 in
  let year := n400 * 400 + 1 + n100 * 100 + n4 * 4 + n1 in
  if (n1 =? 4) || (n100 =? 4) then (year - 1, (12, 31))
  else (year, month_day ((n1 =? 3) && (negb (n4 =? 24) || (n100 =? 3))) n).

(** ["%0<width>d" % n] for [0 <= n < 10 ^ width]. *)
Fixpoint zfill (width : nat) (n : Z) : string :=
  match width with
  | O => EmptyString
  | S k => String (ascii_of_N (48 + Z.to_N (n / 10 ^ Z.of_nat k)))
                  (zfill k (n mod 10 ^ Z.of_nat k))
  end.

(** [_format_time(hh, mm, ss, us)] for the microsecond [u] of a day: the
    fraction is written when it is not zero. *)
Definition format_time (u : Z) : string :=
  let s := u / us_per_second in
  let us := u mod us_per_second in
  zfill 2 (s / 3600) ++ ":" ++ zfill 2 (s / 60 mod 60) ++ ":" ++ zfill 2 (s mod 60)
  ++ (if us =? 0 then EmptyString else "." ++ zfill 6 us).

(** ["%04d-%02d-%02dT" % (y, m, d)], followed by [rest]. *)
Definition date_text (ymd : Z * (Z * Z)) (rest : string) : string :=
  let '(y, (m, d)) := ymd in
  zfill 4 y ++ "-" ++ zfill 2 m ++ "-" ++ zfill 2 d ++ "T" ++ rest.

(** [t.isoformat()]. *)
Definition isoformat (t : datetime) : string :=
  date_text (ord2ymd (date t)) (format_time (t mod us_per_day)).

(** [_days_before_year(y)]. *)
Definition days_before_year (y : Z) : Z :=
  let y := y - 1 in y * 365 + y / 4 - y / 100 + y / 400.

(** The first half of [_ord2ymd]: the year of a day number, whether it is
    a leap year, and the day of the year counted from 0. *)
Definition year_day (n : Z) : Z * bool * Z :=
  let n := n - 1 in
  let n400 := n / 146097 in
  let n := n mod 146097 in
  let n100 := n / 36524 in
  let n := n mod 36524 in
  let n4 := n / 1461 in
  let n := n mod 1461 in
  let n1 := n / 365 in
  let n := n mod 365 in
  let year := n400 * 400 + 1 + n100 * 100 + n4 * 4 + n1 in
  if (n1 =? 4) || (n100 =? 4) then (year - 1, true, 365)
  else (year, (n1 =? 3) && (negb (n4 =? 24) || (n100 =? 3)), n).

Definition year_length (leap : bool) : Z := if leap then 366 else 365.

(** Month and day in the order of the calendar, and the bounds of both. *)
Definition month_day_ltb (a b : Z * Z) : bool :=
  (fst a <? fst b) || ((fst a =? fst b) && (snd a <? snd b)).

Definition month_day_ok (a : Z * Z) : bool :=
  (1 <=? fst a) && (fst a <=? 12) && (1 <=? snd a) && (snd a <=? 31).

(** Year, month and day in the order of the calendar. *)
Definition ymd_lt (a b : Z * (Z * Z)) : Prop :=
  fst a < fst b \/ (fst a = fst b /\ month_day_ltb (snd a) (snd b) = true).

End Datetime.
Import Datetime.

(** ** Data model *)

(** The dictionary [record_sent] appends to the ledger. *)
Record SentRecord := {
  timestamp : datetime;
  recruiter_id : string;
  email : string;
  template : string;
  subject : string
}.

(** [config.app.rate_limit]. *)
Record RateLimitSettings := {
  emails_per_hour : Z;
  delay_between_emails : Z;
  max_emails_per_day : Z
}.

(** The defaults of [RateLimitSettings] in [config.py]. *)
Definition default_rate_limit : RateLimitSettings :=
  {| emails_per_hour := 20; delay_between_emails := 30; max_emails_per_day := 100 |}.

Inductive status_t := Pending | Sent | Replied | Bounced.

Definition status_eqb (a b : status_t) : bool :=
  match a, b with
  | Pending, Pending | Sent, Sent | Replied, Replied | Bounced, Bounced => true
  | _, _ => false
  end.

(** [recruiter_manager.Recruiter]. *)
Record Recruiter := {
  id : string;
  r_email : string;
  first_name : string;
  last_name : string;
  title : option string;
  company : string;
  job_title : string;
  department : string;
  greeting_style : string;
  custom_fields : list (string * string);
  status : status_t;
  last_contacted : option datetime
}.

(** The MIME message [_create_message] builds. *)
Record Message := {
  msg_from : string;
  msg_to : string;
  msg_subject : string;
  msg_body : string;
  msg_attachment : bool
}.

(** The exceptions that travel through the pipeline.  The first group is
    [exceptions.py]; the second is [smtplib] and the interpreter.  Each
    carries the text [str(e)] yields. *)
Inductive exn :=
| RateLimitError (msg : string)
| TemplateError (msg : string)
| EmailError (msg : string)
| SMTPConnectionError (msg : string)
| RecruiterNotFoundError (msg : string)
| DataFormatError (msg : string)
| SMTPAuthenticationError (msg : string)
| SMTPRecipientsRefused (msg : string)
| SMTPException (msg : string)
| JSONDecodeError (msg : string)
| AttributeError (msg : string)
| OSError (msg : string)
| OverflowError (msg : string)
| UnicodeEncodeError (msg : string)
| OtherException (msg : string).

(** [str(e)]. *)
Definition str_exn (e : exn) : string :=
  match e with
  | RateLimitError m | TemplateError m | EmailError m | SMTPConnectionError m
  | RecruiterNotFoundError m | DataFormatError m | SMTPAuthenticationError m
  | SMTPRecipientsRefused m | SMTPException m | JSONDecodeError m
  | AttributeError m | OSError m | OverflowError m | UnicodeEncodeError m
  | OtherException m => m
  end.

(** ** Durable storage *)

(** What [data/sent_log.json] holds.  [_save_sent_log] writes the object
    [{"sent_emails": [...]}]; anything else comes from outside.  A document
    is represented by what [json.load] makes of it, and the list under the
    key by the records it holds: the five-field dictionaries [record_sent]
    writes, their timestamp in the text [isoformat] gives it.  An object
    edited by hand so that ["sent_emails"] is not such a list (it is
    [null], a record lacks its timestamp, a timestamp is spelled in another
    ISO form) is not a value of this type: on such a file the queries of
    the limiter raise or order the records by their text, and nothing below
    speaks of it. *)
Inductive log_file :=
| LogAbsent                                   (* the path does not exist *)
| LogUnreadable (msg : string)                (* [open] or [read] raises *)
| LogInvalidJson (msg : string)               (* [json.load] raises JSONDecodeError *)
| LogNotObject                                (* valid JSON, but not an object: no [.get] *)
| LogObject (entries : option (list SentRecord)). (* an object, with or without the key "sent_emails" *)

(** How a write of the ledger file ends.  [mkdir] and [open(path, "w")]
    fail with an [OSError].  [open] truncates the file before [json.dump]
    writes it, and the closing brace is written last, so a dump that fails
    leaves text that is not JSON; what it raises is not caught and is
    whatever the encoder or the file object raised: an [OSError] when the
    device is full, a [UnicodeEncodeError] when a string holds a lone
    surrogate, and so on. *)
Inductive write_fate :=
| WriteOk
| OpenFails (msg : string)
| DumpFails (e : exn).

(** What the contact store's data file holds, as the rows [load] builds
    recruiters from.  A save is described by the rows it writes; a file in
    the JSON format gives them back on the next load, whereas the CSV
    format has no column for [department] and rebuilds the custom fields
    from their [key=value] text, so the properties below speak of the
    contacts in memory and of the attempts to save, not of what a later
    process reads from a CSV file. *)
Inductive store_file :=
| StoreAbsent
| StoreRows (rows : list Recruiter)
| StoreCorrupt (rows : list Recruiter) (msg : string). (* reading fails after these rows *)

(** How a save of the contact store ends.  [mkdir] may raise an [OSError].
    Any failure of the writer is re-raised as [DataFormatError]: when
    [open(path, "w")] fails the file is as before; when the writer fails
    later, [open] has truncated the file and it holds what was written
    until then. *)
Inductive save_fate :=
| SaveOk
| MkdirFails (msg : string)
| SaveFails (msg : string)
| WriteFails (rest : store_file) (msg : string).

(** ** Observable effects, in the order they happen *)

Inductive event :=
| EvProgress (current total : Z) (r : Recruiter)  (* progress_callback(i + 1, len(pending), recruiter) *)
| EvSmtp (m : Message) (failure : option exn)     (* one SMTP session; [None]: the server took the message *)
| EvSleep (seconds : Z).                          (* time.sleep(seconds) *)

(** ** The world *)

(** Attributes of the [RateLimiter] object. *)
Record RateLimiter := {
  _sent_emails : list SentRecord;
  _loaded : bool
}.

(** Attributes of the [RecruiterManager] object.  [_recruiters] is a [dict]
    keyed by id, kept in insertion order. *)
Record RecruiterManager := {
  _recruiters : list (string * Recruiter);
  _recruiters_loaded : bool
}.

Record World := {
  ticks : nat;                        (* readings of [datetime.now()] taken so far *)
  rate_limiter : RateLimiter;
  sent_log : log_file;
  log_writes : nat;                   (* writes of the ledger file attempted so far *)
  recruiter_manager : RecruiterManager;
  store : store_file;
  store_saves : nat;                  (* saves of the contact store attempted so far *)
  smtp_sessions : nat;                (* SMTP sessions opened so far *)
  trace : list event
}.

Definition set_ticks (n : nat) (w : World) : World :=
  {| ticks := n; rate_limiter := rate_limiter w; sent_log := sent_log w;
     log_writes := log_writes w; recruiter_manager := recruiter_manager w;
     store := store w; store_saves := store_saves w;
     smtp_sessions := smtp_sessions w; trace := trace w |}.

Definition set_rate_limiter (r : RateLimiter) (w : World) : World :=
  {| ticks := ticks w; rate_limiter := r; sent_log := sent_log w;
     log_writes := log_writes w; recruiter_manager := recruiter_manager w;
     store := store w; store_saves := store_saves w;
     smtp_sessions := smtp_sessions w; trace := trace w |}.

Definition set_sent_log (f : log_file) (w : World) : World :=
  {| ticks := ticks w; rate_limiter := rate_limiter w; sent_log := f;
     log_writes := log_writes w; recruiter_manager := recruiter_manager w;
     store := store w; store_saves := store_saves w;
     smtp_sessions := smtp_sessions w; trace := trace w |}.

Definition set_log_writes (n : nat) (w : World) : World :=
  {| ticks := ticks w; rate_limiter := rate_limiter w; sent_log := sent_log w;
     log_writes := n; recruiter_manager := recruiter_manager w;
     store := store w; store_saves := store_saves w;
     smtp_sessions := smtp_sessions w; trace := trace w |}.

Definition set_recruiter_manager (m : RecruiterManager) (w : World) : World :=
  {| ticks := ticks w; rate_limiter := rate_limiter w; sent_log := sent_log w;
     log_writes := log_writes w; recruiter_manager := m;
     store := store w; store_saves := store_saves w;
     smtp_sessions := smtp_sessions w; trace := trace w |}.

Definition set_store (f : store_file) (w : World) : World :=
  {| ticks := ticks w; rate_limiter := rate_limiter w; sent_log := sent_log w;
     log_writes := log_writes w; recruiter_manager := recruiter_manager w;
     store := f; store_saves := store_saves w;
     smtp_sessions := smtp_sessions w; trace := trace w |}.

Definition set_store_saves (n : nat) (w : World) : World :=
  {| ticks := ticks w; rate_limiter := rate_limiter w; sent_log := sent_log w;
     log_writes := log_writes w; recruiter_manager := recruiter_manager w;
     store := store w; store_saves := n;
     smtp_sessions := smtp_sessions w; trace := trace w |}.

Definition set_smtp_sessions (n : nat) (w : World) : World :=
  {| ticks := ticks w; rate_limiter := rate_limiter w; sent_log := sent_log w;
     log_writes := log_writes w; recruiter_manager := recruiter_manager w;
     store := store w; store_saves := store_saves w;
     smtp_sessions := n; trace := trace w |}.

Definition emit (e : event) (w : World) : World :=
  {| ticks := ticks w; rate_limiter := rate_limiter w; sent_log := sent_log w;
     log_writes := log_writes w; recruiter_manager := recruiter_manager w;
     store := store w; store_saves := store_saves w;
     smtp_sessions := smtp_sessions w; trace := (trace w ++ [e])%list |}.

(** ** The state-and-exception monad *)

Inductive result (A : Type) :=
| Ok (a : A)
| Raise (e : exn).
Arguments Ok {A} a.
Arguments Raise {A} e.

Definition M (A : Type) : Type := World -> result A * World.

Definition ret {A : Type} (a : A) : M A := fun w => (Ok a, w).

Definition bind {A B : Type} (m : M A) (k : A -> M B) : M B :=
  fun w => match m w with
           | (Ok a, w') => k a w'
           | (Raise e, w') => (Raise e, w')
           end.

Definition raise {A : Type} (e : exn) : M A := fun w => (Raise e, w).

(** [try: m  except ... as e: h e]. *)
Definition try_except {A : Type} (m : M A) (h : exn -> M A) : M A :=
  fun w => match m w with
           | (Ok a, w') => (Ok a, w')
           | (Raise e, w') => h e w'
           end.

(** A computation that only returns or raises. *)
Definition of_result {A : Type} (r : result A) : M A := fun w => (r, w).

Definition modify (f : World -> World) : M unit := fun w => (Ok tt, f w).
Definition gets {A : Type} (f : World -> A) : M A := fun w => (Ok (f w), w).

Declare Scope py_scope.
Delimit Scope py_scope with py.
Notation "x <- m ;; k" := (bind m (fun x => k))
  (at level 61, m at next level, right associativity) : py_scope.
Notation "' pat <- m ;; k" := (bind m (fun x => match x with pat => k end))
  (at level 61, pat pattern, m at next level, right associativity) : py_scope.
Notation "m ;; k" := (bind m (fun _ => k))
  (at level 61, right associativity) : py_scope.
Local Open Scope py_scope.

(** ** The environment *)

(** The parts of [Config] the pipeline reads. *)
Record Config := {
  rate_limit : RateLimitSettings;     (* config.app.rate_limit *)
  attach_resume_default : bool;       (* config.app.email.attach_resume *)
  default_template : string;          (* config.app.email.default_template *)
  gmail_email : string;               (* config.env.gmail_email *)
  gmail_app_password : string         (* config.env.gmail_app_password *)
}.

Record Env := {
  config : Config;
  (** the n-th reading of [datetime.now()] *)
  clock : nat -> datetime;
  (** how the n-th write of the ledger file ends *)
  log_write_fate : nat -> write_fate;
  (** how the n-th save of the contact store ends *)
  store_save_fate : nat -> save_fate;
  (** [config.resume_path.exists()] *)
  resume_exists : bool;
  (** [TemplateEngine.render(template_name, recruiter, custom_vars)] *)
  render : string -> Recruiter -> option (list (string * string)) ->
           result (string * string);
  (** what the n-th SMTP session (connect, starttls, login, send_message)
      raises for a message, [None] when the server accepts it *)
  smtp : nat -> Message -> option exn
}.

(** ** Dictionaries and sorting for the contact store *)

(** [d[k] = v] on a [dict] in insertion order: an existing key keeps its
    place, a new key goes last. *)
Fixpoint dict_set (k : string) (v : Recruiter) (d : list (string * Recruiter))
  : list (string * Recruiter) :=
  match d with
  | [] => [(k, v)]
  | (k', v') :: rest =>
      if String.eqb k' k then (k, v) :: rest else (k', v') :: dict_set k v rest
  end.

(** [d.get(k)]. *)
Fixpoint dict_get (k : string) (d : list (string * Recruiter)) : option Recruiter :=
  match d with
  | [] => None
  | (k', v) :: rest => if String.eqb k' k then Some v else dict_get k rest
  end.

(** [d.values()]. *)
Definition dict_values (d : list (string * Recruiter)) : list Recruiter := map snd d.

Fixpoint insert_by_id (r : Recruiter) (l : list Recruiter) : list Recruiter :=
  match l with
  | [] => [r]
  | x :: rest =>
      if String.ltb (id x) (id r) then x :: insert_by_id r rest else r :: x :: rest
  end.

(** [sorted(rs, key=lambda r: r.id)], stable. *)
Definition sorted_by_id (rs : list Recruiter) : list Recruiter :=
  fold_right insert_by_id [] rs.

(** The summary [send_to_all_pending] returns. *)
Record ErrorEntry := {
  err_email : string;     (* "email" *)
  err_error : string      (* "error" *)
}.

Record Results := {
  total : Z;
  sent : Z;
  failed : Z;
  skipped : Z;
  errors : list ErrorEntry
}.

Definition nl : string := String (ascii_of_nat 10) EmptyString.

(** ** [rate_limiter.py] *)

Definition set_sent_emails (l : list SentRecord) (w : World) : World :=
  set_rate_limiter {| _sent_emails := l; _loaded := _loaded (rate_limiter w) |} w.

Definition set_loaded (b : bool) (w : World) : World :=
  set_rate_limiter {| _sent_emails := _sent_emails (rate_limiter w); _loaded := b |} w.

(** [t + d] for a [datetime] [t] and a [timedelta] [d]. *)
Definition datetime_add (t : datetime) (d : timedelta) : result datetime :=
  if in_range (t + d) then Ok (t + d)
  else Raise (OverflowError "date value out of range").

(** [min(xs, default=d)]. *)
Definition py_min (xs : list datetime) (d : datetime) : datetime :=
  match xs with
  | [] => d
  | x :: rest => fold_left Z.min rest x
  end.

Section Pipeline.

Variable env : Env.

Definition hourly_limit : Z := emails_per_hour (rate_limit (config env)).
Definition daily_limit : Z := max_emails_per_day (rate_limit (config env)).
Definition delay : Z := delay_between_emails (rate_limit (config env)).

(** [datetime.now()]: every call is a fresh reading of the clock.  The
    readings are those of a wall clock, far from both ends of the time
    line: an hour before a reading and the midnight after it are instants
    of the line, and the pipeline computes them without a check.  A
    timestamp read from the ledger file can be any [datetime]. *)
Definition now : M datetime :=
  fun w => (Ok (clock env (ticks w)), set_ticks (S (ticks w)) w).

(** [with open(path) as f: data = json.load(f)] followed by
    [data.get("sent_emails", [])], for a path that exists. *)
Definition read_sent_emails (f : log_file) : M (list SentRecord) :=
  match f with
  | LogAbsent => raise (OSError "No such file or directory")
  | LogUnreadable msg => raise (OSError msg)
  | LogInvalidJson msg => raise (JSONDecodeError msg)
  | LogNotObject => raise (AttributeError "object has no attribute 'get'")
  | LogObject None => ret []
  | LogObject (Some entries) => ret entries
  end.

Definition _load_sent_log : M unit :=
  modify (set_sent_emails []) ;;
  f <- gets sent_log ;;
  match f with
  | LogAbsent => ret tt
  | _ =>
      try_except
        (entries <- read_sent_emails f ;; modify (set_sent_emails entries))
        (fun _ => modify (set_sent_emails []))
  end ;;
  modify (set_loaded true).

Definition _ensure_loaded : M unit :=
  loaded <- gets (fun w => _loaded (rate_limiter w)) ;;
  if negb loaded then _load_sent_log else ret tt.

(** [mkdir], [open(path, "w")] and [json.dump] of
    [{"sent_emails": self._sent_emails}]. *)
Definition _save_sent_log : M unit :=
  n <- gets log_writes ;;
  modify (set_log_writes (S n)) ;;
  data <- gets (fun w => _sent_emails (rate_limiter w)) ;;
  match log_write_fate env n with
  | WriteOk => modify (set_sent_log (LogObject (Some data)))
  | OpenFails msg => raise (OSError msg)
  | DumpFails e =>
      modify (set_sent_log (LogInvalidJson "truncated")) ;; raise e
  end.

Definition _get_emails_in_window (window : timedelta) : M (list SentRecord) :=
  _ensure_loaded ;;
  t <- now ;;
  let cutoff := t - window in
  entries <- gets (fun w => _sent_emails (rate_limiter w)) ;;
  ret (filter (fun e => timestamp e >? cutoff) entries).

Definition get_emails_last_hour : M Z :=
  l <- _get_emails_in_window (hours 1) ;; ret (Py.len l).

Definition get_emails_today : M Z :=
  _ensure_loaded ;;
  t <- now ;;
  let today := date t in
  entries <- gets (fun w => _sent_emails (rate_limiter w)) ;;
  ret (Py.len (filter (fun e => date (timestamp e) =? today) entries)).

Definition can_send : M (bool * string) :=
  emails_last_hour <- get_emails_last_hour ;;
  emails_today <- get_emails_today ;;
  if emails_today >=? daily_limit then
    ret (false, "Daily limit reached (" ++ Py.str_int emails_today ++ "/"
                  ++ Py.str_int daily_limit ++ ")")
  else if emails_last_hour >=? hourly_limit then
    ret (false, "Hourly limit reached (" ++ Py.str_int emails_last_hour ++ "/"
                  ++ Py.str_int hourly_limit ++ ")")
  else ret (true, "OK").

Definition check_rate_limit : M unit :=
  '(allowed, reason) <- can_send ;;
  if negb allowed then raise (RateLimitError ("Rate limit exceeded: " ++ reason))
  else ret tt.

Definition record_sent (recruiter_id email template subject : string) : M unit :=
  _ensure_loaded ;;
  t <- now ;;
  let record := {| timestamp := t; recruiter_id := recruiter_id; email := email;
                   template := template; subject := subject |} in
  modify (fun w => set_sent_emails (_sent_emails (rate_limiter w) ++ [record])%list w) ;;
  _save_sent_log.

Definition wait_for_delay : M unit :=
  if delay >? 0 then modify (emit (EvSleep delay)) else ret tt.

(** [oldest_in_window] is a timestamp of the ledger file (or a reading of
    the clock when the window has emptied meanwhile), so the hour added to
    it can leave the time line; [hour_ago] and [tomorrow] are computed from
    readings of the clock (see [now]). *)
Definition get_wait_time : M Z :=
  emails_today <- get_emails_today ;;
  if emails_today >=? daily_limit then
    t1 <- now ;;
    let tomorrow := replace_hms_zero t1 + days 1 in
    t2 <- now ;;
    ret (int_total_seconds (tomorrow - t2))
  else
    emails_last_hour <- get_emails_last_hour ;;
    if emails_last_hour >=? hourly_limit then
      t3 <- now ;;
      let hour_ago := t3 - hours 1 in
      window <- _get_emails_in_window (hours 1) ;;
      dflt <- now ;;
      let oldest_in_window := py_min (map timestamp window) dflt in
      wait_until <- of_result (datetime_add oldest_in_window (hours 1)) ;;
      t4 <- now ;;
      ret (Py.max 0 (int_total_seconds (wait_until - t4)))
    else ret 0.

Definition clear_history : M unit :=
  modify (set_sent_emails []) ;;
  _save_sent_log ;;
  modify (set_loaded true).

(** ** [recruiter_manager.py] *)

Definition set_recruiters (d : list (string * Recruiter)) (w : World) : World :=
  set_recruiter_manager
    {| _recruiters := d;
       _recruiters_loaded := _recruiters_loaded (recruiter_manager w) |} w.

Definition set_recruiters_loaded (b : bool) (w : World) : World :=
  set_recruiter_manager
    {| _recruiters := _recruiters (recruiter_manager w);
       _recruiters_loaded := b |} w.

(** The loop of [_load_csv] / [_load_json]: a row without id or email is
    skipped; a later row with the same id replaces the earlier one. *)
Definition load_rows (rows : list Recruiter) : M unit :=
  modify (fun w =>
    set_recruiters
      (fold_left
         (fun d r => if negb (id r =? "")%string && negb (r_email r =? "")%string
                     then dict_set (id r) r d else d)
         rows (_recruiters (recruiter_manager w))) w).

Definition load : M unit :=
  modify (set_recruiters []) ;;
  f <- gets store ;;
  match f with
  | StoreAbsent => ret tt
  | StoreRows rows => load_rows rows
  | StoreCorrupt rows msg => load_rows rows ;; raise (DataFormatError msg)
  end ;;
  modify (set_recruiters_loaded true).

Definition manager_ensure_loaded : M unit :=
  loaded <- gets (fun w => _recruiters_loaded (recruiter_manager w)) ;;
  if negb loaded then load else ret tt.

Definition save : M unit :=
  n <- gets store_saves ;;
  modify (set_store_saves (S n)) ;;
  d <- gets (fun w => _recruiters (recruiter_manager w)) ;;
  match store_save_fate env n with
  | SaveOk => modify (set_store (StoreRows (sorted_by_id (dict_values d))))
  | MkdirFails msg => raise (OSError msg)
  | SaveFails msg => raise (DataFormatError msg)
  | WriteFails rest msg => modify (set_store rest) ;; raise (DataFormatError msg)
  end.

Definition get_by_id (rid : string) : M Recruiter :=
  manager_ensure_loaded ;;
  d <- gets (fun w => _recruiters (recruiter_manager w)) ;;
  match dict_get rid d with
  | None => raise (RecruiterNotFoundError
                     ("Recruiter with ID '" ++ rid ++ "' not found"))
  | Some r => ret r
  end.

Definition get_by_status (st : status_t) : M (list Recruiter) :=
  manager_ensure_loaded ;;
  d <- gets (fun w => _recruiters (recruiter_manager w)) ;;
  ret (filter (fun r => status_eqb (status r) st) (dict_values d)).

Definition get_pending : M (list Recruiter) := get_by_status Pending.

(** [setattr(recruiter, "status", st); setattr(recruiter, "last_contacted", t)]. *)
Definition with_status (st : status_t) (t : option datetime) (r : Recruiter)
  : Recruiter :=
  {| id := id r; r_email := r_email r; first_name := first_name r;
     last_name := last_name r; title := title r; company := company r;
     job_title := job_title r; department := department r;
     greeting_style := greeting_style r; custom_fields := custom_fields r;
     status := st; last_contacted := t |}.

(** [update(id, status=st, last_contacted=t)]: the object stored under
    the key is modified in place, then the store is saved. *)
Definition update_status_and_time (rid : string) (st : status_t) (t : datetime)
  : M Recruiter :=
  manager_ensure_loaded ;;
  recruiter <- get_by_id rid ;;
  let recruiter' := with_status st (Some t) recruiter in
  modify (fun w => set_recruiters
                     (dict_set rid recruiter' (_recruiters (recruiter_manager w))) w) ;;
  save ;;
  ret recruiter'.

(** [mark_sent(id)]: the argument [datetime.now()] is evaluated before
    [update] runs. *)
Definition mark_sent (rid : string) : M Recruiter :=
  t <- now ;;
  update_status_and_time rid Sent t.

(** ** [template_engine.py] *)

Definition render_template (template_name : string) (recruiter : Recruiter)
    (custom_vars : option (list (string * string))) : M (string * string) :=
  fun w => (render env template_name recruiter custom_vars, w).

Definition separator : string := Py.repeat_char "="%char 60.

Definition render_preview (template_name : string) (recruiter : Recruiter)
    (custom_vars : option (list (string * string))) : M string :=
  '(subject, body) <- render_template template_name recruiter custom_vars ;;
  let preview :=
    nl ++ separator ++ nl
       ++ "To: " ++ r_email recruiter ++ nl
       ++ "Subject: " ++ subject ++ nl
       ++ separator ++ nl
       ++ nl
       ++ body ++ nl
       ++ nl
       ++ separator ++ nl in
  ret (Py.strip preview).

(** ** [mailer.py] *)

Definition _create_message (to_email subject body : string) (attachment : bool)
  : Message :=
  {| msg_from := gmail_email (config env); msg_to := to_email;
     msg_subject := subject; msg_body := body; msg_attachment := attachment |}.

(** [_create_message] with its attachment, then the
    [with smtplib.SMTP(...) as server] block: connect, optional STARTTLS,
    login, [send_message].  Whatever any of these raises is the oracle's
    answer. *)
Definition smtp_session (msg : Message) : M unit :=
  n <- gets smtp_sessions ;;
  modify (set_smtp_sessions (S n)) ;;
  let outcome := smtp env n msg in
  modify (emit (EvSmtp msg outcome)) ;;
  match outcome with
  | None => ret tt
  | Some e => raise e
  end.

Definition send_email (recruiter : Recruiter) (template_name : string)
    (custom_vars : option (list (string * string)))
    (attach_resume : option bool) (dry_run : bool) : M (bool * string) :=
  check_rate_limit ;;
  '(subject, body) <- render_template template_name recruiter custom_vars ;;
  if dry_run then
    preview <- render_preview template_name recruiter custom_vars ;;
    ret (true, "DRY RUN - Would send:" ++ nl ++ preview)
  else
    let attach_resume :=
      match attach_resume with
      | None => attach_resume_default (config env)
      | Some b => b
      end in
    let attachment := if attach_resume then resume_exists env else false in
    let email := gmail_email (config env) in
    let password := gmail_app_password (config env) in
    if (email =? "")%string || (password =? "")%string then
      raise (EmailError "Gmail credentials not configured. Set GMAIL_EMAIL and GMAIL_APP_PASSWORD in .env")
    else
      try_except
        (let msg := _create_message (r_email recruiter) subject body attachment in
         smtp_session msg ;;
         record_sent (id recruiter) (r_email recruiter) template_name subject ;;
         mark_sent (id recruiter) ;;
         ret (true, "Email sent successfully to " ++ r_email recruiter))
        (fun e =>
           match e with
           | SMTPAuthenticationError _ =>
               raise (SMTPConnectionError "Authentication failed. Check your credentials.")
           | SMTPRecipientsRefused _ =>
               raise (EmailError ("Recipient refused: " ++ r_email recruiter))
           | SMTPException m =>
               raise (EmailError ("SMTP error: " ++ m))
           | _ =>
               raise (EmailError ("Failed to send email: " ++ str_exn e))
           end).

Definition add_skipped (e : ErrorEntry) (r : Results) : Results :=
  {| total := total r; sent := sent r; failed := failed r;
     skipped := skipped r + 1; errors := (errors r ++ [e])%list |}.

Definition add_sent (r : Results) : Results :=
  {| total := total r; sent := sent r + 1; failed := failed r;
     skipped := skipped r; errors := errors r |}.

Definition add_failed (e : ErrorEntry) (r : Results) : Results :=
  {| total := total r; sent := sent r; failed := failed r + 1;
     skipped := skipped r; errors := (errors r ++ [e])%list |}.

Section BulkLoop.

Variable template_name : string.
Variable custom_vars : option (list (string * string)).
Variable dry_run : bool.
(** whether a [progress_callback] was passed; the callback is an observer
    that returns (one that raises would end the run, and is not modelled) *)
Variable progress_callback : bool.
(** [len(pending)] *)
Variable n_pending : Z.

(** One iteration of [for i, recruiter in enumerate(pending)]. *)
Definition loop_body (i : Z) (recruiter : Recruiter) (results : Results)
  : M Results :=
  (if progress_callback
   then modify (emit (EvProgress (i + 1) n_pending recruiter))
   else ret tt) ;;
  '(allowed, reason) <- can_send ;;
  if negb allowed then
    ret (add_skipped {| err_email := r_email recruiter;
                        err_error := "Rate limit: " ++ reason |} results)
  else
    results' <-
      try_except
        ('(success, message) <-
           send_email recruiter template_name custom_vars None dry_run ;;
         if (success : bool) then ret (add_sent results)
         else ret (add_failed {| err_email := r_email recruiter;
                                 err_error := message |} results))
        (fun e =>
           ret (add_failed {| err_email := r_email recruiter;
                              err_error := str_exn e |} results)) ;;
    (if negb dry_run && (i <? n_pending - 1)
     then wait_for_delay else ret tt) ;;
    ret results'.

Fixpoint bulk_loop (i : Z) (pending : list Recruiter) (results : Results)
  : M Results :=
  match pending with
  | [] => ret results
  | recruiter :: rest =>
      results' <- loop_body i recruiter results ;;
      bulk_loop (i + 1) rest results'
  end.

End BulkLoop.

Definition send_to_all_pending (template_name : option string)
    (custom_vars : option (list (string * string)))
    (dry_run : bool) (progress_callback : bool) : M Results :=
  let template_name :=
    match template_name with
    | None => default_template (config env)
    | Some t => t
    end in
  pending <- get_pending ;;
  let results := {| total := Py.len pending; sent := 0; failed := 0;
                    skipped := 0; errors := [] |} in
  bulk_loop template_name custom_vars dry_run progress_callback
            (Py.len pending) 0 pending results.

End Pipeline.

(** * Notions of the specification *)

(** ** The ledger as the specification sees it *)

(** The sequence of records the ledger stands for in a world: what the
    limiter holds once it is loaded, what the first access will load from
    the file before that. *)
Definition load_result (f : log_file) : list SentRecord :=
  match f with
  | LogObject (Some entries) => entries
  | _ => []
  end.

Definition ledger (w : World) : list SentRecord :=
  if _loaded (rate_limiter w) then _sent_emails (rate_limiter w)
  else load_result (sent_log w).

(** The world after the lazy load. *)
Definition loaded_world (w : World) : World :=
  if _loaded (rate_limiter w) then w
  else set_rate_limiter {| _sent_emails := load_result (sent_log w); _loaded := true |} w.

(** [countSince(instant)] of the specification: records with
    [timestamp > instant]. *)
Fixpoint countSince (instant : datetime) (l : list SentRecord) : Z :=
  match l with
  | [] => 0
  | r :: rest => (if instant <? timestamp r then 1 else 0) + countSince instant rest
  end.

(** [countOnDate(day)] of the specification: records whose timestamp falls
    on the calendar day. *)
Fixpoint countOnDate (day : Z) (l : list SentRecord) : Z :=
  match l with
  | [] => 0
  | r :: rest => (if date (timestamp r) =? day then 1 else 0) + countOnDate day rest
  end.

(** The decision the specification prescribes for [canSend], from the two
    counts and the two limits. *)
Definition decision (today last_hour daily hourly : Z) : bool * string :=
  if today >=? daily then
    (false, "Daily limit reached (" ++ Py.str_int today ++ "/" ++ Py.str_int daily ++ ")")
  else if last_hour >=? hourly then
    (false, "Hourly limit reached (" ++ Py.str_int last_hour ++ "/" ++ Py.str_int hourly ++ ")")
  else (true, "OK").

(** The records inside the trailing hour that ends at the reading [t]. *)
Definition in_window (t : datetime) (l : list SentRecord) : list SentRecord :=
  filter (fun e => timestamp e >? t - hours 1) l.

(** [oldest] is the timestamp of an oldest record of [window]. *)
Definition is_oldest (oldest : datetime) (window : list SentRecord) : Prop :=
  In oldest (map timestamp window) /\
  forall r, In r window -> oldest <= timestamp r.

(** ** Appending and reloading *)

(** The record [record_sent] builds from its arguments and a clock reading. *)
Definition new_record (t : datetime) (rid em tpl subj : string) : SentRecord :=
  {| timestamp := t; recruiter_id := rid; email := em; template := tpl;
     subject := subj |}.

(** The world [record_sent] leaves in memory, before the file is written:
    the limiter is loaded, the clock has been read once, the record is last
    in the sequence and one more write has been attempted. *)
Definition appended (env : Env) (rid em tpl subj : string) (w : World) : World :=
  set_log_writes (S (log_writes w))
    (set_sent_emails
       (ledger w ++ [new_record (clock env (ticks w)) rid em tpl subj])%list
       (set_ticks (S (ticks w)) (loaded_world w))).

(** N calls of [record_sent], one per tuple (recruiter id, email, template,
    subject). *)
Fixpoint record_all (env : Env) (sends : list (string * string * string * string))
  : M unit :=
  match sends with
  | [] => ret tt
  | (rid, em, tpl, subj) :: rest =>
      record_sent env rid em tpl subj ;; record_all env rest
  end.

(** The records those calls build: the k-th is stamped with the k-th
    reading of the clock. *)
Fixpoint stamped (env : Env) (tick : nat) (sends : list (string * string * string * string))
  : list SentRecord :=
  match sends with
  | [] => []
  | (rid, em, tpl, subj) :: rest =>
      new_record (clock env tick) rid em tpl subj :: stamped env (S tick) rest
  end.

(** A new process: a fresh [RateLimiter] object over the same files. *)
Definition restart (w : World) : World :=
  set_rate_limiter {| _sent_emails := []; _loaded := false |} w.

(** Reloading the ledger from durable storage in a new process. *)
Definition reload : M (list SentRecord) :=
  modify restart ;;
  _load_sent_log ;;
  gets (fun w => _sent_emails (rate_limiter w)).

(** The file holds exactly what the loaded limiter holds. *)
Definition durable (w : World) : Prop :=
  _loaded (rate_limiter w) = true /\
  sent_log w = LogObject (Some (_sent_emails (rate_limiter w))).

(** A ledger file that exists and cannot be used: unreadable, not JSON, not
    an object, or an object without the key ["sent_emails"]. *)
Definition unparsable (f : log_file) : Prop :=
  match f with
  | LogUnreadable _ | LogInvalidJson _ | LogNotObject | LogObject None => True
  | LogAbsent | LogObject (Some _) => False
  end.

(** ** Sample environments and worlds *)

Definition sample_recruiter (rid em : string) : Recruiter :=
  {| id := rid; r_email := em; first_name := "Ada"; last_name := "Byron";
     title := None; company := "Initech"; job_title := "Engineer";
     department := ""; greeting_style := "semi_formal"; custom_fields := [];
     status := Pending; last_contacted := None |}.

(** An environment in which every collaborator cooperates: credentials are
    set, every template renders, the server accepts every message and every
    write succeeds. *)
Definition sample_env (limits : RateLimitSettings) (clk : nat -> datetime) : Env :=
  {| config := {| rate_limit := limits; attach_resume_default := true;
                  default_template := "default";
                  gmail_email := "me@example.com";
                  gmail_app_password := "app-password" |};
     clock := clk;
     log_write_fate := fun _ => WriteOk;
     store_save_fate := fun _ => SaveOk;
     resume_exists := false;
     render := fun tpl r _ => Ok ("Application at " ++ company r, "Hello " ++ first_name r);
     smtp := fun _ _ => None |}.

(** A process that has just started: nothing loaded, nothing done yet. *)
Definition fresh_world (f : log_file) (s : store_file) : World :=
  {| ticks := 0; rate_limiter := {| _sent_emails := []; _loaded := false |};
     sent_log := f; log_writes := 0;
     recruiter_manager := {| _recruiters := []; _recruiters_loaded := false |};
     store := s; store_saves := 0; smtp_sessions := 0; trace := [] |}.

(** Noon of day 739000, and a clock that stands still there. *)
Definition noon : datetime := 739000 * us_per_day + 12 * 3600 * us_per_second.
Definition frozen (t : datetime) : nat -> datetime := fun _ => t.

(** A record of the given instant. *)
Definition record_at (t : datetime) : SentRecord :=
  new_record t "1" "a@b.com" "default" "Application at Initech".

(** ** Dispatching one message *)

(** The answer of [can_send] in a world. *)
Definition verdict (env : Env) (w : World) : bool * string :=
  decision (countOnDate (date (clock env (S (ticks w)))) (ledger w))
           (countSince (clock env (ticks w) - hours 1) (ledger w))
           (daily_limit env) (hourly_limit env).

(** The world after the rate gate: the ledger is loaded and the clock has
    been read twice. *)
Definition gate_world (w : World) : World :=
  set_ticks (S (S (ticks w))) (loaded_world w).

(** The failure kinds of the specification, as [send_email] raises them:
    authentication failed, recipient refused, any other transport error. *)
Definition classify (r : Recruiter) (e : exn) : exn :=
  match e with
  | SMTPAuthenticationError _ =>
      SMTPConnectionError "Authentication failed. Check your credentials."
  | SMTPRecipientsRefused _ => EmailError ("Recipient refused: " ++ r_email r)
  | SMTPException m => EmailError ("SMTP error: " ++ m)
  | _ => EmailError ("Failed to send email: " ++ str_exn e)
  end.

(** The exceptions of [smtplib]: [SMTPException] and its subclasses. *)
Definition is_smtp_exn (e : exn) : bool :=
  match e with
  | SMTPAuthenticationError _ | SMTPRecipientsRefused _ | SMTPException _ => true
  | _ => false
  end.

(** Neither the ledger (in memory or on disk) nor the contact store (in
    memory or on disk) differs between two worlds. *)
Definition untouched (w w' : World) : Prop :=
  ledger w' = ledger w /\ sent_log w' = sent_log w /\ log_writes w' = log_writes w /\
  recruiter_manager w' = recruiter_manager w /\ store w' = store w /\
  store_saves w' = store_saves w.

(** The contact store, in memory and on disk, is as it was. *)
Definition contact_store_untouched (w w' : World) : Prop :=
  recruiter_manager w' = recruiter_manager w /\ store w' = store w /\
  store_saves w' = store_saves w.

(** The message [send_email] hands to the server. *)
Definition outgoing (env : Env) (r : Recruiter) (attach_resume : option bool)
    (subj body : string) : Message :=
  _create_message env (r_email r) subj body
    (if match attach_resume with
        | None => attach_resume_default (config env)
        | Some b => b
        end
     then resume_exists env else false).

(** The contact stored under [rid] is marked as sent at instant [t]. *)
Definition marked_sent (rid : string) (t : datetime) (w : World) : Prop :=
  exists r0, dict_get rid (_recruiters (recruiter_manager w))
             = Some (with_status Sent (Some t) r0).

(** An environment whose disk refuses every write of the ledger file, and a
    fresh process with one pending contact. *)
Definition full_disk_env : Env :=
  {| config := config (sample_env default_rate_limit (frozen noon));
     clock := frozen noon;
     log_write_fate := fun _ => OpenFails "No space left on device";
     store_save_fate := fun _ => SaveOk;
     resume_exists := false;
     render := render (sample_env default_rate_limit (frozen noon));
     smtp := fun _ _ => None |}.

Definition one_contact_world : World :=
  fresh_world LogAbsent (StoreRows [sample_recruiter "1" "a@b.com"]).

(** The text [render_preview] returns for a recipient, subject and body. *)
Definition preview_text (em subj body : string) : string :=
  separator ++ nl ++ "To: " ++ em ++ nl ++ "Subject: " ++ subj ++ nl
    ++ separator ++ nl ++ nl ++ body ++ nl ++ nl ++ separator.

(** ** The bulk loop *)

(** The pauses of a trace, in order, and its progress notifications. *)
Definition sleeps (tr : list event) : list Z :=
  flat_map (fun ev => match ev with EvSleep s => [s] | _ => [] end) tr.

Definition progress_events (tr : list event) : list event :=
  filter (fun ev => match ev with EvProgress _ _ _ => true | _ => false end) tr.

Definition is_smtp_event (ev : event) : Prop :=
  match ev with EvSmtp _ _ => True | _ => False end.

(** The notifications the observer is owed for the contacts [l], the first
    of which has index [i], out of [n]. *)
Fixpoint progress_from (n i : Z) (l : list Recruiter) : list event :=
  match l with
  | [] => []
  | r :: rest => EvProgress (i + 1) n r :: progress_from n (i + 1) rest
  end.

(** The world in which an iteration asks the governor: the observer, if
    any, has been notified. *)
Definition notified (progress_callback : bool) (n i : Z) (r : Recruiter) (w : World)
  : World :=
  if progress_callback then emit (EvProgress (i + 1) n r) w else w.



(** Three pending contacts in the store of a fresh process. *)
Definition three_contacts : list Recruiter :=
  [sample_recruiter "1" "a@b.com"; sample_recruiter "2" "c@d.com";
   sample_recruiter "3" "e@f.com"].

Definition three_pending_world : World :=
  fresh_world LogAbsent (StoreRows three_contacts).

(** One message per hour. *)
Definition one_per_hour_env : Env :=
  sample_env {| emails_per_hour := 1; delay_between_emails := 30;
                max_emails_per_day := 100 |} (frozen noon).

(** A server that refuses the recipient c@d.com and takes the others. *)
Definition refusing_env : Env :=
  {| config := config (sample_env default_rate_limit (frozen noon));
     clock := frozen noon;
     log_write_fate := fun _ => WriteOk;
     store_save_fate := fun _ => SaveOk;
     resume_exists := false;
     render := render (sample_env default_rate_limit (frozen noon));
     smtp := fun _ m =>
       if (msg_to m =? "c@d.com")%string
       then Some (SMTPRecipientsRefused "{'c@d.com': (550, b'5.1.1 user unknown')}")
       else None |}.

(** A process whose ledger file holds [k] records of the instant [t]. *)
Definition world_with_records (k : nat) (t : datetime) : World :=
  fresh_world (LogObject (Some (repeat (record_at t) k))) StoreAbsent.

Definition default_env : Env := sample_env default_rate_limit (frozen noon).

(** Five messages a day, a hundred an hour. *)
Definition five_per_day_env : Env :=
  sample_env {| emails_per_hour := 100; delay_between_emails := 30;
                max_emails_per_day := 5 |} (frozen noon).


(** A daily limit of zero. *)
Definition zero_daily_env : Env :=
  sample_env {| emails_per_hour := 20; delay_between_emails := 30;
                max_emails_per_day := 0 |} (frozen noon).

(** A ledger file that is not JSON. *)
Definition garbled_world : World :=
  fresh_world (LogInvalidJson "Expecting value: line 1 column 1 (char 0)") StoreAbsent.

(** 9999-12-31 23:30:00, half an hour before the end of the time line. *)
Definition last_half_hour : datetime :=
  3652059 * us_per_day + (23 * 3600 + 30 * 60) * us_per_second.

(** Ten minutes before noon. *)
Definition ten_to_noon : datetime := noon - 600 * us_per_second.

(** A ledger file whose records are not in the order of their dates. *)
Definition shuffled_world : World :=
  fresh_world
    (LogObject (Some [record_at noon; record_at (noon + hours 1);
                      record_at ten_to_noon]))
    StoreAbsent.

Definition two_sends : list (string * string * string * string) :=
  [("1", "a@b.com", "default", "Application at Initech");
   ("2", "c@d.com", "follow_up", "Following up")].

(** * More of the code *)

(** ** [rate_limiter.py]: statistics, history *)

(** The dictionary [get_statistics] returns. *)
Module Stats.
Record t := {
  emails_last_hour : Z;
  hourly_limit : Z;
  hourly_remaining : Z;
  emails_today : Z;
  daily_limit : Z;
  daily_remaining : Z;
  total_sent : Z;
  delay_between_emails : Z
}.
End Stats.

Definition get_statistics (env : Env) : M Stats.t :=
  _ensure_loaded ;;
  emails_last_hour <- get_emails_last_hour env ;;
  emails_today <- get_emails_today env ;;
  entries <- gets (fun w => _sent_emails (rate_limiter w)) ;;
  ret {| Stats.emails_last_hour := emails_last_hour;
         Stats.hourly_limit := hourly_limit env;
         Stats.hourly_remaining := Py.max 0 (hourly_limit env - emails_last_hour);
         Stats.emails_today := emails_today;
         Stats.daily_limit := daily_limit env;
         Stats.daily_remaining := Py.max 0 (daily_limit env - emails_today);
         Stats.total_sent := Py.len entries;
         Stats.delay_between_emails := delay env |}.

(** [x["timestamp"]]: the text [record_sent] stored,
    [datetime.now().isoformat()]. *)
Definition timestamp_text (r : SentRecord) : string := isoformat (timestamp r).

(** One step of [sorted(..., key=lambda x: x["timestamp"], reverse=True)]:
    the record goes before the first one whose key is not greater, so
    records of equal key keep their order, as Python's stable sort does.
    The keys are the texts of the timestamps, compared as Python compares
    strings: character by character, a proper prefix before its
    extensions. *)
Fixpoint insert_newest_first (x : SentRecord) (l : list SentRecord) : list SentRecord :=
  match l with
  | [] => [x]
  | y :: rest =>
      if String.ltb (timestamp_text x) (timestamp_text y)
      then y :: insert_newest_first x rest
      else x :: y :: rest
  end.

Definition sorted_newest_first (l : list SentRecord) : list SentRecord :=
  fold_right insert_newest_first [] l.

(** [l[:k]]: a negative [k] counts from the end. *)
Definition slice_to {A : Type} (k : Z) (l : list A) : list A :=
  if k >=? 0 then firstn (Z.to_nat k) l
  else firstn (Z.to_nat (Py.len l + k)) l.

Definition get_sent_history (limit : Z) : M (list SentRecord) :=
  _ensure_loaded ;;
  entries <- gets (fun w => _sent_emails (rate_limiter w)) ;;
  ret (slice_to limit (sorted_newest_first entries)).

(** [a] is not older than [b]. *)
Definition not_older (a b : SentRecord) : Prop := timestamp b <= timestamp a.

(** The timestamp text of [a] is not before that of [b]. *)
Definition text_not_older (a b : SentRecord) : Prop :=
  String.leb (timestamp_text b) (timestamp_text a) = true.

(** Every timestamp is a datetime, as every text that [isoformat] wrote
    denotes. *)
Definition datetimes (l : list SentRecord) : Prop :=
  Forall (fun r => in_range (timestamp r) = true) l.

(** The messages of a trace that the server took. *)
Definition accepted (tr : list event) : Z :=
  Py.len (filter (fun ev => match ev with EvSmtp _ None => true | _ => false end) tr).

(** The record was stamped by the clock of the environment. *)
Definition stamped_by (env : Env) (r : SentRecord) : Prop :=
  exists k, timestamp r = clock env k.


(** The run so far kept its quota: the records appended to the ledger
    [L0] the run started with are exactly the messages the server accepted
    since the trace counted [a0] of them, each stamped by a clock reading,
    and they are at most [room]. *)
Definition within_quota (env : Env) (L0 : list SentRecord) (a0 room : Z) (w : World) : Prop :=
  exists new,
    ledger w = (L0 ++ new)%list /\ Forall (stamped_by env) new /\
    accepted (trace w) = a0 + Py.len new /\ Py.len new <= Z.max 0 room.


(** ** More of [recruiter_manager.py] *)

(** [get_all()]. *)
Definition get_all : M (list Recruiter) :=
  manager_ensure_loaded ;;
  d <- gets (fun w => _recruiters (recruiter_manager w)) ;;
  ret (dict_values d).

(** [del d[k]]. *)
Fixpoint dict_del (k : string) (d : list (string * Recruiter))
  : list (string * Recruiter) :=
  match d with
  | [] => []
  | (k', v) :: rest =>
      if String.eqb k' k then rest else (k', v) :: dict_del k rest
  end.

(** [delete(id)]. *)
Definition delete (env : Env) (rid : string) : M unit :=
  manager_ensure_loaded ;;
  d <- gets (fun w => _recruiters (recruiter_manager w)) ;;
  match dict_get rid d with
  | None => raise (RecruiterNotFoundError
                     ("Recruiter with ID '" ++ rid ++ "' not found"))
  | Some _ =>
      modify (fun w => set_recruiters
                         (dict_del rid (_recruiters (recruiter_manager w))) w) ;;
      save env
  end.

(** The dictionary [RecruiterManager.get_statistics] returns. *)
Module RecruiterStats.
Record t := {
  total : Z;
  pending : Z;
  sent : Z;
  replied : Z;
  bounced : Z
}.
End RecruiterStats.

(** One turn of the loop of [get_statistics]:
    [stats["total"] += 1; stats[recruiter.status] += 1]. *)
Definition count_recruiter (stats : RecruiterStats.t) (r : Recruiter)
  : RecruiterStats.t :=
  let n := RecruiterStats.total stats + 1 in
  match status r with
  | Pending =>
      {| RecruiterStats.total := n;
         RecruiterStats.pending := RecruiterStats.pending stats + 1;
         RecruiterStats.sent := RecruiterStats.sent stats;
         RecruiterStats.replied := RecruiterStats.replied stats;
         RecruiterStats.bounced := RecruiterStats.bounced stats |}
  | Sent =>
      {| RecruiterStats.total := n;
         RecruiterStats.pending := RecruiterStats.pending stats;
         RecruiterStats.sent := RecruiterStats.sent stats + 1;
         RecruiterStats.replied := RecruiterStats.replied stats;
         RecruiterStats.bounced := RecruiterStats.bounced stats |}
  | Replied =>
      {| RecruiterStats.total := n;
         RecruiterStats.pending := RecruiterStats.pending stats;
         RecruiterStats.sent := RecruiterStats.sent stats;
         RecruiterStats.replied := RecruiterStats.replied stats + 1;
         RecruiterStats.bounced := RecruiterStats.bounced stats |}
  | Bounced =>
      {| RecruiterStats.total := n;
         RecruiterStats.pending := RecruiterStats.pending stats;
         RecruiterStats.sent := RecruiterStats.sent stats;
         RecruiterStats.replied := RecruiterStats.replied stats;
         RecruiterStats.bounced := RecruiterStats.bounced stats + 1 |}
  end.

Definition manager_get_statistics : M RecruiterStats.t :=
  manager_ensure_loaded ;;
  d <- gets (fun w => _recruiters (recruiter_manager w)) ;;
  ret (fold_left count_recruiter (dict_values d)
         {| RecruiterStats.total := 0; RecruiterStats.pending := 0;
            RecruiterStats.sent := 0; RecruiterStats.replied := 0;
            RecruiterStats.bounced := 0 |}).

(** The entry of the statistics for a status. *)
Definition stat_of (st : status_t) (stats : RecruiterStats.t) : Z :=
  match st with
  | Pending => RecruiterStats.pending stats
  | Sent => RecruiterStats.sent stats
  | Replied => RecruiterStats.replied stats
  | Bounced => RecruiterStats.bounced stats
  end.

(** The contacts are filed under their own identifiers, each identifier
    once, and each has an identifier and an address. *)
Definition keyed_by_id (d : list (string * Recruiter)) : Prop :=
  NoDup (map fst d) /\
  Forall (fun kv => fst kv = id (snd kv) /\ id (snd kv) <> "" /\ r_email (snd kv) <> "") d.

(** The rows a contact file holds, as far as they can be read. *)
Definition rows_of (f : store_file) : list Recruiter :=
  match f with
  | StoreAbsent => []
  | StoreRows rows => rows
  | StoreCorrupt rows _ => rows
  end.

(** The last row of the given identifier that has an address. *)
Definition last_row_with_id (k : string) (rows : list Recruiter) : option Recruiter :=
  find (fun r => (id r =? k)%string && negb (id r =? "")%string
                   && negb (r_email r =? "")%string) (rev rows).

(** A process that has loaded the three sample contacts. *)
Definition three_loaded_world : World := snd (manager_ensure_loaded three_pending_world).

(** An environment whose disk refuses every save of the contact store. *)
Definition read_only_store_env : Env :=
  {| config := config default_env;
     clock := frozen noon;
     log_write_fate := fun _ => WriteOk;
     store_save_fate := fun _ => SaveFails "Error saving CSV file: read-only";
     resume_exists := false;
     render := render default_env;
     smtp := fun _ _ => None |}.


(** One turn of the loop of [_load_csv] and [_load_json]. *)
Definition load_step (d : list (string * Recruiter)) (r : Recruiter)
  : list (string * Recruiter) :=
  if negb (id r =? "")%string && negb (r_email r =? "")%string
  then dict_set (id r) r d else d.


(** ** [web/sse.py] and the bulk send of [web/routes/email.py] *)

Module Sse.

Record BulkSendSession := {
  session_id : string;
  total : Z;
  current : Z;
  current_email : string;
  status : string;         (* pending, in_progress, completed, error *)
  sent : Z;
  failed : Z;
  skipped : Z;
  errors : list ErrorEntry
}.

(** The module-level dictionary [_sessions], in insertion order. *)
Definition sessions : Type := list (string * BulkSendSession).

(** [_sessions.get(k)]. *)
Fixpoint get (k : string) (d : sessions) : option BulkSendSession :=
  match d with
  | [] => None
  | (k', v) :: rest => if String.eqb k' k then Some v else get k rest
  end.

(** [_sessions[k] = v]; also the state of the dictionary after the object
    stored under [k] has been mutated into [v]. *)
Fixpoint set (k : string) (v : BulkSendSession) (d : sessions) : sessions :=
  match d with
  | [] => [(k, v)]
  | (k', v') :: rest =>
      if String.eqb k' k then (k, v) :: rest else (k', v') :: set k v rest
  end.

(** [_sessions.pop(k, None)]. *)
Fixpoint pop (k : string) (d : sessions) : sessions :=
  match d with
  | [] => []
  | (k', v) :: rest =>
      if String.eqb k' k then rest else (k', v) :: pop k rest
  end.

End Sse.

(** Computations of the web layer: they run on the session dictionary and
    the world of the mailer; an exception keeps what was done to both. *)
Definition WM (A : Type) : Type :=
  Sse.sessions -> World -> result A * World * Sse.sessions.

Definition wret {A : Type} (a : A) : WM A := fun ss w => (Ok a, w, ss).

Definition wbind {A B : Type} (m : WM A) (k : A -> WM B) : WM B :=
  fun ss w => match m ss w with
              | (Ok a, w', ss') => k a ss' w'
              | (Raise e, w', ss') => (Raise e, w', ss')
              end.

(** A call into the mailer. *)
Definition lift {A : Type} (m : M A) : WM A :=
  fun ss w => let (r, w') := m w in (r, w', ss).

Definition wtry_except {A : Type} (m : WM A) (h : exn -> WM A) : WM A :=
  fun ss w => match m ss w with
              | (Ok a, w', ss') => (Ok a, w', ss')
              | (Raise e, w', ss') => h e ss' w'
              end.

Definition gets_sessions {A : Type} (f : Sse.sessions -> A) : WM A :=
  fun ss w => (Ok (f ss), w, ss).

Definition modify_sessions (f : Sse.sessions -> Sse.sessions) : WM unit :=
  fun ss w => (Ok tt, w, f ss).

Declare Scope web_scope.
Delimit Scope web_scope with web.
Notation "x <- m ;; k" := (wbind m (fun x => k))
  (at level 61, m at next level, right associativity) : web_scope.
Notation "' pat <- m ;; k" := (wbind m (fun x => match x with pat => k end))
  (at level 61, pat pattern, m at next level, right associativity) : web_scope.
Notation "m ;; k" := (wbind m (fun _ => k))
  (at level 61, right associativity) : web_scope.

(** [create_session(total)]; [uuid] is the text of the identifier
    [uuid.uuid4()] draws. *)
Definition create_session (uuid : string) (total : Z) : WM Sse.BulkSendSession :=
  (let session := {| Sse.session_id := uuid; Sse.total := total; Sse.current := 0;
                     Sse.current_email := ""; Sse.status := "pending";
                     Sse.sent := 0; Sse.failed := 0; Sse.skipped := 0;
                     Sse.errors := [] |} in
   modify_sessions (Sse.set uuid session) ;;
   wret session)%web.

(** [get_session(session_id)]. *)
Definition get_session (session_id : string) : WM (option Sse.BulkSendSession) :=
  gets_sessions (Sse.get session_id).

(** [if x is not None: session.field = x], for each field in turn. *)
Definition assign (session : Sse.BulkSendSession)
    (current : option Z) (current_email status : option string)
    (sent failed skipped : option Z) (error : option ErrorEntry)
  : Sse.BulkSendSession :=
  {| Sse.session_id := Sse.session_id session;
     Sse.total := Sse.total session;
     Sse.current := match current with Some x => x | None => Sse.current session end;
     Sse.current_email :=
       match current_email with Some x => x | None => Sse.current_email session end;
     Sse.status := match status with Some x => x | None => Sse.status session end;
     Sse.sent := match sent with Some x => x | None => Sse.sent session end;
     Sse.failed := match failed with Some x => x | None => Sse.failed session end;
     Sse.skipped := match skipped with Some x => x | None => Sse.skipped session end;
     Sse.errors :=
       match error with
       | Some x => (Sse.errors session ++ [x])%list
       | None => Sse.errors session
       end |}.

(** [update_session(session_id, current=..., ..., error=...)]. *)
Definition update_session (session_id : string)
    (current : option Z) (current_email status : option string)
    (sent failed skipped : option Z) (error : option ErrorEntry)
  : WM (option Sse.BulkSendSession) :=
  (found <- gets_sessions (Sse.get session_id) ;;
   match found with
   | None => wret None
   | Some session =>
       let session' :=
         assign session current current_email status sent failed skipped error in
       modify_sessions (Sse.set session_id session') ;;
       wret (Some session')
   end)%web.

(** [delete_session(session_id)]. *)
Definition delete_session (session_id : string) : WM unit :=
  modify_sessions (Sse.pop session_id).

(** One iteration of the loop of [_run_bulk_send]; the three counters are
    its local variables [sent], [failed] and [skipped]. *)
Definition run_loop_body (env : Env) (session_id template_name : string)
    (dry_run : bool) (n_pending i : Z) (recruiter : Recruiter)
    (counters : Z * Z * Z) : WM (Z * Z * Z) :=
  (let '(sent, failed, skipped) := counters in
   update_session session_id (Some (i + 1)) (Some (r_email recruiter))
                  None None None None None ;;
   '(allowed, reason) <- lift (can_send env) ;;
   if negb allowed then
     let skipped := skipped + 1 in
     update_session session_id None None None None None (Some skipped)
       (Some {| err_email := r_email recruiter;
                err_error := "Rate limit: " ++ reason |}) ;;
     wret (sent, failed, skipped)
   else
     '(sent, failed) <-
       wtry_except
         ('(success, message) <-
            lift (send_email env recruiter template_name None None dry_run) ;;
          if (success : bool) then wret (sent + 1, failed)
          else
            update_session session_id None None None None None None
              (Some {| err_email := r_email recruiter; err_error := message |}) ;;
            wret (sent, failed + 1))
         (fun e =>
            update_session session_id None None None None None None
              (Some {| err_email := r_email recruiter; err_error := str_exn e |}) ;;
            wret (sent, failed + 1)) ;;
     update_session session_id None None None
                    (Some sent) (Some failed) (Some skipped) None ;;
     (if negb dry_run && (i <? n_pending - 1)
      then lift (wait_for_delay env) else wret tt) ;;
     wret (sent, failed, skipped))%web.

Fixpoint run_loop (env : Env) (session_id template_name : string)
    (dry_run : bool) (n_pending i : Z) (pending : list Recruiter)
    (counters : Z * Z * Z) : WM (Z * Z * Z) :=
  match pending with
  | [] => wret counters
  | recruiter :: rest =>
      (counters' <- run_loop_body env session_id template_name dry_run
                                  n_pending i recruiter counters ;;
       run_loop env session_id template_name dry_run n_pending (i + 1) rest
                counters')%web
  end.

(** [_run_bulk_send(session_id, mailer, template_name, dry_run)]. *)
Definition _run_bulk_send (env : Env) (session_id template_name : string)
    (dry_run : bool) : WM unit :=
  (pending <- lift get_pending ;;
   match pending with
   | [] =>
       update_session session_id (Some 0) None (Some "completed")
                      None None None None ;;
       wret tt
   | _ :: _ =>
       update_session session_id (Some 0) None (Some "in_progress")
                      None None None None ;;
       run_loop env session_id template_name dry_run (Py.len pending) 0 pending
                (0, 0, 0) ;;
       update_session session_id None None (Some "completed")
                      None None None None ;;
       wret tt
   end)%web.


(** A session dictionary in which a bulk send for three contacts has just
    been registered. *)
Definition one_session : Sse.sessions :=
  snd (create_session "b1946ac9" 3 [] three_pending_world).


(** ** More of [mailer.py] *)

(** [preview_email(recruiter, template_name, custom_vars)]. *)
Definition preview_email (env : Env) (recruiter : Recruiter) (template_name : string)
    (custom_vars : option (list (string * string))) : M string :=
  render_preview env template_name recruiter custom_vars.

(** Whether [send_email] finds both credentials. *)
Definition credentials_set (env : Env) : bool :=
  negb ((gmail_email (config env) =? "")%string
        || (gmail_app_password (config env) =? "")%string).

(** An environment without an application password. *)
Definition no_password_env : Env :=
  {| config := {| rate_limit := default_rate_limit; attach_resume_default := true;
                  default_template := "default";
                  gmail_email := "me@example.com";
                  gmail_app_password := "" |};
     clock := frozen noon;
     log_write_fate := fun _ => WriteOk;
     store_save_fate := fun _ => SaveOk;
     resume_exists := false;
     render := render default_env;
     smtp := fun _ _ => None |}.


(** ** The columns of the CSV file ([recruiter_manager.py]) *)

Definition CSV_HEADERS : list string :=
  ["id"; "email"; "first_name"; "last_name"; "title"; "company"; "job_title";
   "greeting_style"; "custom_field_1"; "custom_field_2"; "status"; "last_contacted"].

(** [f"custom_field_{i}"]. *)
Definition custom_field_header (i : Z) : string := "custom_field_" ++ Py.str_int i.

(** [range(a, a + n)]. *)
Fixpoint range_from (a : Z) (n : nat) : list Z :=
  match n with
  | O => []
  | S n' => a :: range_from (a + 1) n'
  end.

(** [range(a, b)]. *)
Definition range (a b : Z) : list Z := range_from a (Z.to_nat (b - a)).

(** The keys of the row [to_csv_row] builds: the ten fixed ones, then one
    [custom_field_i] per custom field, counted from 1. *)
Definition to_csv_row_keys (r : Recruiter) : list string :=
  (["id"; "email"; "first_name"; "last_name"; "title"; "company"; "job_title";
    "greeting_style"; "status"; "last_contacted"]
   ++ map custom_field_header (range 1 (Py.len (custom_fields r) + 1)))%list.

(** [max(iterable, default=d)]. *)
Definition py_max_default (l : list Z) (d : Z) : Z :=
  match l with
  | [] => d
  | x :: rest => fold_left Py.max rest x
  end.

(** [l.insert(-2, x)]: before the last two elements, at the front of a
    shorter list. *)
Definition list_insert_minus2 {A : Type} (x : A) (l : list A) : list A :=
  let k := (List.length l - 2)%nat in
  (firstn k l ++ x :: skipn k l)%list.

(** The [fieldnames] [_save_csv] gives the writer for the contacts
    [self._recruiters.values()]. *)
Definition csv_fieldnames (recruiters : list Recruiter) : list string :=
  let max_custom_fields :=
    py_max_default (map (fun r => Py.len (custom_fields r)) recruiters) 2 in
  let max_custom_fields := Py.max max_custom_fields 2 in
  fold_left
    (fun headers i =>
       if existsb (String.eqb (custom_field_header i)) headers then headers
       else list_insert_minus2 (custom_field_header i) headers)
    (range 3 (max_custom_fields + 1)) CSV_HEADERS.

(** The largest number of custom fields among the contacts, and at least
    two. *)
Definition widest (recruiters : list Recruiter) : Z :=
  fold_right (fun r m => Z.max (Py.len (custom_fields r)) m) 2 recruiters.


(** ** [config.py] *)

(** [Config.get_data_format()].  [data_format] is [app.data_format]; a file
    is given by its modification time, [None] when it does not exist. *)
Definition get_data_format (data_format : string) (json_file csv_file : option Z)
  : string :=
  let exists_ (f : option Z) := match f with Some _ => true | None => false end in
  if negb (data_format =? "auto")%string then data_format
  else if exists_ json_file && negb (exists_ csv_file) then "json"
  else if exists_ csv_file && negb (exists_ json_file) then "csv"
  else
    match json_file, csv_file with
    | Some json_mtime, Some csv_mtime =>
        if json_mtime >? csv_mtime then "json" else "csv"
    | _, _ => "csv"
    end.

(** The file of a format. *)
Definition file_of (fmt : string) (json_file csv_file : option Z) : option Z :=
  if (fmt =? "json")%string then json_file else csv_file.


(** A contact with three custom fields. *)
Definition three_field_contact : Recruiter :=
  {| id := "7"; r_email := "g@h.com"; first_name := "Grace"; last_name := "Hopper";
     title := None; company := "Initech"; job_title := "Engineer";
     department := "Compilers"; greeting_style := "semi_formal";
     custom_fields := [("skills", "COBOL"); ("referral", "Ada"); ("notes", "navy")];
     status := Pending; last_contacted := None |}.

(** * Properties *)

(** ** Running the rate limiter *)

Lemma len_filter_countSince (instant : datetime) (l : list SentRecord) :
  Py.len (filter (fun e => timestamp e >? instant) l) = countSince instant l.
Proof.
  unfold Py.len.
  induction l as [|r rest IH]; simpl; [reflexivity|].
  rewrite Z.gtb_ltb.
  destruct (instant <? timestamp r); cbn [List.length];
    rewrite ?Nat2Z.inj_succ; lia.
Qed.

Lemma len_filter_countOnDate (day : Z) (l : list SentRecord) :
  Py.len (filter (fun e => date (timestamp e) =? day) l) = countOnDate day l.
Proof.
  unfold Py.len.
  induction l as [|r rest IH]; simpl; [reflexivity|].
  destruct (date (timestamp r) =? day); cbn [List.length];
    rewrite ?Nat2Z.inj_succ; lia.
Qed.

Lemma loaded_world_loaded (w : World) : _loaded (rate_limiter (loaded_world w)) = true.
Proof. unfold loaded_world. destruct (_loaded (rate_limiter w)) eqn:E; simpl; auto. Qed.

Lemma loaded_world_entries (w : World) :
  _sent_emails (rate_limiter (loaded_world w)) = ledger w.
Proof. unfold loaded_world, ledger. destruct (_loaded (rate_limiter w)); reflexivity. Qed.

Lemma ensure_loaded_run (w : World) :
  _ensure_loaded w = (Ok tt, loaded_world w).
Proof.
  unfold _ensure_loaded, loaded_world, bind, gets.
  destruct (_loaded (rate_limiter w)) eqn:E; simpl; [reflexivity|].
  unfold _load_sent_log, bind, modify, gets, try_except, read_sent_emails, raise, ret.
  simpl. destruct (sent_log w) as [| | | |[entries|]]; reflexivity.
Qed.

Lemma ensure_loaded_noop (w : World) :
  _loaded (rate_limiter w) = true -> _ensure_loaded w = (Ok tt, w).
Proof.
  intros H. rewrite ensure_loaded_run. unfold loaded_world. rewrite H. reflexivity.
Qed.

Lemma loaded_world_ticks (w : World) : ticks (loaded_world w) = ticks w.
Proof. unfold loaded_world. destruct (_loaded (rate_limiter w)); reflexivity. Qed.

Lemma loaded_world_set_ticks (n : nat) (w : World) :
  loaded_world (set_ticks n w) = set_ticks n (loaded_world w).
Proof. unfold loaded_world. simpl. destruct (_loaded (rate_limiter w)); reflexivity. Qed.

Lemma loaded_world_idem (w : World) : loaded_world (loaded_world w) = loaded_world w.
Proof.
  unfold loaded_world at 1. rewrite loaded_world_loaded. reflexivity.
Qed.

Lemma ledger_loaded_world (w : World) : ledger (loaded_world w) = ledger w.
Proof.
  unfold ledger at 1. rewrite loaded_world_loaded. apply loaded_world_entries.
Qed.

Lemma ledger_set_ticks (n : nat) (w : World) : ledger (set_ticks n w) = ledger w.
Proof. reflexivity. Qed.

Lemma get_emails_in_window_run (env : Env) (window : timedelta) (w : World) :
  _get_emails_in_window env window w =
  (Ok (filter (fun e => timestamp e >? clock env (ticks w) - window) (ledger w)),
   set_ticks (S (ticks w)) (loaded_world w)).
Proof.
  unfold _get_emails_in_window, bind.
  rewrite ensure_loaded_run. unfold now, gets, ret. simpl.
  rewrite loaded_world_entries, loaded_world_ticks. reflexivity.
Qed.

Lemma get_emails_last_hour_run (env : Env) (w : World) :
  get_emails_last_hour env w =
  (Ok (countSince (clock env (ticks w) - hours 1) (ledger w)),
   set_ticks (S (ticks w)) (loaded_world w)).
Proof.
  unfold get_emails_last_hour, bind.
  rewrite get_emails_in_window_run. unfold ret.
  rewrite len_filter_countSince. reflexivity.
Qed.

Lemma get_emails_today_run (env : Env) (w : World) :
  get_emails_today env w =
  (Ok (countOnDate (date (clock env (ticks w))) (ledger w)),
   set_ticks (S (ticks w)) (loaded_world w)).
Proof.
  unfold get_emails_today, bind.
  rewrite ensure_loaded_run. unfold now, gets, ret. simpl.
  rewrite len_filter_countOnDate, loaded_world_entries, loaded_world_ticks.
  reflexivity.
Qed.

(** [can_send] reads the clock twice, first for the trailing hour and then
    for the calendar day, and leaves the limiter loaded. *)
Lemma can_send_run (env : Env) (w : World) :
  can_send env w =
  (Ok (decision (countOnDate (date (clock env (S (ticks w)))) (ledger w))
                (countSince (clock env (ticks w) - hours 1) (ledger w))
                (daily_limit env) (hourly_limit env)),
   set_ticks (S (S (ticks w))) (loaded_world w)).
Proof.
  unfold can_send, bind.
  rewrite get_emails_last_hour_run, get_emails_today_run.
  rewrite loaded_world_set_ticks, loaded_world_idem. simpl ticks.
  rewrite ledger_set_ticks, ledger_loaded_world.
  unfold decision, ret.
  destruct (_ >=? daily_limit env); [reflexivity|].
  destruct (_ >=? hourly_limit env); reflexivity.
Qed.

Lemma countSince_all (instant : datetime) (l : list SentRecord) :
  Forall (fun r => instant < timestamp r) l -> countSince instant l = Py.len l.
Proof.
  unfold Py.len. induction 1 as [|r rest Hr _ IH]; [reflexivity|].
  cbn [countSince List.length]. rewrite IH, Nat2Z.inj_succ.
  apply Z.ltb_lt in Hr. rewrite Hr. lia.
Qed.

Lemma countOnDate_all (day : Z) (l : list SentRecord) :
  Forall (fun r => date (timestamp r) = day) l -> countOnDate day l = Py.len l.
Proof.
  unfold Py.len. induction 1 as [|r rest Hr _ IH]; [reflexivity|].
  cbn [countOnDate List.length]. rewrite IH, Nat2Z.inj_succ.
  apply Z.eqb_eq in Hr. rewrite Hr. lia.
Qed.

(** C1.  For every environment (limits, clock) and every world, [can_send]
    answers by the two counts over the ledger: refusal with the daily reason
    when the records on today's calendar date reach the daily limit,
    otherwise refusal with the hourly reason when the records of the
    trailing hour reach the hourly limit, otherwise [(True, "OK")]; the
    daily test comes first, and the reasons read
    ["Daily limit reached (n/limit)"] and ["Hourly limit reached (n/limit)"].
    With an hourly limit of 20, a daily limit above 20 and exactly 20
    records stamped with the current instant, the answer is
    [(False, "Hourly limit reached (20/20)")]; with a daily limit of 5, an
    hourly limit of 100 and 5 records stamped with the current instant, the
    answer is [(False, "Daily limit reached (5/5)")]. *)
Theorem can_send_decision :
  (forall (env : Env) (w : World),
     let today := countOnDate (date (clock env (S (ticks w)))) (ledger w) in
     let last_hour := countSince (clock env (ticks w) - hours 1) (ledger w) in
     fst (can_send env w) =
     Ok (if today >=? daily_limit env then
           (false, "Daily limit reached (" ++ Py.str_int today ++ "/"
                     ++ Py.str_int (daily_limit env) ++ ")")
         else if last_hour >=? hourly_limit env then
           (false, "Hourly limit reached (" ++ Py.str_int last_hour ++ "/"
                     ++ Py.str_int (hourly_limit env) ++ ")")
         else (true, "OK")))
  /\ (forall (env : Env) (w : World) (t : datetime),
        hourly_limit env = 20 -> 20 < daily_limit env ->
        clock env (ticks w) = t -> clock env (S (ticks w)) = t ->
        Py.len (ledger w) = 20 ->
        Forall (fun r => timestamp r = t) (ledger w) ->
        fst (can_send env w) = Ok (false, "Hourly limit reached (20/20)"))
  /\ (forall (env : Env) (w : World) (t : datetime),
        daily_limit env = 5 -> hourly_limit env = 100 ->
        clock env (ticks w) = t -> clock env (S (ticks w)) = t ->
        Py.len (ledger w) = 5 ->
        Forall (fun r => timestamp r = t) (ledger w) ->
        fst (can_send env w) = Ok (false, "Daily limit reached (5/5)")).
Proof.
  split; [|split].
  - intros env w today last_hour. rewrite can_send_run. reflexivity.
  - intros env w t Hh Hd Ht1 Ht2 Hlen Hall.
    rewrite can_send_run. simpl fst. rewrite Ht1, Ht2, Hh.
    rewrite countSince_all, countOnDate_all, Hlen.
    + unfold decision.
      destruct (20 >=? daily_limit env) eqn:E.
      * rewrite Z.geb_leb in E. apply Z.leb_le in E. lia.
      * reflexivity.
    + eapply Forall_impl; [|exact Hall]. intros r Hr. simpl in Hr. now rewrite Hr.
    + eapply Forall_impl; [|exact Hall]. intros r Hr. simpl in Hr.
      rewrite Hr. unfold hours, us_per_second. lia.
  - intros env w t Hd Hh Ht1 Ht2 Hlen Hall.
    rewrite can_send_run. simpl fst. rewrite Ht1, Ht2, Hh, Hd.
    rewrite countSince_all, countOnDate_all, Hlen.
    + reflexivity.
    + eapply Forall_impl; [|exact Hall]. intros r Hr. simpl in Hr. now rewrite Hr.
    + eapply Forall_impl; [|exact Hall]. intros r Hr. simpl in Hr.
      rewrite Hr. unfold hours, us_per_second. lia.
Qed.

(** ** Waiting time *)

Lemma Py_max_spec (a b : Z) : Py.max a b = Z.max a b.
Proof. unfold Py.max. destruct (a <? b) eqn:E; [apply Z.ltb_lt in E|apply Z.ltb_ge in E]; lia. Qed.

Lemma fold_left_min_le (xs : list Z) (x : Z) :
  fold_left Z.min xs x <= x /\ forall y, In y xs -> fold_left Z.min xs x <= y.
Proof.
  revert x. induction xs as [|a xs IH]; intros x; simpl.
  - split; [lia | intros y []].
  - destruct (IH (Z.min x a)) as [H1 H2]. split; [lia|].
    intros y [<-|Hy]; [lia | auto].
Qed.

Lemma fold_left_min_in (xs : list Z) (x : Z) :
  fold_left Z.min xs x = x \/ In (fold_left Z.min xs x) xs.
Proof.
  revert x. induction xs as [|a xs IH]; intros x; simpl; [now left|].
  destruct (IH (Z.min x a)) as [H|H]; [|now right; right].
  rewrite H. destruct (Z.min_spec x a) as [[_ E]|[_ E]]; rewrite E; auto.
Qed.

Lemma py_min_oldest (window : list SentRecord) (d : datetime) :
  window <> [] -> is_oldest (py_min (map timestamp window) d) window.
Proof.
  destruct window as [|r rest]; [congruence|]. intros _.
  unfold is_oldest, py_min. cbn [map].
  destruct (fold_left_min_le (map timestamp rest) (timestamp r)) as [H1 H2].
  split.
  - destruct (fold_left_min_in (map timestamp rest) (timestamp r)) as [E|E].
    + rewrite E. now left.
    + now right.
  - intros r' [<-|Hr']; [exact H1|]. apply H2. now apply in_map.
Qed.

(** *** Whole seconds of a duration *)

Lemma round_half_even_spec (a b : Z) :
  0 < b ->
  a / b <= round_half_even a b <= a / b + 1
  /\ (round_half_even a b = a / b + 1 -> b <= 2 * (a mod b)).
Proof.
  intros Hb. unfold round_half_even.
  destruct (Z.ltb_spec (2 * (a mod b)) b); [repeat split; lia|].
  destruct (Z.ltb_spec b (2 * (a mod b))); [repeat split; lia|].
  destruct (Z.even (a / b)); repeat split; lia.
Qed.

Lemma whole_seconds_nonneg (n : Z) : 0 <= n -> 0 <= whole_seconds n.
Proof.
  intros Hn. unfold whole_seconds.
  assert (Hu : us_per_second = 1000000) by reflexivity.
  destruct (n / us_per_second =? 0); [lia|].
  set (e := Z.log2 (n / us_per_second)).
  pose proof (Z.log2_nonneg (n / us_per_second)) as He. fold e in He.
  destruct (Z.ltb_spec e 52).
  - assert (Hs : 0 < 2 ^ (52 - e)) by (apply Z.pow_pos_nonneg; lia).
    destruct (round_half_even_spec (n * 2 ^ (52 - e)) us_per_second ltac:(lia))
      as ((Hlo & _) & _).
    apply Z.div_pos; [|lia].
    assert (0 <= n * 2 ^ (52 - e) / us_per_second) by (apply Z.div_pos; nia). lia.
  - assert (Hs : 0 < 2 ^ (e - 52)) by (apply Z.pow_pos_nonneg; lia).
    destruct (round_half_even_spec n (us_per_second * 2 ^ (e - 52)) ltac:(nia))
      as ((Hlo & _) & _).
    assert (0 <= n / (us_per_second * 2 ^ (e - 52))) by (apply Z.div_pos; nia). nia.
Qed.

(** Below 2^34 seconds the float holds the microseconds well enough for
    [int] to give the truncated quotient. *)
Lemma whole_seconds_exact (n : Z) :
  0 <= n < 2 ^ 34 * us_per_second ->
  whole_seconds n = n / us_per_second.
Proof.
  intros [Hn Hlt]. unfold whole_seconds.
  assert (Hu : us_per_second = 1000000) by reflexivity.
  set (q := n / us_per_second).
  assert (Hq0 : 0 <= q) by (apply Z.div_pos; lia).
  assert (Hq34 : q < 2 ^ 34) by (apply Z.div_lt_upper_bound; lia).
  destruct (Z.eqb_spec q 0) as [E|E]; [lia|].
  assert (Hqpos : 0 < q) by lia.
  pose proof (Z.log2_nonneg q) as He0.
  assert (He : Z.log2 q < 34) by (apply Z.log2_lt_pow2; lia).
  destruct (Z.ltb_spec (Z.log2 q) 52) as [_|]; [|lia].
  set (s := 2 ^ (52 - Z.log2 q)).
  assert (Hs : 2 ^ 19 <= s) by (unfold s; apply Z.pow_le_mono_r; lia).
  assert (H19 : 2 ^ 19 = 524288) by reflexivity.
  destruct (round_half_even_spec (n * s) us_per_second ltac:(lia))
    as ((Hlo & Hhi) & Hup1).
  pose proof (Z.div_mod n us_per_second ltac:(lia)) as Hdm.
  pose proof (Z.mod_pos_bound n us_per_second ltac:(lia)) as Hmb.
  fold q in Hdm.
  pose proof (Z.div_mod (n * s) us_per_second ltac:(lia)) as Hdm2.
  pose proof (Z.mod_pos_bound (n * s) us_per_second ltac:(lia)) as Hmb2.
  assert (Hlow : q * s <= n * s / us_per_second).
  { apply Z.div_le_lower_bound; [lia|]. nia. }
  assert (Hupper : round_half_even (n * s) us_per_second < (q + 1) * s).
  { set (m := round_half_even (n * s) us_per_second) in *.
    set (qq := n * s / us_per_second) in *.
    set (rr := (n * s) mod us_per_second) in *.
    destruct (Z.eq_dec m (qq + 1)) as [Em|Em].
    - specialize (Hup1 Em). nia.
    - assert (m = qq) by lia. nia. }
  apply Z.le_antisymm.
  - assert (round_half_even (n * s) us_per_second / s < q + 1); [|lia].
    apply Z.div_lt_upper_bound; lia.
  - apply Z.div_le_lower_bound; lia.
Qed.

Lemma int_total_seconds_exact (d : timedelta) :
  Z.abs d < 2 ^ 34 * us_per_second ->
  int_total_seconds d = Z.quot d us_per_second.
Proof.
  intros H. unfold int_total_seconds.
  assert (Hu : us_per_second = 1000000) by reflexivity.
  rewrite whole_seconds_exact by lia.
  destruct (Z.abs_spec d) as [[Hd E]|[Hd E]]; rewrite E.
  - rewrite Z.quot_div_nonneg by lia.
    destruct (Z.eq_dec d 0) as [->|]; [reflexivity|].
    rewrite Z.sgn_pos by lia. lia.
  - rewrite Z.sgn_neg by lia.
    rewrite <- (Z.opp_involutive d) at 2. rewrite Z.quot_opp_l by lia.
    rewrite Z.quot_div_nonneg by lia. lia.
Qed.

Lemma int_total_seconds_nonpos (d : timedelta) : d <= 0 -> int_total_seconds d <= 0.
Proof.
  intros H. unfold int_total_seconds.
  pose proof (whole_seconds_nonneg (Z.abs d) (Z.abs_nonneg d)).
  destruct (Z.eq_dec d 0) as [->|]; [reflexivity|].
  rewrite Z.sgn_neg by lia. lia.
Qed.

Lemma get_wait_time_run (env : Env) (w : World) :
  let n := ticks w in
  fst (get_wait_time env w) =
  if countOnDate (date (clock env n)) (ledger w) >=? daily_limit env then
    Ok (int_total_seconds
          (replace_hms_zero (clock env (1 + n)) + days 1 - clock env (2 + n)))
  else if countSince (clock env (1 + n) - hours 1) (ledger w) >=? hourly_limit env then
    match datetime_add
            (py_min (map timestamp (in_window (clock env (3 + n)) (ledger w)))
                    (clock env (4 + n)))
            (hours 1) with
    | Ok wait_until => Ok (Py.max 0 (int_total_seconds (wait_until - clock env (5 + n))))
    | Raise e => Raise e
    end
  else Ok 0.
Proof.
  intros n. unfold get_wait_time, bind.
  rewrite get_emails_today_run.
  destruct (_ >=? daily_limit env).
  - reflexivity.
  - rewrite get_emails_last_hour_run.
    rewrite ledger_set_ticks, ledger_loaded_world. simpl ticks.
    destruct (_ >=? hourly_limit env); [|reflexivity].
    unfold now at 1. simpl.
    rewrite get_emails_in_window_run. simpl.
    repeat rewrite ?ledger_set_ticks, ?ledger_loaded_world.
    unfold of_result. fold (in_window (clock env (S (S (S n)))) (ledger w)).
    destruct (datetime_add _ _); reflexivity.
Qed.

(** The arithmetic of the daily branch when both readings are the same
    instant: the microseconds [replace] keeps cancel, and whole seconds
    remain. *)
Lemma until_midnight_frozen (t : datetime) :
  int_total_seconds (replace_hms_zero t + days 1 - t) = 86400 - second_of_day t
  /\ 0 <= (86400 - second_of_day t) * us_per_second - (next_midnight t - t)
       < us_per_second.
Proof.
  unfold replace_hms_zero, days, next_midnight, second_of_day, date.
  assert (HD : us_per_day = 86400 * us_per_second) by reflexivity.
  assert (HS : us_per_second = 1000000) by reflexivity.
  pose proof (Z.div_mod t us_per_day ltac:(rewrite HD, HS; lia)) as Ht.
  pose proof (Z.mod_pos_bound t us_per_day ltac:(rewrite HD, HS; lia)) as Hb.
  pose proof (Z.div_mod (t mod us_per_day) us_per_second ltac:(rewrite HS; lia)) as Hm.
  pose proof (Z.mod_pos_bound (t mod us_per_day) us_per_second ltac:(rewrite HS; lia)) as Hmb.
  assert (Hmm : (t mod us_per_day) mod us_per_second = t mod us_per_second).
  { apply Z.mod_mod_divide. exists 86400. exact HD. }
  rewrite Hmm in Hm, Hmb.
  set (d := t / us_per_day) in *.
  set (m := t mod us_per_day) in *.
  set (q := m / us_per_second) in *.
  set (u := t mod us_per_second) in *.
  assert (E : d * us_per_day + u + 1 * us_per_day - t = (86400 - q) * us_per_second) by lia.
  assert (Hq : 0 <= q < 86400).
  { unfold q. split; [apply Z.div_pos; lia|]. apply Z.div_lt_upper_bound; lia. }
  split.
  - rewrite E, int_total_seconds_exact.
    + apply Z.quot_mul. rewrite HS; lia.
    + rewrite Z.abs_eq by nia. change (2 ^ 34) with 17179869184. nia.
  - lia.
Qed.

Lemma until_midnight_same_day (t1 t2 : datetime) :
  date t1 = date t2 ->
  - us_per_second
  < int_total_seconds (replace_hms_zero t1 + days 1 - t2) * us_per_second
    - (next_midnight t2 - t2)
  < us_per_second.
Proof.
  intros Hd.
  unfold replace_hms_zero, days, next_midnight. rewrite Hd.
  unfold date.
  assert (HD : us_per_day = 86400 * us_per_second) by reflexivity.
  assert (HS : us_per_second = 1000000) by reflexivity.
  pose proof (Z.div_mod t2 us_per_day ltac:(rewrite HD, HS; lia)) as Ht.
  pose proof (Z.mod_pos_bound t2 us_per_day ltac:(rewrite HD, HS; lia)) as Hb.
  pose proof (Z.mod_pos_bound t1 us_per_second ltac:(rewrite HS; lia)) as Hu.
  set (d := t2 / us_per_day) in *.
  set (m := t2 mod us_per_day) in *.
  set (u := t1 mod us_per_second) in *.
  set (x := d * us_per_day + u + 1 * us_per_day - t2).
  assert (Hx : 0 <= x) by (unfold x; lia).
  assert (Hx2 : x < 2 ^ 34 * us_per_second)
    by (unfold x; change (2 ^ 34) with 17179869184; lia).
  rewrite int_total_seconds_exact by (rewrite Z.abs_eq; assumption).
  pose proof (Z.quot_rem x us_per_second ltac:(rewrite HS; lia)) as Hq.
  pose proof (Z.rem_bound_pos x us_per_second Hx ltac:(rewrite HS; lia)) as Hr.
  unfold x in *. lia.
Qed.

Lemma wait_within_hour (oldest t : datetime) :
  oldest <= t -> 0 <= Z.max 0 (int_total_seconds (oldest + hours 1 - t)) <= 3600.
Proof.
  intros H. split; [lia|].
  apply Z.max_lub; [lia|].
  destruct (Z.le_gt_cases (oldest + hours 1 - t) 0) as [Hneg|Hpos].
  - pose proof (int_total_seconds_nonpos _ Hneg). lia.
  - rewrite int_total_seconds_exact.
    + replace 3600 with (Z.quot (3600 * us_per_second) us_per_second)
        by (apply Z.quot_mul; unfold us_per_second; lia).
      apply Z.quot_le_mono; unfold hours, us_per_second in *; lia.
    + rewrite Z.abs_eq by lia. change (2 ^ 34) with 17179869184.
      unfold hours, us_per_second in *. lia.
Qed.

(** C3, as the code has it.  [get_wait_time], for every ledger.  When the
    daily limit is reached it returns the seconds until local midnight:
    from two readings of the clock on the same day, a number within one
    second of the time left until midnight, and from one and the same
    instant exactly 86400 minus the whole seconds elapsed today (the time
    left, rounded up to a whole second).  Otherwise, when the hourly limit
    is reached, [oldest] being the oldest timestamp inside the trailing
    hour (the current instant when that window is empty): if [oldest + 1h]
    is still a datetime, it returns [oldest + 1h - now] in whole seconds,
    floored at 0 (the whole seconds are those of [int(total_seconds())],
    the truncated duration whenever this is shorter than 2^34 seconds), a
    value in [0, 3600] if no record is in the future; if [oldest + 1h] lies
    beyond the last datetime, it raises [OverflowError].  Otherwise it
    returns 0. *)
Theorem get_wait_time_spec (env : Env) (w : World) :
  let n := ticks w in
  let today := countOnDate (date (clock env n)) (ledger w) in
  let last_hour := countSince (clock env (1 + n) - hours 1) (ledger w) in
  let window := in_window (clock env (3 + n)) (ledger w) in
  let oldest := py_min (map timestamp window) (clock env (4 + n)) in
  let now_end := clock env (5 + n) in
  (today >= daily_limit env ->
     (date (clock env (1 + n)) = date (clock env (2 + n)) ->
      exists s, fst (get_wait_time env w) = Ok s /\
        - us_per_second
        < s * us_per_second - (next_midnight (clock env (2 + n)) - clock env (2 + n))
        < us_per_second) /\
     (forall t, clock env (1 + n) = t -> clock env (2 + n) = t ->
        fst (get_wait_time env w) = Ok (86400 - second_of_day t) /\
        0 <= (86400 - second_of_day t) * us_per_second - (next_midnight t - t)
          < us_per_second))
  /\ (today < daily_limit env -> last_hour >= hourly_limit env ->
      (window <> [] -> is_oldest oldest window) /\
      (window = [] -> oldest = clock env (4 + n)) /\
      (in_range (oldest + hours 1) = true ->
         fst (get_wait_time env w)
         = Ok (Z.max 0 (int_total_seconds (oldest + hours 1 - now_end))) /\
         (Z.abs (oldest + hours 1 - now_end) < 2 ^ 34 * us_per_second ->
          fst (get_wait_time env w)
          = Ok (Z.max 0 (Z.quot (oldest + hours 1 - now_end) us_per_second))) /\
         (Forall (fun r => timestamp r <= now_end) (ledger w) ->
          clock env (4 + n) <= now_end ->
          exists s, fst (get_wait_time env w) = Ok s /\ 0 <= s <= 3600)) /\
      (in_range (oldest + hours 1) = false ->
         fst (get_wait_time env w) = Raise (OverflowError "date value out of range")))
  /\ (today < daily_limit env -> last_hour < hourly_limit env ->
      fst (get_wait_time env w) = Ok 0).
Proof.
  intros n today last_hour window oldest now_end.
  pose proof (get_wait_time_run env w) as Hrun. cbv zeta in Hrun.
  fold n today last_hour window in Hrun. fold oldest now_end in Hrun.
  split; [|split].
  - intros Hday.
    assert (E : (today >=? daily_limit env) = true)
      by (rewrite Z.geb_leb; apply Z.leb_le; lia).
    rewrite E in Hrun. split.
    + intros Hsame. eexists. split; [exact Hrun|].
      now apply until_midnight_same_day.
    + intros t H1 H2. rewrite Hrun, H1, H2.
      destruct (until_midnight_frozen t) as [Hq Hb]. rewrite Hq. now split.
  - intros Hday Hhour.
    assert (E1 : (today >=? daily_limit env) = false)
      by (rewrite Z.geb_leb; apply Z.leb_gt; lia).
    assert (E2 : (last_hour >=? hourly_limit env) = true)
      by (rewrite Z.geb_leb; apply Z.leb_le; lia).
    rewrite E1, E2 in Hrun. unfold datetime_add in Hrun.
    split; [|split; [|split]].
    + intros Hne. now apply py_min_oldest.
    + intros Hnil. unfold oldest. now rewrite Hnil.
    + intros Hin. rewrite Hin, Py_max_spec in Hrun. split; [exact Hrun|]. split.
      * intros Hshort. rewrite Hrun. now rewrite int_total_seconds_exact.
      * intros Hpast Hmono. eexists. split; [exact Hrun|].
        apply wait_within_hour. unfold oldest.
        destruct window as [|r rest] eqn:Ew; [exact Hmono|].
        destruct (py_min_oldest (r :: rest) (clock env (4 + n))) as [Hi _];
          [discriminate|].
        apply in_map_iff in Hi. destruct Hi as [r' [Hr' Hi]].
        rewrite <- Hr'.
        assert (Hl : In r' (ledger w)).
        { assert (H' : In r' window) by (rewrite Ew; exact Hi).
          unfold window, in_window in H'. apply filter_In in H'. tauto. }
        rewrite Forall_forall in Hpast. now apply Hpast.
    + intros Hout. now rewrite Hout in Hrun.
  - intros Hday Hhour.
    assert (E1 : (today >=? daily_limit env) = false)
      by (rewrite Z.geb_leb; apply Z.leb_gt; lia).
    assert (E2 : (last_hour >=? hourly_limit env) = false)
      by (rewrite Z.geb_leb; apply Z.leb_gt; lia).
    rewrite E1, E2 in Hrun. exact Hrun.
Qed.

(** C3 as stated fails for a ledger that holds a timestamp of the last
    hour of the time line.  With a limit of one message per hour and one
    record dated 9999-12-31 23:30, the hourly limit is reached and the daily
    one is not, and [get_wait_time] does not return: the hour added to the
    record lies beyond [datetime.max]. *)
Lemma get_wait_time_overflows :
  let w := world_with_records 1 last_half_hour in
  in_range last_half_hour = true
  /\ countOnDate (date (clock one_per_hour_env 0)) (ledger w)
     < daily_limit one_per_hour_env
  /\ countSince (clock one_per_hour_env 1 - hours 1) (ledger w)
     >= hourly_limit one_per_hour_env
  /\ fst (get_wait_time one_per_hour_env w)
     = Raise (OverflowError "date value out of range").
Proof.
  cbv zeta. split; [vm_compute; reflexivity|].
  split; [vm_compute; reflexivity|].
  split; [vm_compute; discriminate|].
  vm_compute. reflexivity.
Qed.

(** ** Appending to the ledger *)

Lemma load_sent_log_run (w : World) :
  _load_sent_log w =
  (Ok tt, set_rate_limiter {| _sent_emails := load_result (sent_log w);
                              _loaded := true |} w).
Proof.
  unfold _load_sent_log, bind, modify, gets, try_except, read_sent_emails, raise, ret.
  simpl. destruct (sent_log w) as [| | | |[entries|]]; reflexivity.
Qed.

Lemma reload_run (w : World) : fst (reload w) = Ok (load_result (sent_log w)).
Proof.
  unfold reload, bind, modify. rewrite load_sent_log_run. reflexivity.
Qed.

Lemma save_sent_log_run (env : Env) (w : World) :
  _save_sent_log env w =
  match log_write_fate env (log_writes w) with
  | WriteOk =>
      (Ok tt, set_sent_log (LogObject (Some (_sent_emails (rate_limiter w))))
                (set_log_writes (S (log_writes w)) w))
  | OpenFails msg => (Raise (OSError msg), set_log_writes (S (log_writes w)) w)
  | DumpFails e =>
      (Raise e,
       set_sent_log (LogInvalidJson "truncated") (set_log_writes (S (log_writes w)) w))
  end.
Proof.
  unfold _save_sent_log, bind, gets, modify, raise. simpl.
  destruct (log_write_fate env (log_writes w)); reflexivity.
Qed.

Lemma record_sent_run (env : Env) (rid em tpl subj : string) (w : World) :
  record_sent env rid em tpl subj w =
  match log_write_fate env (log_writes w) with
  | WriteOk =>
      (Ok tt,
       set_sent_log
         (LogObject (Some (ledger w ++ [new_record (clock env (ticks w)) rid em tpl subj])%list))
         (appended env rid em tpl subj w))
  | OpenFails msg => (Raise (OSError msg), appended env rid em tpl subj w)
  | DumpFails e =>
      (Raise e,
       set_sent_log (LogInvalidJson "truncated") (appended env rid em tpl subj w))
  end.
Proof.
  unfold record_sent, bind. rewrite ensure_loaded_run.
  unfold now, modify. rewrite save_sent_log_run. simpl.
  rewrite loaded_world_entries, loaded_world_ticks.
  unfold appended, new_record.
  assert (E : log_writes (loaded_world w) = log_writes w)
    by (unfold loaded_world; destruct (_loaded (rate_limiter w)); reflexivity).
  rewrite E.
  destruct (log_write_fate env (log_writes w)); reflexivity.
Qed.

Lemma appended_ledger (env : Env) (rid em tpl subj : string) (w : World) :
  _loaded (rate_limiter (appended env rid em tpl subj w)) = true /\
  _sent_emails (rate_limiter (appended env rid em tpl subj w)) =
  (ledger w ++ [new_record (clock env (ticks w)) rid em tpl subj])%list.
Proof.
  unfold appended. simpl. split; [apply loaded_world_loaded | reflexivity].
Qed.

Lemma ledger_loaded (w : World) :
  _loaded (rate_limiter w) = true -> ledger w = _sent_emails (rate_limiter w).
Proof. unfold ledger. now intros ->. Qed.

Lemma ledger_set_sent_log (f : log_file) (w : World) :
  _loaded (rate_limiter w) = true ->
  ledger (set_sent_log f w) = _sent_emails (rate_limiter w).
Proof. unfold ledger. simpl. now intros ->. Qed.

(** C9.  [record_sent], for every ledger state and every fate of the write:
    the limiter afterwards holds the previous sequence followed by exactly
    one new record, built from the arguments and stamped with the clock;
    then the whole sequence is written.  A write that succeeds leaves the
    full sequence in the file; a write that fails raises what the failing
    step raised (an [OSError] from [mkdir] or [open], the exception of
    [json.dump] otherwise), and the record is in memory all the same. *)
Theorem record_sent_appends (env : Env) (rid em tpl subj : string) (w : World) :
  let record := new_record (clock env (ticks w)) rid em tpl subj in
  let w' := snd (record_sent env rid em tpl subj w) in
  _sent_emails (rate_limiter w') = (ledger w ++ [record])%list
  /\ ledger w' = (ledger w ++ [record])%list
  /\ match log_write_fate env (log_writes w) with
     | WriteOk =>
         fst (record_sent env rid em tpl subj w) = Ok tt /\
         sent_log w' = LogObject (Some (ledger w ++ [record])%list)
     | OpenFails msg =>
         fst (record_sent env rid em tpl subj w) = Raise (OSError msg) /\
         sent_log w' = sent_log w
     | DumpFails e =>
         fst (record_sent env rid em tpl subj w) = Raise e /\
         load_result (sent_log w') = []
     end.
Proof.
  intros record w'. subst w'. rewrite record_sent_run.
  destruct (appended_ledger env rid em tpl subj w) as [Hl He].
  assert (Hf : sent_log (appended env rid em tpl subj w) = sent_log w).
  { unfold appended, loaded_world. simpl.
    destruct (_loaded (rate_limiter w)); reflexivity. }
  assert (Hled : forall f, ledger (set_sent_log f (appended env rid em tpl subj w))
                           = (ledger w ++ [record])%list).
  { intros f. rewrite ledger_set_sent_log by exact Hl. exact He. }
  assert (Hled' : ledger (appended env rid em tpl subj w) = (ledger w ++ [record])%list).
  { rewrite ledger_loaded by exact Hl. exact He. }
  destruct (log_write_fate env (log_writes w)); simpl;
    rewrite ?Hl, ?He, ?Hled, ?Hled'; repeat split; auto.
Qed.

(** ** Round trip through durable storage *)

Lemma reload_durable (w : World) : durable w -> fst (reload w) = Ok (ledger w).
Proof.
  intros [Hl Hf]. rewrite reload_run, Hf, (ledger_loaded w Hl). reflexivity.
Qed.

Lemma durable_set_sent_log (w : World) :
  _loaded (rate_limiter w) = true ->
  durable (set_sent_log (LogObject (Some (_sent_emails (rate_limiter w)))) w).
Proof. intros H. split; simpl; [exact H | reflexivity]. Qed.

Lemma record_sent_ok (env : Env) (rid em tpl subj : string) (w : World) :
  log_write_fate env (log_writes w) = WriteOk ->
  exists w1,
    record_sent env rid em tpl subj w = (Ok tt, w1) /\
    durable w1 /\
    ledger w1 = (ledger w ++ [new_record (clock env (ticks w)) rid em tpl subj])%list /\
    ticks w1 = S (ticks w) /\
    log_writes w1 = S (log_writes w).
Proof.
  intros Hfate. rewrite record_sent_run, Hfate.
  destruct (appended_ledger env rid em tpl subj w) as [Hl He].
  eexists. split; [reflexivity|].
  assert (Hd : durable
                 (set_sent_log
                    (LogObject (Some (ledger w ++ [new_record (clock env (ticks w)) rid em tpl subj])%list))
                    (appended env rid em tpl subj w))).
  { rewrite <- He. now apply durable_set_sent_log. }
  split; [exact Hd|]. split.
  - rewrite ledger_set_sent_log by exact Hl. exact He.
  - split; reflexivity.
Qed.

Lemma record_all_run (env : Env) (sends : list (string * string * string * string)) :
  forall w : World,
    (forall k, (k < List.length sends)%nat ->
               log_write_fate env (log_writes w + k) = WriteOk) ->
    fst (record_all env sends w) = Ok tt /\
    ledger (snd (record_all env sends w))
    = (ledger w ++ stamped env (ticks w) sends)%list /\
    (durable w \/ sends <> [] -> durable (snd (record_all env sends w))).
Proof.
  induction sends as [|[[[rid em] tpl] subj] rest IH]; intros w Hfates.
  - simpl. rewrite app_nil_r. split; [reflexivity|]. split; [reflexivity|].
    intros [Hd|Hd]; [exact Hd|congruence].
  - destruct (record_sent_ok env rid em tpl subj w) as (w1 & Hrun & Hd & Hled & Ht & Hw).
    { rewrite <- (Nat.add_0_r (log_writes w)). apply Hfates. simpl. lia. }
    destruct (IH w1) as (Hok & Hled' & Hdur).
    { intros k Hk. rewrite Hw. replace (S (log_writes w) + k)%nat
        with (log_writes w + S k)%nat by lia.
      apply Hfates. simpl. lia. }
    cbn [record_all stamped]. unfold bind. rewrite Hrun.
    split; [exact Hok|]. split.
    + rewrite Hled', Hled, Ht, <- app_assoc. reflexivity.
    + intros _. apply Hdur. now left.
Qed.

Lemma stamped_length (env : Env) (sends : list (string * string * string * string)) :
  forall tick, List.length (stamped env tick sends) = List.length sends.
Proof.
  induction sends as [|[[[rid em] tpl] subj] rest IH]; intros tick; simpl; auto.
Qed.

(** C8.  Saving the ledger and loading it again in a new process gives back
    the sequence that was saved.  After N calls of [record_sent] whose
    writes succeed, the ledger is the previous ledger followed by the N new
    records in order, and a reload from durable storage yields exactly that
    sequence; started on an empty ledger with no file, the reload yields
    the N records, no more and in the same order. *)
Theorem ledger_round_trip :
  (forall (env : Env) (w : World),
     log_write_fate env (log_writes w) = WriteOk ->
     fst (_save_sent_log env w) = Ok tt /\
     fst (reload (snd (_save_sent_log env w))) = Ok (_sent_emails (rate_limiter w)))
  /\ (forall (env : Env) (sends : list (string * string * string * string)) (w : World),
        (forall k, (k < List.length sends)%nat ->
                   log_write_fate env (log_writes w + k) = WriteOk) ->
        let w' := snd (record_all env sends w) in
        fst (record_all env sends w) = Ok tt /\
        ledger w' = (ledger w ++ stamped env (ticks w) sends)%list /\
        (durable w \/ sends <> [] ->
         fst (reload w') = Ok (ledger w ++ stamped env (ticks w) sends)%list))
  /\ (forall (env : Env) (sends : list (string * string * string * string)) (w : World),
        (forall k, (k < List.length sends)%nat ->
                   log_write_fate env (log_writes w + k) = WriteOk) ->
        sent_log w = LogAbsent -> _loaded (rate_limiter w) = false ->
        fst (reload (snd (record_all env sends w))) = Ok (stamped env (ticks w) sends) /\
        List.length (stamped env (ticks w) sends) = List.length sends).
Proof.
  split; [|split].
  - intros env w Hfate. rewrite save_sent_log_run, Hfate. split; [reflexivity|].
    rewrite reload_run. reflexivity.
  - intros env sends w Hfates w'.
    destruct (record_all_run env sends w Hfates) as (Hok & Hled & Hdur).
    split; [exact Hok|]. split; [exact Hled|].
    intros H. rewrite <- Hled. apply reload_durable. now apply Hdur.
  - intros env sends w Hfates Hfile Hfresh.
    destruct (record_all_run env sends w Hfates) as (Hok & Hled & Hdur).
    split; [|apply stamped_length].
    assert (Hempty : ledger w = []) by (unfold ledger; now rewrite Hfresh, Hfile).
    destruct sends as [|s rest].
    + simpl. rewrite reload_run, Hfile. reflexivity.
    + rewrite reload_durable by (apply Hdur; right; discriminate).
      rewrite Hled, Hempty. reflexivity.
Qed.

(** ** A ledger file that cannot be parsed *)

Lemma load_result_unparsable (f : log_file) : unparsable f -> load_result f = [].
Proof. destruct f as [| | | |[entries|]]; simpl; tauto. Qed.

(** C10, as the code has it.  When the ledger file exists and cannot be
    parsed (a read error, invalid JSON, a document that is not an object or
    has no ["sent_emails"] key), loading does not fail and leaves an empty
    in-memory ledger; both window counts are then 0, and [can_send] answers
    [(True, "OK")] whenever both configured limits are positive. *)
Theorem unparsable_log_loads_empty (env : Env) (w : World) :
  _loaded (rate_limiter w) = false ->
  unparsable (sent_log w) ->
  fst (_load_sent_log w) = Ok tt
  /\ _sent_emails (rate_limiter (snd (_load_sent_log w))) = []
  /\ fst (get_emails_last_hour env w) = Ok 0
  /\ fst (get_emails_today env w) = Ok 0
  /\ (0 < daily_limit env -> 0 < hourly_limit env ->
      fst (can_send env w) = Ok (true, "OK")).
Proof.
  intros Hfresh Hbad.
  assert (Hempty : ledger w = []).
  { unfold ledger. rewrite Hfresh. now apply load_result_unparsable. }
  rewrite load_sent_log_run, get_emails_last_hour_run, get_emails_today_run,
    can_send_run, Hempty. simpl.
  rewrite (load_result_unparsable _ Hbad).
  repeat split; try reflexivity.
  intros Hd Hh. unfold decision.
  destruct (0 >=? daily_limit env) eqn:E1;
    [rewrite Z.geb_leb in E1; apply Z.leb_le in E1; lia|].
  destruct (0 >=? hourly_limit env) eqn:E2;
    [rewrite Z.geb_leb in E2; apply Z.leb_le in E2; lia|].
  reflexivity.
Qed.

(** C10 as stated fails when a limit is not positive: with a daily limit of
    0 and a ledger file that is not JSON, the ledger loads empty and
    [can_send] refuses. *)
Lemma unparsable_log_zero_limit_refuses :
  _loaded (rate_limiter garbled_world) = false
  /\ unparsable (sent_log garbled_world)
  /\ _sent_emails (rate_limiter (snd (_load_sent_log garbled_world))) = []
  /\ fst (get_emails_last_hour zero_daily_env garbled_world) = Ok 0
  /\ fst (get_emails_today zero_daily_env garbled_world) = Ok 0
  /\ fst (can_send zero_daily_env garbled_world) = Ok (false, "Daily limit reached (0/0)")
  /\ fst (can_send zero_daily_env garbled_world) <> Ok (true, "OK").
Proof.
  split; [reflexivity|]. split; [exact I|]. split; [reflexivity|].
  split; [vm_compute; reflexivity|]. split; [vm_compute; reflexivity|].
  split; [vm_compute; reflexivity|]. vm_compute. discriminate.
Qed.

(** ** The dispatcher *)

Lemma can_send_verdict (env : Env) (w : World) :
  can_send env w = (Ok (verdict env w), gate_world w).
Proof. apply can_send_run. Qed.

Lemma check_rate_limit_run (env : Env) (w : World) :
  check_rate_limit env w =
  (if fst (verdict env w) then Ok tt
   else Raise (RateLimitError ("Rate limit exceeded: " ++ snd (verdict env w))),
   gate_world w).
Proof.
  unfold check_rate_limit, bind. rewrite can_send_verdict.
  destruct (verdict env w) as [[|] reason]; reflexivity.
Qed.

Lemma untouched_refl (w : World) : untouched w w.
Proof. repeat split. Qed.

Lemma untouched_gate (w : World) : untouched w (gate_world w).
Proof.
  unfold untouched, gate_world. rewrite ledger_set_ticks, ledger_loaded_world.
  unfold loaded_world. destruct (_loaded (rate_limiter w)); repeat split.
Qed.

Lemma gate_world_trace (w : World) :
  trace (gate_world w) = trace w /\ smtp_sessions (gate_world w) = smtp_sessions w.
Proof.
  unfold gate_world, loaded_world. destruct (_loaded (rate_limiter w)); split; reflexivity.
Qed.

Lemma dict_get_set_same (k : string) (v : Recruiter) (d : list (string * Recruiter)) :
  dict_get k (dict_set k v d) = Some v.
Proof.
  induction d as [|[k' v'] rest IH]; simpl.
  - now rewrite String.eqb_refl.
  - destruct (String.eqb k' k) eqn:E; simpl.
    + now rewrite String.eqb_refl.
    + now rewrite E.
Qed.

(** [mark_sent] touches the clock and the contact store only; when it
    returns, the contact under the key is marked; what it raises is not an
    [smtplib] exception. *)
Lemma mark_sent_cases (env : Env) (rid : string) (w : World) :
  let w' := snd (mark_sent env rid w) in
  trace w' = trace w /\ rate_limiter w' = rate_limiter w /\
  sent_log w' = sent_log w /\ log_writes w' = log_writes w /\
  smtp_sessions w' = smtp_sessions w /\
  ((exists r', fst (mark_sent env rid w) = Ok r' /\
               marked_sent rid (clock env (ticks w)) w')
   \/ exists e, fst (mark_sent env rid w) = Raise e /\ is_smtp_exn e = false).
Proof.
  unfold mark_sent, update_status_and_time, get_by_id, manager_ensure_loaded,
    load, load_rows, save, marked_sent, bind, now, gets, modify, raise, ret.
  simpl.
  destruct (_recruiters_loaded (recruiter_manager w)) eqn:El; simpl.
  - rewrite El. simpl.
    destruct (dict_get rid (_recruiters (recruiter_manager w))) as [r0|] eqn:Eg; simpl.
    + destruct (store_save_fate env (store_saves w)) as [|m|m|rest m]; simpl.
      * repeat split. left. eexists. split; [reflexivity|].
        exists r0. apply dict_get_set_same.
      * repeat split; right; eauto.
      * repeat split; right; eauto.
      * repeat split; right; eauto.
    + repeat split; right; eauto.
  - destruct (store w) as [|rows|rows msg] eqn:Es; simpl.
    + repeat split; right; eauto.
    + match goal with
      | |- context [dict_get rid ?d] => destruct (dict_get rid d) as [r0|] eqn:Eg
      end; simpl.
      * destruct (store_save_fate env (store_saves w)) as [|m|m|rest m]; simpl.
        -- repeat split. left. eexists. split; [reflexivity|].
           exists r0. apply dict_get_set_same.
        -- repeat split; right; eauto.
        -- repeat split; right; eauto.
        -- repeat split; right; eauto.
      * repeat split; right; eauto.
    + repeat split; right; eauto.
Qed.

(** What [record_sent] leaves behind, whatever the write did; a write that
    succeeded leaves the file equal to the ledger. *)
Lemma record_sent_ledger (env : Env) (rid em tpl subj : string) (w : World) :
  let w' := snd (record_sent env rid em tpl subj w) in
  ledger w' = (ledger w ++ [new_record (clock env (ticks w)) rid em tpl subj])%list /\
  (fst (record_sent env rid em tpl subj w) = Ok tt ->
   sent_log w' = LogObject (Some (ledger w'))).
Proof.
  rewrite record_sent_run.
  destruct (appended_ledger env rid em tpl subj w) as [Hl He].
  destruct (log_write_fate env (log_writes w)); simpl.
  - rewrite ledger_set_sent_log by exact Hl. rewrite He. split; reflexivity.
  - rewrite ledger_loaded by exact Hl. split; [exact He | discriminate].
  - rewrite ledger_set_sent_log by exact Hl. split; [exact He | discriminate].
Qed.
Lemma classify_other (r : Recruiter) (e : exn) :
  is_smtp_exn e = false ->
  classify r e = EmailError ("Failed to send email: " ++ str_exn e).
Proof. destruct e; simpl; intros H; try discriminate; reflexivity. Qed.

Lemma smtp_session_run (env : Env) (msg : Message) (w : World) :
  smtp_session env msg w =
  (match smtp env (smtp_sessions w) msg with
   | None => Ok tt
   | Some e => Raise e
   end,
   emit (EvSmtp msg (smtp env (smtp_sessions w) msg))
        (set_smtp_sessions (S (smtp_sessions w)) w)).
Proof.
  unfold smtp_session, bind, gets, modify, raise, ret. simpl.
  destruct (smtp env (smtp_sessions w) msg); reflexivity.
Qed.

Lemma ledger_ext (w1 w2 : World) :
  rate_limiter w1 = rate_limiter w2 -> sent_log w1 = sent_log w2 ->
  ledger w1 = ledger w2.
Proof. unfold ledger. now intros -> ->. Qed.

(** [record_sent] touches the clock, the limiter and the ledger file only. *)
Lemma record_sent_frame (env : Env) (rid em tpl subj : string) (w : World) :
  let w' := snd (record_sent env rid em tpl subj w) in
  trace w' = trace w /\ recruiter_manager w' = recruiter_manager w /\
  store w' = store w /\ store_saves w' = store_saves w /\
  smtp_sessions w' = smtp_sessions w /\ ticks w' = S (ticks w).
Proof.
  rewrite record_sent_run. unfold appended, loaded_world.
  destruct (log_write_fate env (log_writes w));
    destruct (_loaded (rate_limiter w)); repeat split.
Qed.

Lemma session_trace (ev : event) (n : nat) (w : World) :
  trace (emit ev (set_smtp_sessions n w)) = (trace w ++ [ev])%list.
Proof. reflexivity. Qed.

Lemma untouched_session (ev : event) (n : nat) (w w0 : World) :
  untouched w w0 -> untouched w (emit ev (set_smtp_sessions n w0)).
Proof. intros H. exact H. Qed.

(** The three ways a real (not dry-run) [send_email] can go: it stops
    before any SMTP session; the session fails; the server takes the
    message.  The ledger and the contact store are touched in the third
    case only. *)
Lemma send_email_cases (env : Env) (r : Recruiter) (tpl : string)
    (cv : option (list (string * string))) (ar : option bool) (w : World) :
  let run := send_email env r tpl cv ar false w in
  let w' := snd run in
  (trace w' = trace w /\ untouched w w' /\ exists e, fst run = Raise e)
  \/ (exists subj body e,
        render env tpl r cv = Ok (subj, body) /\
        trace w' = (trace w ++ [EvSmtp (outgoing env r ar subj body) (Some e)])%list /\
        fst run = Raise (classify r e) /\
        untouched w w')
  \/ (exists subj body,
        render env tpl r cv = Ok (subj, body) /\
        trace w' = (trace w ++ [EvSmtp (outgoing env r ar subj body) None])%list /\
        ((fst run = Ok (true, "Email sent successfully to " ++ r_email r) /\
          ledger w' = (ledger w ++ [new_record (clock env (2 + ticks w)) (id r)
                                      (r_email r) tpl subj])%list /\
          sent_log w' = LogObject (Some (ledger w')) /\
          marked_sent (id r) (clock env (3 + ticks w)) w')
         \/ (exists e, fst run = Raise (classify r e) /\
                       contact_store_untouched w w')
         \/ (exists e, fst run = Raise (classify r e) /\ is_smtp_exn e = false /\
                       ledger w' = (ledger w ++ [new_record (clock env (2 + ticks w)) (id r)
                                                   (r_email r) tpl subj])%list /\
                       sent_log w' = LogObject (Some (ledger w'))))).
Proof.
  intros run w'. subst w' run.
  destruct (gate_world_trace w) as [Hgt Hgs].
  pose proof (untouched_gate w) as Hgu.
  unfold send_email, bind. rewrite check_rate_limit_run.
  destruct (fst (verdict env w)).
  2:{ left. simpl. split; [exact Hgt|]. split; [exact Hgu|]. eauto. }
  unfold render_template.
  destruct (render env tpl r cv) as [[subj body]|e] eqn:Er.
  2:{ left. simpl. split; [exact Hgt|]. split; [exact Hgu|]. eauto. }
  destruct ((gmail_email (config env) =? "")%string
            || (gmail_app_password (config env) =? "")%string).
  { left. unfold raise. simpl. split; [exact Hgt|]. split; [exact Hgu|]. eauto. }
  right. unfold try_except, bind. rewrite smtp_session_run.
  fold (outgoing env r ar subj body). rewrite Hgs.
  set (msg := outgoing env r ar subj body).
  set (g1 := emit (EvSmtp msg (smtp env (smtp_sessions w) msg))
                  (set_smtp_sessions (S (smtp_sessions w)) (gate_world w))).
  assert (Hg1t : trace g1 = (trace w ++ [EvSmtp msg (smtp env (smtp_sessions w) msg)])%list)
    by (unfold g1; rewrite session_trace, Hgt; reflexivity).
  assert (Hg1u : untouched w g1) by (unfold g1; now apply untouched_session).
  assert (Hg1k : ticks g1 = (2 + ticks w)%nat) by reflexivity.
  clearbody g1.
  destruct (smtp env (smtp_sessions w) msg) as [e|] eqn:Esmtp.
  - left. exists subj, body, e. split; [reflexivity|].
    destruct e; simpl; (split; [exact Hg1t|]); (split; [reflexivity|exact Hg1u]).
  - right. exists subj, body. split; [reflexivity|].
    pose proof (record_sent_frame env (id r) (r_email r) tpl subj g1) as Hfr.
    pose proof (record_sent_ledger env (id r) (r_email r) tpl subj g1) as Hrs.
    cbv zeta in Hfr, Hrs.
    destruct (record_sent env (id r) (r_email r) tpl subj g1) as [[[]|e2] g2] eqn:Erec;
      simpl in Hfr, Hrs.
    + destruct Hfr as (Ht & _ & _ & _ & _ & Hk).
      destruct Hrs as (Hled & Hfile).
      pose proof (mark_sent_cases env (id r) g2) as Hms. cbv zeta in Hms.
      destruct (mark_sent env (id r) g2) as [[r'|e3] g3] eqn:Emark; simpl in Hms.
      * destruct Hms as (Ht3 & Hrl & Hsl & _ & _ & [[r'' [_ Hmk]]|[e [He _]]]);
          [|discriminate].
        simpl. split; [rewrite Ht3, Ht; exact Hg1t|]. left.
        assert (Hl3 : ledger g3 = ledger g2) by (apply ledger_ext; assumption).
        split; [reflexivity|]. split.
        { rewrite Hl3, Hled. destruct Hg1u as (Hl1 & _). now rewrite Hl1, Hg1k. }
        split.
        { rewrite Hl3, Hsl. apply Hfile. reflexivity. }
        rewrite Hk, Hg1k in Hmk. exact Hmk.
      * destruct Hms as (Ht3 & Hrl & Hsl & _ & _ & [[r'' [He _]]|[e [He Hns]]]);
          [discriminate|].
        injection He as <-.
        assert (Hl3 : ledger g3 = ledger g2) by (apply ledger_ext; assumption).
        split.
        { destruct e3; simpl in *; try discriminate; rewrite Ht3, Ht; exact Hg1t. }
        right. right. exists e3.
        split; [destruct e3; simpl in *; try discriminate; reflexivity|].
        split; [exact Hns|].
        split.
        { destruct e3; simpl in *; try discriminate;
            rewrite Hl3, Hled; destruct Hg1u as (Hl1 & _); now rewrite Hl1, Hg1k. }
        destruct e3; simpl in *; try discriminate;
          rewrite Hl3, Hsl; apply Hfile; reflexivity.
    + destruct Hfr as (Ht & Hrm & Hst & Hss & _).
      destruct Hg1u as (_ & _ & _ & Hrm1 & Hst1 & Hss1).
      split; [destruct e2; simpl; rewrite Ht; exact Hg1t|].
      right. left. exists e2.
      split; [destruct e2; reflexivity|].
      unfold contact_store_untouched.
      destruct e2; simpl; rewrite Hrm, Hst, Hss; auto.
Qed.

Lemma app_snoc_neq {A : Type} (l : list A) (x : A) : l <> (l ++ [x])%list.
Proof.
  intros H. apply (f_equal (@List.length A)) in H.
  rewrite length_app in H. simpl in H. lia.
Qed.

(** C2, as the code has it.  For every real (not dry-run) [send_email]:
    when the SMTP session fails the call fails with the kind the failure is
    classified into ([SMTPConnectionError] for authentication,
    [EmailError] for a refused recipient or any other error), no ledger
    record is written and the contact store is exactly as before; the
    ledger or the contact store changes only when the server has taken the
    message; the contact store is touched only after the ledger record has
    been appended and written to the file; and a call that returns has
    transmitted the message, appended exactly one record to the ledger in
    memory and on disk, and marked the contact as sent with its
    [last_contacted] set. *)
Theorem send_email_effects (env : Env) (r : Recruiter) (tpl : string)
    (cv : option (list (string * string))) (ar : option bool) (w : World) :
  let run := send_email env r tpl cv ar false w in
  let w' := snd run in
  (forall msg e,
     trace w' = (trace w ++ [EvSmtp msg (Some e)])%list ->
     fst run = Raise (classify r e) /\ untouched w w')
  /\ (~ untouched w w' ->
      exists msg, trace w' = (trace w ++ [EvSmtp msg None])%list)
  /\ (forall b m,
        fst run = Ok (b, m) ->
        b = true /\ m = "Email sent successfully to " ++ r_email r /\
        exists subj body,
          render env tpl r cv = Ok (subj, body) /\
          trace w' = (trace w ++ [EvSmtp (outgoing env r ar subj body) None])%list /\
          ledger w' = (ledger w ++ [new_record (clock env (2 + ticks w)) (id r)
                                      (r_email r) tpl subj])%list /\
          sent_log w' = LogObject (Some (ledger w')) /\
          marked_sent (id r) (clock env (3 + ticks w)) w')
  /\ (~ contact_store_untouched w w' ->
      exists subj body,
        render env tpl r cv = Ok (subj, body) /\
        trace w' = (trace w ++ [EvSmtp (outgoing env r ar subj body) None])%list /\
        ledger w' = (ledger w ++ [new_record (clock env (2 + ticks w)) (id r)
                                    (r_email r) tpl subj])%list /\
        sent_log w' = LogObject (Some (ledger w'))).
Proof.
  intros run w'. subst w' run.
  pose proof (send_email_cases env r tpl cv ar w) as Hcases. cbv zeta in Hcases.
  assert (Hcs : forall w0, untouched w w0 -> contact_store_untouched w w0)
    by (intros w0 (_ & _ & _ & H1 & H2 & H3); repeat split; assumption).
  destruct Hcases
    as [(Ht & Hu & e0 & He0)
       |[(subj & body & e0 & Hr & Ht & He0 & Hu)
        |(subj & body & Hr & Ht &
          [(Hok & Hl & Hf & Hm)
          |[(e0 & He0 & Hc)|(e0 & He0 & _ & Hl & Hf)]])]].
  - split; [|split; [|split]].
    + intros msg e H. rewrite Ht in H. now apply app_snoc_neq in H.
    + intros H. now elim H.
    + intros b m H. rewrite He0 in H. discriminate.
    + intros H. elim H. now apply Hcs.
  - split; [|split; [|split]].
    + intros msg e H. rewrite Ht in H. apply app_inv_head in H.
      injection H as _ <-. now split.
    + intros H. now elim H.
    + intros b m H. rewrite He0 in H. discriminate.
    + intros H. elim H. now apply Hcs.
  - split; [|split; [|split]].
    + intros msg e H. rewrite Ht in H. apply app_inv_head in H. discriminate.
    + intros _. eauto.
    + intros b m H. rewrite Hok in H. injection H as <- <-.
      split; [reflexivity|]. split; [reflexivity|].
      exists subj, body. auto.
    + intros _. exists subj, body. auto.
  - split; [|split; [|split]].
    + intros msg e H. rewrite Ht in H. apply app_inv_head in H. discriminate.
    + intros _. eauto.
    + intros b m H. rewrite He0 in H. discriminate.
    + intros H. now elim H.
  - split; [|split; [|split]].
    + intros msg e H. rewrite Ht in H. apply app_inv_head in H. discriminate.
    + intros _. eauto.
    + intros b m H. rewrite He0 in H. discriminate.
    + intros _. exists subj, body. auto.
Qed.

(** C2 as stated fails: the three effects do not always come together.  On
    a disk that refuses the write, the message is transmitted and the
    record is appended in memory, yet the call fails, nothing is written to
    the ledger file and the contact is not marked. *)
Lemma send_email_transmits_without_marking :
  let ada := sample_recruiter "1" "a@b.com" in
  let run := send_email full_disk_env ada "default" None None false one_contact_world in
  trace (snd run)
  = [EvSmtp {| msg_from := "me@example.com"; msg_to := "a@b.com";
               msg_subject := "Application at Initech"; msg_body := "Hello Ada";
               msg_attachment := false |} None]
  /\ fst run = Raise (EmailError "Failed to send email: No space left on device")
  /\ _sent_emails (rate_limiter (snd run)) = [record_at noon]
  /\ sent_log (snd run) = LogAbsent
  /\ recruiter_manager (snd run) = recruiter_manager one_contact_world
  /\ store (snd run) = StoreRows [ada]
  /\ ~ marked_sent "1" noon (snd run).
Proof.
  cbv zeta. repeat split; try (vm_compute; reflexivity).
  intros [r0 H]. vm_compute in H. discriminate.
Qed.

(** ** Dry run *)

Lemma append_assoc (a b c : string) : ((a ++ b) ++ c)%string = (a ++ (b ++ c))%string.
Proof. induction a as [|x a IH]; simpl; [reflexivity | now rewrite IH]. Qed.

Lemma rstrip_snoc_nonspace (s : string) (c : ascii) :
  Py.isspace c = false ->
  Py.rstrip (s ++ String c EmptyString) = (s ++ String c EmptyString)%string.
Proof.
  intros Hc. induction s as [|x s IH]; simpl.
  - now rewrite Hc.
  - rewrite IH. destruct s; reflexivity.
Qed.

Lemma rstrip_snoc_space (s : string) (c : ascii) :
  Py.isspace c = true -> Py.rstrip (s ++ String c EmptyString) = Py.rstrip s.
Proof.
  intros Hc. induction s as [|x s IH]; simpl.
  - now rewrite Hc.
  - now rewrite IH.
Qed.

Lemma strip_framed (a b : ascii) (q : string) :
  Py.isspace a = false -> Py.isspace b = false ->
  Py.strip (nl ++ (String a q ++ String b EmptyString) ++ nl)
  = (String a q ++ String b EmptyString)%string.
Proof.
  intros Ha Hb. unfold Py.strip, nl.
  cbn [append Py.lstrip].
  change (Py.isspace (ascii_of_nat 10)) with true. cbn iota.
  rewrite Ha.
  change (String a ((q ++ String b "") ++ String (ascii_of_nat 10) ""))
    with ((String a q ++ String b "") ++ String (ascii_of_nat 10) "").
  rewrite rstrip_snoc_space by reflexivity.
  now apply rstrip_snoc_nonspace.
Qed.

Lemma preview_text_framed (em subj body : string) :
  exists q, preview_text em subj body
            = (String "="%char q ++ String "="%char EmptyString)%string.
Proof.
  exists (Py.repeat_char "="%char 59 ++ nl ++ "To: " ++ em ++ nl ++ "Subject: " ++ subj ++ nl
    ++ separator ++ nl ++ nl ++ body ++ nl ++ nl ++ Py.repeat_char "="%char 59).
  unfold preview_text.
  generalize "To: ", "Subject: ". intros lit1 lit2.
  change separator with (String "="%char (Py.repeat_char "="%char 59)) at 1.
  change separator with (Py.repeat_char "="%char 59 ++ String "="%char EmptyString) at 2.
  cbn [append]. f_equal.
  repeat rewrite append_assoc. reflexivity.
Qed.

Lemma strip_preview (em subj body : string) :
  Py.strip (nl ++ separator ++ nl ++ "To: " ++ em ++ nl ++ "Subject: " ++ subj ++ nl
               ++ separator ++ nl ++ nl ++ body ++ nl ++ nl ++ separator ++ nl)
  = preview_text em subj body.
Proof.
  destruct (preview_text_framed em subj body) as [q Hq].
  transitivity (Py.strip (nl ++ preview_text em subj body ++ nl)).
  - f_equal. unfold preview_text.
    generalize "To: ", "Subject: ". intros lit1 lit2.
    repeat rewrite append_assoc. reflexivity.
  - rewrite Hq. apply strip_framed; reflexivity.
Qed.

Lemma preview_contains (em subj body : string) :
  Py.contains em (preview_text em subj body) /\
  Py.contains subj (preview_text em subj body).
Proof.
  unfold Py.contains, preview_text.
  generalize "To: ", "Subject: ". intros lit1 lit2. split.
  - exists (separator ++ nl ++ lit1)%string. eexists.
    repeat rewrite append_assoc. reflexivity.
  - exists (separator ++ nl ++ lit1 ++ em ++ nl ++ lit2)%string. eexists.
    repeat rewrite append_assoc. reflexivity.
Qed.

Lemma contains_prefixed (needle pre hay : string) :
  Py.contains needle hay -> Py.contains needle (pre ++ hay).
Proof.
  intros (a & b & ->). exists (pre ++ a)%string, b. now rewrite append_assoc.
Qed.

(** A dry run stops after rendering: whatever happens, it opens no SMTP
    session and touches neither ledger nor contact store. *)
Lemma send_email_dry_run (env : Env) (r : Recruiter) (tpl : string)
    (cv : option (list (string * string))) (ar : option bool) (w : World) :
  send_email env r tpl cv ar true w =
  (if fst (verdict env w) then
     match render env tpl r cv with
     | Ok (subj, body) =>
         Ok (true, "DRY RUN - Would send:" ++ nl ++ preview_text (r_email r) subj body)
     | Raise e => Raise e
     end
   else Raise (RateLimitError ("Rate limit exceeded: " ++ snd (verdict env w))),
   gate_world w).
Proof.
  unfold send_email, bind. rewrite check_rate_limit_run.
  destruct (fst (verdict env w)); [|reflexivity].
  unfold render_preview, render_template, bind.
  destruct (render env tpl r cv) as [[subj body]|e]; [|reflexivity].
  unfold ret. rewrite strip_preview. reflexivity.
Qed.

(** C6.  A dry run that passes the rate gate and renders returns success
    with a preview that contains the recipient's address and the rendered
    subject; it opens no SMTP session, writes no ledger record (the ledger
    and its file are as before, so the count is unchanged) and leaves the
    contact store as it was.  Whatever its outcome, a dry run transmits
    nothing and touches nothing, and when it fails the failure is the rate
    gate's or the renderer's, never one of the transport. *)
Theorem dry_run_previews_only (env : Env) (r : Recruiter) (tpl : string)
    (cv : option (list (string * string))) (ar : option bool) (w : World) :
  let run := send_email env r tpl cv ar true w in
  (forall subj body,
     fst (check_rate_limit env w) = Ok tt ->
     render env tpl r cv = Ok (subj, body) ->
     exists preview,
       fst run = Ok (true, "DRY RUN - Would send:" ++ nl ++ preview) /\
       Py.contains (r_email r) preview /\ Py.contains subj preview /\
       Py.contains (r_email r) ("DRY RUN - Would send:" ++ nl ++ preview) /\
       Py.contains subj ("DRY RUN - Would send:" ++ nl ++ preview))
  /\ trace (snd run) = trace w
  /\ smtp_sessions (snd run) = smtp_sessions w
  /\ untouched w (snd run)
  /\ Py.len (ledger (snd run)) = Py.len (ledger w)
  /\ match fst run with
     | Ok (b, _) => b = true
     | Raise e => (exists m, e = RateLimitError m) \/ render env tpl r cv = Raise e
     end.
Proof.
  intros run. subst run. rewrite send_email_dry_run.
  destruct (gate_world_trace w) as [Ht Hs].
  pose proof (untouched_gate w) as Hu.
  split; [|split; [exact Ht|split; [exact Hs|split; [exact Hu|split]]]].
  - intros subj body Hgate Hr. rewrite check_rate_limit_run in Hgate.
    simpl in Hgate. rewrite Hr.
    destruct (fst (verdict env w)); [|discriminate].
    exists (preview_text (r_email r) subj body).
    destruct (preview_contains (r_email r) subj body) as [H1 H2].
    split; [reflexivity|]. split; [exact H1|]. split; [exact H2|].
    split; rewrite <- append_assoc; now apply contains_prefixed.
  - destruct Hu as [Hl _]. simpl. now rewrite Hl.
  - simpl. destruct (fst (verdict env w)).
    + destruct (render env tpl r cv) as [[subj body]|e]; [reflexivity | now right].
    + left. eauto.
Qed.

(** ** The bulk loop *)

(** One iteration, in full: the observer is notified, the governor is
    asked, and the contact is either skipped or dispatched; a dispatch is
    followed by the pause unless this is a dry run or the last contact. *)
Lemma loop_body_run (env : Env) (tpl : string) (cv : option (list (string * string)))
    (dry cb : bool) (n i : Z) (r : Recruiter) (res : Results) (w : World) :
  let wp := notified cb n i r w in
  loop_body env tpl cv dry cb n i r res w =
  if fst (verdict env wp) then
    let sent_run := send_email env r tpl cv None dry (gate_world wp) in
    (Ok match fst sent_run with
        | Ok (true, _) => add_sent res
        | Ok (false, message) =>
            add_failed {| err_email := r_email r; err_error := message |} res
        | Raise e =>
            add_failed {| err_email := r_email r; err_error := str_exn e |} res
        end,
     if negb dry && (i <? n - 1) && (delay env >? 0)
     then emit (EvSleep (delay env)) (snd sent_run)
     else snd sent_run)
  else
    (Ok (add_skipped {| err_email := r_email r;
                        err_error := "Rate limit: " ++ snd (verdict env wp) |} res),
     gate_world wp).
Proof.
  intros wp. unfold loop_body, bind.
  assert (E : (if cb then modify (emit (EvProgress (i + 1) n r)) else ret tt) w
              = (Ok tt, wp)) by (unfold wp, notified; destruct cb; reflexivity).
  rewrite E, can_send_verdict.
  destruct (verdict env wp) as [[|] reason]; [|reflexivity].
  cbn [fst snd negb]. unfold try_except, bind.
  destruct (send_email env r tpl cv None dry (gate_world wp)) as [[[[|] m]|e] w2];
    cbn [fst snd]; unfold ret, wait_for_delay, modify;
    destruct (negb dry); destruct (i <? n - 1); destruct (delay env >? 0);
    reflexivity.
Qed.

Lemma send_email_trace (env : Env) (r : Recruiter) (tpl : string)
    (cv : option (list (string * string))) (ar : option bool) (dry : bool) (w : World) :
  exists evs,
    trace (snd (send_email env r tpl cv ar dry w)) = (trace w ++ evs)%list /\
    Forall is_smtp_event evs.
Proof.
  destruct dry.
  - rewrite send_email_dry_run. exists []. cbn [snd].
    destruct (gate_world_trace w) as [Ht _]. rewrite Ht, app_nil_r. now split.
  - pose proof (send_email_cases env r tpl cv ar w) as H. cbv zeta in H.
    destruct H as [(Ht & _)|[(subj & body & e & _ & Ht & _)|(subj & body & _ & Ht & _)]].
    + exists []. rewrite Ht, app_nil_r. now split.
    + eexists. split; [exact Ht|]. repeat constructor.
    + eexists. split; [exact Ht|]. repeat constructor.
Qed.

Lemma sleeps_app (a b : list event) : sleeps (a ++ b) = (sleeps a ++ sleeps b)%list.
Proof. apply flat_map_app. Qed.

Lemma progress_events_app (a b : list event) :
  progress_events (a ++ b) = (progress_events a ++ progress_events b)%list.
Proof. apply filter_app. Qed.

Lemma smtp_events_silent (evs : list event) :
  Forall is_smtp_event evs -> sleeps evs = [] /\ progress_events evs = [].
Proof.
  induction 1 as [|ev evs Hev _ [IH1 IH2]]; [now split|].
  destruct ev; try contradiction. simpl. now split.
Qed.

Lemma gate_world_notified_trace (cb : bool) (n i : Z) (r : Recruiter) (w : World) :
  trace (gate_world (notified cb n i r w))
  = (trace w ++ (if cb then [EvProgress (i + 1) n r] else []))%list.
Proof.
  destruct (gate_world_trace (notified cb n i r w)) as [Ht _]. rewrite Ht.
  unfold notified. destruct cb; simpl; [reflexivity | now rewrite app_nil_r].
Qed.

(** The events of one iteration: the notification, then at most one SMTP
    session, then at most one pause. *)
Lemma loop_body_trace (env : Env) (tpl : string) (cv : option (list (string * string)))
    (dry cb : bool) (n i : Z) (r : Recruiter) (res : Results) (w : World) :
  exists evs,
    Forall is_smtp_event evs /\
    trace (snd (loop_body env tpl cv dry cb n i r res w))
    = (trace w ++ (if cb then [EvProgress (i + 1) n r] else [])
         ++ evs
         ++ (if fst (verdict env (notified cb n i r w)) && negb dry
                && (i <? n - 1) && (delay env >? 0)
             then [EvSleep (delay env)] else []))%list.
Proof.
  rewrite loop_body_run. cbv zeta.
  pose proof (gate_world_notified_trace cb n i r w) as Hg.
  destruct (fst (verdict env (notified cb n i r w))).
  - destruct (send_email_trace env r tpl cv None dry (gate_world (notified cb n i r w)))
      as (evs & Ht & Hevs).
    exists evs. split; [exact Hevs|]. cbn [snd andb].
    destruct (negb dry && (i <? n - 1) && (delay env >? 0)).
    + cbn [trace emit]. rewrite Ht, Hg. now rewrite <- !app_assoc.
    + rewrite Ht, Hg. now rewrite !app_nil_r, <- !app_assoc.
  - exists []. split; [constructor|]. cbn [snd andb]. rewrite Hg.
    now rewrite !app_nil_r.
Qed.

Lemma len_cons {A : Type} (x : A) (l : list A) : Py.len (x :: l) = 1 + Py.len l.
Proof. unfold Py.len. cbn [List.length]. lia. Qed.

Lemma len_nonneg {A : Type} (l : list A) : 0 <= Py.len l.
Proof. unfold Py.len. lia. Qed.

Lemma len_app {A : Type} (l1 l2 : list A) : Py.len (l1 ++ l2) = Py.len l1 + Py.len l2.
Proof. unfold Py.len. rewrite length_app. lia. Qed.

(** What one iteration does to the summary and to the trace.  It always
    completes; it moves exactly one counter; it pauses only after a
    dispatch. *)
Lemma loop_body_step (env : Env) (tpl : string) (cv : option (list (string * string)))
    (dry cb : bool) (n i : Z) (r : Recruiter) (res : Results) (w : World) :
  exists res1 w1,
    loop_body env tpl cv dry cb n i r res w = (Ok res1, w1) /\
    total res1 = total res /\
    (if fst (verdict env (notified cb n i r w))
     then skipped res1 = skipped res /\
          ((sent res1 = sent res + 1 /\ failed res1 = failed res) \/
           (sent res1 = sent res /\ failed res1 = failed res + 1))
     else skipped res1 = skipped res + 1 /\
          sent res1 = sent res /\ failed res1 = failed res) /\
    sleeps (trace w1)
    = (sleeps (trace w)
         ++ (if fst (verdict env (notified cb n i r w)) && negb dry
                && (i <? n - 1) && (delay env >? 0)
             then [delay env] else []))%list /\
    progress_events (trace w1)
    = (progress_events (trace w)
         ++ (if cb then [EvProgress (i + 1) n r] else []))%list.
Proof.
  destruct (loop_body_trace env tpl cv dry cb n i r res w) as (evs & Hevs & Ht).
  destruct (smtp_events_silent evs Hevs) as [Hs Hp].
  destruct (loop_body env tpl cv dry cb n i r res w) as [r1 w1] eqn:Erun.
  pose proof (loop_body_run env tpl cv dry cb n i r res w) as Hrun.
  cbv zeta in Hrun. rewrite Erun in Hrun. cbn [snd] in Ht.
  assert (Htr : sleeps (trace w1)
                = (sleeps (trace w)
                     ++ (if fst (verdict env (notified cb n i r w)) && negb dry
                            && (i <? n - 1) && (delay env >? 0)
                         then [delay env] else []))%list
                /\ progress_events (trace w1)
                   = (progress_events (trace w)
                        ++ (if cb then [EvProgress (i + 1) n r] else []))%list).
  { rewrite Ht, !sleeps_app, !progress_events_app, Hs, Hp. split.
    - destruct cb; destruct (_ && _ && _ && _); reflexivity.
    - destruct cb; destruct (_ && _ && _ && _); cbn; now rewrite ?app_nil_r. }
  destruct Htr as [Hsl Hpr].
  destruct (fst (verdict env (notified cb n i r w))).
  - injection Hrun as Hr1 _. eexists. exists w1. split; [rewrite Hr1; reflexivity|].
    destruct (fst (send_email env r tpl cv None dry (gate_world (notified cb n i r w))))
      as [[[|] m]|e]; cbn; repeat split; auto.
  - injection Hrun as Hr1 _. eexists. exists w1. split; [rewrite Hr1; reflexivity|].
    cbn. repeat split; auto.
Qed.

Lemma bulk_loop_cons (env : Env) (tpl : string) (cv : option (list (string * string)))
    (dry cb : bool) (n i : Z) (r : Recruiter) (rest : list Recruiter)
    (res res1 : Results) (w w1 : World) :
  loop_body env tpl cv dry cb n i r res w = (Ok res1, w1) ->
  bulk_loop env tpl cv dry cb n i (r :: rest) res w
  = bulk_loop env tpl cv dry cb n (i + 1) rest res1 w1.
Proof. intros H. cbn [bulk_loop]. unfold bind. now rewrite H. Qed.

(** The whole loop: it always completes, whatever happens to single
    contacts; the counters grow by the number of contacts walked; the
    observer, if any, is notified once per contact, in enumeration order. *)
Lemma bulk_loop_run (env : Env) (tpl : string) (cv : option (list (string * string)))
    (dry cb : bool) (n : Z) (l : list Recruiter) :
  forall (i : Z) (res : Results) (w : World),
  exists res1 w1,
    bulk_loop env tpl cv dry cb n i l res w = (Ok res1, w1) /\
    total res1 = total res /\
    sent res <= sent res1 /\ failed res <= failed res1 /\ skipped res <= skipped res1 /\
    sent res1 + failed res1 + skipped res1
    = sent res + failed res + skipped res + Py.len l /\
    progress_events (trace w1)
    = (progress_events (trace w) ++ (if cb then progress_from n i l else []))%list.
Proof.
  induction l as [|r rest IH]; intros i res w.
  - exists res, w. cbn [bulk_loop progress_from]. unfold ret, Py.len. cbn [List.length].
    repeat split; try lia. destruct cb; now rewrite app_nil_r.
  - destruct (loop_body_step env tpl cv dry cb n i r res w)
      as (res1 & w1 & Hrun & Htot & Hcnt & _ & Hpr).
    destruct (IH (i + 1) res1 w1) as (res2 & w2 & Hrun2 & Htot2 & H1 & H2 & H3 & Hsum & Hpr2).
    exists res2, w2. rewrite (bulk_loop_cons _ _ _ _ _ _ _ _ _ _ _ _ _ Hrun).
    split; [exact Hrun2|]. rewrite len_cons.
    assert (Hmove : sent res <= sent res1 /\ failed res <= failed res1 /\
                    skipped res <= skipped res1 /\
                    sent res1 + failed res1 + skipped res1
                    = sent res + failed res + skipped res + 1).
    { destruct (fst (verdict env (notified cb n i r w))); lia. }
    repeat split; try lia.
    rewrite Hpr2, Hpr, <- app_assoc. destruct cb; reflexivity.
Qed.

Lemma send_to_all_pending_run (env : Env) (tpl : option string)
    (cv : option (list (string * string))) (dry cb : bool) (w : World) :
  send_to_all_pending env tpl cv dry cb w =
  match get_pending w with
  | (Ok pending, w0) =>
      bulk_loop env
        match tpl with None => default_template (config env) | Some t => t end
        cv dry cb (Py.len pending) 0 pending
        {| total := Py.len pending; sent := 0; failed := 0; skipped := 0; errors := [] |}
        w0
  | (Raise e, w0) => (Raise e, w0)
  end.
Proof.
  unfold send_to_all_pending, bind.
  destruct (get_pending w) as [[pending|e] w0]; reflexivity.
Qed.


Lemma untouched_notified (cb : bool) (n i : Z) (r : Recruiter) (w : World) :
  untouched w (gate_world (notified cb n i r w)).
Proof.
  pose proof (untouched_gate (notified cb n i r w)) as H.
  unfold notified in *. destruct cb; exact H.
Qed.





(** * The theorems at work on the sample worlds *)

Lemma can_send_decision_witness :
  (hourly_limit default_env = 20 /\ 20 < daily_limit default_env /\
   Py.len (ledger (world_with_records 20 noon)) = 20 /\
   fst (can_send default_env (world_with_records 20 noon))
   = Ok (false, "Hourly limit reached (20/20)"))
  /\ (daily_limit five_per_day_env = 5 /\ hourly_limit five_per_day_env = 100 /\
      Py.len (ledger (world_with_records 5 noon)) = 5 /\
      fst (can_send five_per_day_env (world_with_records 5 noon))
      = Ok (false, "Daily limit reached (5/5)")).
Proof.
  split.
  - split; [reflexivity|]. split; [reflexivity|]. split; [reflexivity|].
    apply (proj1 (proj2 can_send_decision)) with (t := noon);
      try reflexivity.
    vm_compute. repeat constructor.
  - split; [reflexivity|]. split; [reflexivity|]. split; [reflexivity|].
    apply (proj2 (proj2 can_send_decision)) with (t := noon);
      try reflexivity.
    vm_compute. repeat constructor.
Defined.

Lemma get_wait_time_spec_witness :
  (fst (get_wait_time zero_daily_env garbled_world) = Ok 43200)
  /\ (in_range (ten_to_noon + hours 1) = true
      /\ fst (get_wait_time one_per_hour_env (world_with_records 1 ten_to_noon)) = Ok 3000
      /\ exists s, fst (get_wait_time one_per_hour_env (world_with_records 1 ten_to_noon))
                   = Ok s /\ 0 <= s <= 3600)
  /\ fst (get_wait_time default_env garbled_world) = Ok 0.
Proof.
  split; [|split].
  - destruct (get_wait_time_spec zero_daily_env garbled_world) as (H & _ & _).
    destruct H as [_ H]; [vm_compute; discriminate|].
    destruct (H noon eq_refl eq_refl) as [Hs _]. exact Hs.
  - split; [vm_compute; reflexivity|].
    destruct (get_wait_time_spec one_per_hour_env (world_with_records 1 ten_to_noon))
      as (_ & H & _).
    destruct H as (_ & _ & H & _);
      [vm_compute; reflexivity | vm_compute; discriminate |].
    destruct H as (H1 & _ & H3); [vm_compute; reflexivity|].
    split; [rewrite H1; vm_compute; reflexivity|].
    apply H3; [repeat constructor; vm_compute; discriminate | vm_compute; discriminate].
  - destruct (get_wait_time_spec default_env garbled_world) as (_ & _ & H).
    apply H; vm_compute; reflexivity.
Defined.

Lemma ledger_round_trip_witness :
  fst (reload (snd (record_all default_env two_sends
                      (fresh_world LogAbsent StoreAbsent))))
  = Ok [new_record noon "1" "a@b.com" "default" "Application at Initech";
        new_record noon "2" "c@d.com" "follow_up" "Following up"].
Proof.
  destruct ledger_round_trip as (_ & _ & H).
  destruct (H default_env two_sends (fresh_world LogAbsent StoreAbsent)) as [Hr _];
    [intros k Hk; reflexivity | reflexivity | reflexivity |].
  exact Hr.
Defined.

Lemma unparsable_log_loads_empty_witness :
  _loaded (rate_limiter garbled_world) = false
  /\ unparsable (sent_log garbled_world)
  /\ fst (get_emails_last_hour default_env garbled_world) = Ok 0
  /\ fst (get_emails_today default_env garbled_world) = Ok 0
  /\ fst (can_send default_env garbled_world) = Ok (true, "OK").
Proof.
  split; [reflexivity|]. split; [exact I|].
  destruct (unparsable_log_loads_empty default_env garbled_world eq_refl I)
    as (_ & _ & Hh & Ht & Hc).
  split; [exact Hh|]. split; [exact Ht|]. apply Hc; reflexivity.
Defined.

Lemma send_email_effects_witness :
  (fst (send_email refusing_env (sample_recruiter "2" "c@d.com") "default" None None
          false three_pending_world)
   = Raise (EmailError "Recipient refused: c@d.com")
   /\ untouched three_pending_world
        (snd (send_email refusing_env (sample_recruiter "2" "c@d.com") "default" None
                None false three_pending_world)))
  /\ marked_sent "1" noon
       (snd (send_email default_env (sample_recruiter "1" "a@b.com") "default" None
               None false one_contact_world))
  /\ (~ contact_store_untouched one_contact_world
          (snd (send_email default_env (sample_recruiter "1" "a@b.com") "default" None
                  None false one_contact_world))
      /\ sent_log (snd (send_email default_env (sample_recruiter "1" "a@b.com")
                          "default" None None false one_contact_world))
         = LogObject (Some [record_at noon])).
Proof.
  split; [|split].
  - destruct (send_email_effects refusing_env (sample_recruiter "2" "c@d.com")
                "default" None None three_pending_world) as (H & _ & _).
    apply (H {| msg_from := "me@example.com"; msg_to := "c@d.com";
                msg_subject := "Application at Initech"; msg_body := "Hello Ada";
                msg_attachment := false |}
             (SMTPRecipientsRefused "{'c@d.com': (550, b'5.1.1 user unknown')}")).
    vm_compute. reflexivity.
  - destruct (send_email_effects default_env (sample_recruiter "1" "a@b.com")
                "default" None None one_contact_world) as (_ & _ & H & _).
    destruct (H true "Email sent successfully to a@b.com")
      as (_ & _ & subj & body & _ & _ & _ & _ & Hm);
      [vm_compute; reflexivity|].
    exact Hm.
  - assert (Hc : ~ contact_store_untouched one_contact_world
                     (snd (send_email default_env (sample_recruiter "1" "a@b.com")
                             "default" None None false one_contact_world)))
      by (intros (_ & _ & H); vm_compute in H; discriminate).
    split; [exact Hc|].
    destruct (send_email_effects default_env (sample_recruiter "1" "a@b.com")
                "default" None None one_contact_world) as (_ & _ & _ & H).
    destruct (H Hc) as (subj & body & Hr & _ & Hl & Hf).
    vm_compute in Hr. injection Hr as <- <-.
    rewrite Hf, Hl. vm_compute. reflexivity.
Defined.

Lemma dry_run_previews_only_witness :
  exists preview,
    fst (send_email default_env (sample_recruiter "1" "a@b.com") "default" None None
           true one_contact_world)
    = Ok (true, "DRY RUN - Would send:" ++ nl ++ preview)
    /\ Py.contains "a@b.com" preview
    /\ Py.contains "Application at Initech" preview.
Proof.
  destruct (dry_run_previews_only default_env (sample_recruiter "1" "a@b.com")
              "default" None None one_contact_world) as (H & _).
  destruct (H "Application at Initech" "Hello Ada") as (preview & Hrun & He & Hs & _);
    [vm_compute; reflexivity | reflexivity |].
  exists preview. repeat split; assumption.
Defined.




(** * Further properties *)


(** ** Statistics *)

Lemma countSince_bounds (instant : datetime) (l : list SentRecord) :
  0 <= countSince instant l <= Py.len l.
Proof.
  unfold Py.len. induction l as [|r rest IH]; cbn [countSince List.length]; [lia|].
  rewrite Nat2Z.inj_succ. destruct (instant <? timestamp r); lia.
Qed.

Lemma countOnDate_bounds (day : Z) (l : list SentRecord) :
  0 <= countOnDate day l <= Py.len l.
Proof.
  unfold Py.len. induction l as [|r rest IH]; cbn [countOnDate List.length]; [lia|].
  rewrite Nat2Z.inj_succ. destruct (date (timestamp r) =? day); lia.
Qed.

Lemma gate_world_entries (w : World) :
  _sent_emails (rate_limiter (gate_world w)) = ledger w.
Proof. unfold gate_world. simpl. apply loaded_world_entries. Qed.

Lemma get_statistics_run (env : Env) (w : World) :
  get_statistics env w =
  (Ok {| Stats.emails_last_hour := countSince (clock env (ticks w) - hours 1) (ledger w);
         Stats.hourly_limit := hourly_limit env;
         Stats.hourly_remaining :=
           Py.max 0 (hourly_limit env
                     - countSince (clock env (ticks w) - hours 1) (ledger w));
         Stats.emails_today := countOnDate (date (clock env (S (ticks w)))) (ledger w);
         Stats.daily_limit := daily_limit env;
         Stats.daily_remaining :=
           Py.max 0 (daily_limit env
                     - countOnDate (date (clock env (S (ticks w)))) (ledger w));
         Stats.total_sent := Py.len (ledger w);
         Stats.delay_between_emails := delay env |},
   gate_world w).
Proof.
  unfold get_statistics, bind. rewrite ensure_loaded_run.
  rewrite get_emails_last_hour_run, get_emails_today_run.
  rewrite loaded_world_idem, loaded_world_set_ticks, loaded_world_idem.
  rewrite loaded_world_ticks. cbn [ticks set_ticks].
  rewrite ledger_set_ticks, !ledger_loaded_world.
  unfold gets, ret.
  change (set_ticks (S (S (ticks w))) (set_ticks (S (ticks w)) (loaded_world w)))
    with (gate_world w).
  rewrite gate_world_entries. reflexivity.
Qed.

(** X1.  On a ledger of the records [record_sent] writes (or a file that
    is absent, unreadable or not such a document, which loads as empty),
    the statistics are consistent with the ledger: the total is the number
    of records, both window counts lie between 0 and the total, and a
    remaining quota is never negative: it is the limit minus the count
    while the count is within the limit, and 0 beyond. *)
Theorem statistics_bounds (env : Env) (w : World) :
  exists st,
    fst (get_statistics env w) = Ok st /\
    Stats.total_sent st = Py.len (ledger w) /\
    0 <= Stats.emails_last_hour st <= Stats.total_sent st /\
    0 <= Stats.emails_today st <= Stats.total_sent st /\
    0 <= Stats.hourly_remaining st /\ 0 <= Stats.daily_remaining st /\
    Stats.hourly_remaining st
    = Z.max 0 (Stats.hourly_limit st - Stats.emails_last_hour st) /\
    Stats.daily_remaining st
    = Z.max 0 (Stats.daily_limit st - Stats.emails_today st) /\
    Stats.hourly_limit st = emails_per_hour (rate_limit (config env)) /\
    Stats.daily_limit st = max_emails_per_day (rate_limit (config env)).
Proof.
  rewrite get_statistics_run. eexists. split; [reflexivity|]. cbn -[hours].
  pose proof (countSince_bounds (clock env (ticks w) - hours 1) (ledger w)).
  pose proof (countOnDate_bounds (date (clock env (S (ticks w)))) (ledger w)).
  rewrite !Py_max_spec. repeat split; try reflexivity; lia.
Qed.

(** X2.  The statistics and the governor agree: asked in the same world,
    [can_send] allows a send exactly when both remaining quotas of
    [get_statistics] are positive. *)
Theorem statistics_agree_with_can_send (env : Env) (w : World) :
  exists st allowed reason,
    fst (get_statistics env w) = Ok st /\
    fst (can_send env w) = Ok (allowed, reason) /\
    (allowed = true <->
     0 < Stats.hourly_remaining st /\ 0 < Stats.daily_remaining st).
Proof.
  rewrite get_statistics_run, can_send_run. cbn [fst].
  set (h := countSince _ _). set (d := countOnDate _ _).
  unfold decision.
  destruct (d >=? daily_limit env) eqn:Ed; [|destruct (h >=? hourly_limit env) eqn:Eh];
    do 3 eexists; (split; [reflexivity|]); (split; [reflexivity|]);
    cbn -[hours]; rewrite !Py_max_spec; rewrite Z.geb_leb in *;
    repeat match goal with
           | H : (_ <=? _) = true |- _ => apply Z.leb_le in H
           | H : (_ <=? _) = false |- _ => apply Z.leb_gt in H
           end;
    split; try discriminate; try lia; intros; try reflexivity; lia.
Qed.

(** ** History *)

(** *** Comparing texts *)

Lemma string_compare_refl (s : string) : (s ?= s)%string = Eq.
Proof.
  induction s as [|c s IH]; cbn; [reflexivity|].
  unfold Ascii.compare. now rewrite N.compare_refl.
Qed.

Lemma string_compare_app_same (p a b : string) :
  (p ++ a ?= p ++ b)%string = (a ?= b)%string.
Proof.
  induction p as [|c p IH]; cbn; [reflexivity|].
  unfold Ascii.compare. now rewrite N.compare_refl.
Qed.

Lemma string_compare_app_lt (p q a b : string) :
  String.length p = String.length q ->
  (p ?= q)%string = Lt -> (p ++ a ?= q ++ b)%string = Lt.
Proof.
  revert q. induction p as [|c p IH]; intros [|d q]; cbn; try discriminate.
  intros Hl. destruct (c ?= d)%char; try discriminate; [|reflexivity].
  apply IH. now injection Hl.
Qed.

Lemma string_app_empty (s : string) : s ++ EmptyString = s.
Proof. induction s as [|c s IH]; cbn; [reflexivity|]. now rewrite IH. Qed.

Lemma zfill_length (w : nat) (n : Z) : String.length (zfill w n) = w.
Proof.
  revert n. induction w as [|k IH]; intros n; cbn [zfill String.length]; [reflexivity|].
  now rewrite IH.
Qed.

Lemma digit_compare (a b : Z) :
  0 <= a < 10 -> 0 <= b < 10 ->
  (ascii_of_N (48 + Z.to_N a) ?= ascii_of_N (48 + Z.to_N b))%char = (a ?= b).
Proof.
  intros Ha Hb. unfold Ascii.compare.
  rewrite !N_ascii_embedding by lia.
  destruct (N.compare_spec (48 + Z.to_N a) (48 + Z.to_N b));
    destruct (Z.compare_spec a b); try reflexivity; lia.
Qed.

Lemma zfill_lt (w : nat) (a b : Z) :
  0 <= a < b -> b < 10 ^ Z.of_nat w -> (zfill w a ?= zfill w b)%string = Lt.
Proof.
  revert a b. induction w as [|k IH]; intros a b Hab Hb.
  - cbn in Hb. lia.
  - cbn [zfill String.compare].
    assert (Hp : 0 < 10 ^ Z.of_nat k) by (apply Z.pow_pos_nonneg; lia).
    assert (Hs : 10 ^ Z.of_nat (S k) = 10 * 10 ^ Z.of_nat k).
    { rewrite Nat2Z.inj_succ, Z.pow_succ_r by lia. reflexivity. }
    rewrite Hs in Hb.
    pose proof (Z.div_mod a (10 ^ Z.of_nat k) ltac:(lia)) as Ea.
    pose proof (Z.div_mod b (10 ^ Z.of_nat k) ltac:(lia)) as Eb.
    pose proof (Z.mod_pos_bound a (10 ^ Z.of_nat k) Hp) as Ra.
    pose proof (Z.mod_pos_bound b (10 ^ Z.of_nat k) Hp) as Rb.
    set (p := 10 ^ Z.of_nat k) in *.
    set (qa := a / p) in *. set (qb := b / p) in *.
    set (ra := a mod p) in *. set (rb := b mod p) in *.
    assert (0 <= qa <= qb /\ qb < 10) as [Hq Hq10] by nia.
    rewrite digit_compare by lia.
    destruct (Z.compare_spec qa qb) as [E|L|G]; [|reflexivity|lia].
    apply IH; [|lia]. nia.
Qed.

Lemma field_lt (w : nat) (a b : Z) (s1 s2 : string) :
  0 <= a < b -> b < 10 ^ Z.of_nat w ->
  (zfill w a ++ s1 ?= zfill w b ++ s2)%string = Lt.
Proof.
  intros Hab Hb. apply string_compare_app_lt.
  - now rewrite !zfill_length.
  - now apply zfill_lt.
Qed.

Lemma ascii_compare_trans (a b c : ascii) (o : comparison) :
  (a ?= b)%char = o -> (b ?= c)%char = o -> (a ?= c)%char = o.
Proof.
  unfold Ascii.compare. intros H1 H2.
  destruct (N.compare_spec (N_of_ascii a) (N_of_ascii b));
    destruct (N.compare_spec (N_of_ascii b) (N_of_ascii c));
    destruct (N.compare_spec (N_of_ascii a) (N_of_ascii c));
    subst o; try reflexivity; try discriminate; lia.
Qed.

Lemma string_leb_trans (s1 s2 s3 : string) :
  String.leb s1 s2 = true -> String.leb s2 s3 = true -> String.leb s1 s3 = true.
Proof.
  unfold String.leb. revert s2 s3.
  induction s1 as [|a s1 IH]; intros [|b s2] [|c s3]; cbn; try (intros; reflexivity || discriminate).
  destruct (a ?= b)%char eqn:Eab; destruct (b ?= c)%char eqn:Ebc;
    try discriminate.
  - apply Ascii.compare_eq_iff in Eab, Ebc. subst. unfold Ascii.compare at 1.
    rewrite N.compare_refl. apply IH.
  - apply Ascii.compare_eq_iff in Eab. subst. now rewrite Ebc.
  - apply Ascii.compare_eq_iff in Ebc. subst. now rewrite Eab.
  - now rewrite (ascii_compare_trans a b c Lt Eab Ebc).
Qed.

Lemma string_ltb_leb (s1 s2 : string) :
  String.ltb s1 s2 = true -> String.leb s1 s2 = true.
Proof. unfold String.ltb, String.leb. now destruct (s1 ?= s2)%string. Qed.

Lemma string_ltb_false_leb (s1 s2 : string) :
  String.ltb s1 s2 = false -> String.leb s2 s1 = true.
Proof.
  unfold String.ltb, String.leb. rewrite (String.compare_antisym s1 s2).
  now destruct (s2 ?= s1)%string.
Qed.

(** *** The time of day *)

Lemma format_time_lt (u1 u2 : Z) :
  0 <= u1 < u2 -> u2 < us_per_day ->
  (format_time u1 ?= format_time u2)%string = Lt.
Proof.
  unfold format_time, us_per_day, us_per_second. intros H1 H2.
  set (s1 := u1 / 1000000). set (s2 := u2 / 1000000).
  set (f1 := u1 mod 1000000). set (f2 := u2 mod 1000000).
  assert (Hs : 0 <= s1 <= s2 /\ s2 < 86400 /\ 0 <= f1 < 1000000 /\ 0 <= f2 < 1000000
               /\ (s1 = s2 -> f1 < f2)).
  { subst s1 s2 f1 f2. Z.div_mod_to_equations. lia. }
  destruct Hs as (Hs & Hs2 & Hf1 & Hf2 & Hf).
  set (h1 := s1 / 3600). set (h2 := s2 / 3600).
  set (m1 := s1 / 60 mod 60). set (m2 := s2 / 60 mod 60).
  set (c1 := s1 mod 60). set (c2 := s2 mod 60).
  assert (Hh : 0 <= h1 <= h2 /\ h2 < 24 /\ 0 <= m1 < 60 /\ 0 <= m2 < 60 /\
               0 <= c1 < 60 /\ 0 <= c2 < 60 /\
               (h1 = h2 -> m1 <= m2) /\ (h1 = h2 -> m1 = m2 -> c1 <= c2) /\
               (h1 = h2 -> m1 = m2 -> c1 = c2 -> s1 = s2)).
  { subst h1 h2 m1 m2 c1 c2. Z.div_mod_to_equations. lia. }
  destruct Hh as (Hh & Hh2 & Hm1 & Hm2 & Hc1 & Hc2 & Hm & Hc & He).
  destruct (Z.eq_dec h1 h2) as [Eh|Nh]; [|apply field_lt; cbn; lia].
  rewrite Eh, string_compare_app_same, string_compare_app_same.
  destruct (Z.eq_dec m1 m2) as [Em|Nm]; [|apply field_lt; cbn; lia].
  rewrite Em, string_compare_app_same, string_compare_app_same.
  destruct (Z.eq_dec c1 c2) as [Ec|Nc]; [|apply field_lt; cbn; lia].
  rewrite Ec, string_compare_app_same.
  specialize (Hf (He Eh Em Ec)).
  destruct (Z.eqb_spec f2 0) as [E2|N2]; [lia|].
  destruct (Z.eqb_spec f1 0) as [E1|N1]; [reflexivity|].
  rewrite string_compare_app_same.
  rewrite <- (string_app_empty (zfill 6 f1)), <- (string_app_empty (zfill 6 f2)).
  apply field_lt; cbn; lia.
Qed.

(** *** The calendar *)

Lemma ord2ymd_year_day (n : Z) :
  ord2ymd n = let '(y, leap, k) := year_day n in (y, month_day leap k).
Proof.
  unfold ord2ymd, year_day. cbv zeta.
  destruct (_ || _); reflexivity.
Qed.

Lemma days_before_year_mono (a b : Z) :
  a <= b -> days_before_year a <= days_before_year b.
Proof.
  unfold days_before_year. cbv zeta. intros H. Z.div_mod_to_equations. lia.
Qed.

Lemma year_day_spec (n : Z) :
  1 <= n ->
  let '(y, leap, k) := year_day n in
  n - 1 = days_before_year y + k /\
  0 <= k < (if leap then 366 else 365) /\
  days_before_year (y + 1) = days_before_year y + (if leap then 366 else 365).
Proof.
  intros Hn. unfold year_day, days_before_year. cbv zeta.
  destruct (Z.eqb_spec ((n - 1) mod 146097 mod 36524 mod 1461 / 365) 4) as [E1|N1];
  destruct (Z.eqb_spec ((n - 1) mod 146097 / 36524) 4) as [E100|N100]; cbn [orb];
  try (Z.div_mod_to_equations; lia).
  destruct (Z.eqb_spec ((n - 1) mod 146097 mod 36524 mod 1461 / 365) 3) as [E3|N3];
  destruct (Z.eqb_spec ((n - 1) mod 146097 mod 36524 / 1461) 24) as [E24|N24];
  destruct (Z.eqb_spec ((n - 1) mod 146097 / 36524) 3) as [E103|N103];
  cbn [andb orb negb]; Z.div_mod_to_equations; lia.
Qed.

Lemma in_days (n k : Z) :
  0 <= k < n -> In k (map Z.of_nat (seq 0 (Z.to_nat n))).
Proof.
  intros H. apply in_map_iff. exists (Z.to_nat k). split; [lia|].
  apply in_seq. lia.
Qed.

Lemma month_day_range (leap : bool) (k : Z) :
  0 <= k < year_length leap -> month_day_ok (month_day leap k) = true.
Proof.
  intros H.
  assert (E : forallb (fun k => month_day_ok (month_day leap k))
                (map Z.of_nat (seq 0 (Z.to_nat (year_length leap)))) = true)
    by (destruct leap; vm_compute; reflexivity).
  rewrite forallb_forall in E. apply E. now apply in_days.
Qed.

Lemma month_day_next (leap : bool) (k : Z) :
  0 <= k < year_length leap - 1 ->
  month_day_ltb (month_day leap k) (month_day leap (k + 1)) = true.
Proof.
  intros H.
  assert (E : forallb (fun k => month_day_ltb (month_day leap k) (month_day leap (k + 1)))
                (map Z.of_nat (seq 0 (Z.to_nat (year_length leap - 1)))) = true)
    by (destruct leap; vm_compute; reflexivity).
  rewrite forallb_forall in E. apply E. now apply in_days.
Qed.

Lemma month_day_ltb_trans (a b c : Z * Z) :
  month_day_ltb a b = true -> month_day_ltb b c = true -> month_day_ltb a c = true.
Proof.
  unfold month_day_ltb. rewrite !orb_true_iff, !andb_true_iff.
  rewrite !Z.ltb_lt, !Z.eqb_eq. lia.
Qed.

Lemma month_day_mono (leap : bool) (j k : Z) :
  0 <= j < k -> k < year_length leap ->
  month_day_ltb (month_day leap j) (month_day leap k) = true.
Proof.
  intros Hj Hk.
  replace k with (j + 1 + Z.of_nat (Z.to_nat (k - j - 1))) in * by lia.
  induction (Z.to_nat (k - j - 1)) as [|d IH].
  - rewrite Z.add_0_r. apply month_day_next. lia.
  - eapply month_day_ltb_trans; [apply IH; lia|].
    replace (j + 1 + Z.of_nat (S d)) with (j + 1 + Z.of_nat d + 1) by lia.
    apply month_day_next. lia.
Qed.

Lemma ord2ymd_range (n : Z) :
  1 <= n <= 3652059 ->
  1 <= fst (ord2ymd n) <= 9999 /\ month_day_ok (snd (ord2ymd n)) = true.
Proof.
  intros Hn. rewrite ord2ymd_year_day.
  pose proof (year_day_spec n ltac:(lia)) as S.
  destruct (year_day n) as [[y leap] k]. destruct S as (E & Hk & Hy).
  cbn [fst snd]. split.
  - assert (~ y <= 0).
    { intros C. pose proof (days_before_year_mono (y + 1) 1 ltac:(lia)) as M.
      change (days_before_year 1) with 0 in M. destruct leap; lia. }
    assert (~ 10000 <= y).
    { intros C. pose proof (days_before_year_mono 10000 y C) as M.
      change (days_before_year 10000) with 3652059 in M. lia. }
    lia.
  - apply month_day_range. exact Hk.
Qed.

Lemma ord2ymd_mono (n1 n2 : Z) :
  1 <= n1 < n2 -> ymd_lt (ord2ymd n1) (ord2ymd n2).
Proof.
  intros Hn. rewrite !ord2ymd_year_day.
  pose proof (year_day_spec n1 ltac:(lia)) as S1.
  pose proof (year_day_spec n2 ltac:(lia)) as S2.
  destruct (year_day n1) as [[y1 l1] k1]. destruct (year_day n2) as [[y2 l2] k2].
  destruct S1 as (E1 & Hk1 & Hy1). destruct S2 as (E2 & Hk2 & Hy2).
  unfold ymd_lt. cbn [fst snd].
  destruct (Z.lt_trichotomy y1 y2) as [L|[E|G]].
  - now left.
  - right. split; [exact E|]. subst y2.
    assert (l1 = l2) as <- by (destruct l1, l2; (reflexivity || lia)).
    apply month_day_mono; [lia|apply Hk2].
  - exfalso. pose proof (days_before_year_mono (y2 + 1) y1 ltac:(lia)). lia.
Qed.

(** *** The text of a datetime *)

Lemma date_text_same (a : Z * (Z * Z)) (s1 s2 : string) :
  (date_text a s1 ?= date_text a s2)%string = (s1 ?= s2)%string.
Proof.
  destruct a as [y [m d]]. unfold date_text.
  now rewrite !string_compare_app_same.
Qed.

Lemma date_text_lt (a b : Z * (Z * Z)) (s1 s2 : string) :
  1 <= fst a -> fst b <= 9999 ->
  month_day_ok (snd a) = true -> month_day_ok (snd b) = true ->
  ymd_lt a b ->
  (date_text a s1 ?= date_text b s2)%string = Lt.
Proof.
  destruct a as [y1 [m1 d1]], b as [y2 [m2 d2]].
  unfold ymd_lt, month_day_ok, month_day_ltb, date_text. cbn [fst snd].
  rewrite !andb_true_iff, orb_true_iff, andb_true_iff, !Z.leb_le, !Z.ltb_lt, Z.eqb_eq.
  intros Hy1 Hy2 (((A1 & A2) & A3) & A4) (((B1 & B2) & B3) & B4) H.
  destruct (Z.eq_dec y1 y2) as [Ey|Ny]; [|apply field_lt; cbn; lia].
  rewrite Ey, string_compare_app_same, string_compare_app_same.
  destruct (Z.eq_dec m1 m2) as [Em|Nm]; [|apply field_lt; cbn; lia].
  rewrite Em, string_compare_app_same, string_compare_app_same.
  apply field_lt; cbn; lia.
Qed.

(** On datetimes the order of the texts is the order of the instants. *)
(** On datetimes the order of the texts is the order of the instants. *)
Lemma isoformat_lt (t1 t2 : datetime) :
  in_range t1 = true -> in_range t2 = true -> t1 < t2 ->
  (isoformat t1 ?= isoformat t2)%string = Lt.
Proof.
  unfold in_range, datetime_min, datetime_max. rewrite !andb_true_iff, !Z.leb_le.
  intros [L1 U1] [L2 U2] Hlt. unfold isoformat.
  assert (Hd : 1 <= date t1 <= date t2 /\ date t2 <= 3652059 /\
               0 <= t1 mod us_per_day < us_per_day /\
               0 <= t2 mod us_per_day < us_per_day /\
               (date t1 = date t2 -> t1 mod us_per_day < t2 mod us_per_day)).
  { unfold date, us_per_day, us_per_second in *. Z.div_mod_to_equations. lia. }
  destruct Hd as (D1 & D2 & M1 & M2 & Hm).
  destruct (Z.eq_dec (date t1) (date t2)) as [E|N].
  - rewrite E, date_text_same. apply format_time_lt; [|lia].
    specialize (Hm E). lia.
  - destruct (ord2ymd_range (date t1) ltac:(lia)) as [R1 O1].
    destruct (ord2ymd_range (date t2) ltac:(lia)) as [R2 O2].
    apply date_text_lt; try assumption; try lia.
    apply ord2ymd_mono. lia.
Qed.

Lemma isoformat_ltb (t1 t2 : datetime) :
  in_range t1 = true -> in_range t2 = true ->
  String.ltb (isoformat t1) (isoformat t2) = (t1 <? t2).
Proof.
  intros H1 H2. unfold String.ltb.
  destruct (Z.ltb_spec t1 t2) as [L|G].
  - now rewrite isoformat_lt.
  - destruct (Z.eq_dec t1 t2) as [->|N].
    + now rewrite string_compare_refl.
    + rewrite String.compare_antisym, (isoformat_lt t2 t1) by (assumption || lia).
      reflexivity.
Qed.

(** On datetimes a text that is not before another is of an instant that
    is not older. *)
Lemma text_not_older_not_older (a b : SentRecord) :
  in_range (timestamp a) = true -> in_range (timestamp b) = true ->
  text_not_older a b -> not_older a b.
Proof.
  unfold text_not_older, not_older, timestamp_text, String.leb. intros Ha Hb H.
  destruct (Z.le_gt_cases (timestamp b) (timestamp a)) as [L|G]; [exact L|].
  rewrite String.compare_antisym, (isoformat_lt _ _ Ha Hb) in H by lia.
  discriminate.
Qed.

(** *** Sorting the ledger *)

Lemma insert_newest_first_perm (x : SentRecord) (l : list SentRecord) :
  Permutation (insert_newest_first x l) (x :: l).
Proof.
  induction l as [|y rest IH]; cbn [insert_newest_first]; [reflexivity|].
  destruct (String.ltb _ _); [|reflexivity].
  rewrite IH. apply perm_swap.
Qed.

Lemma sorted_newest_first_perm (l : list SentRecord) :
  Permutation (sorted_newest_first l) l.
Proof.
  induction l as [|x rest IH]; cbn [sorted_newest_first fold_right]; [reflexivity|].
  fold (sorted_newest_first rest). rewrite insert_newest_first_perm. now constructor.
Qed.

Lemma insert_newest_first_sorted (x : SentRecord) (l : list SentRecord) :
  StronglySorted text_not_older l ->
  StronglySorted text_not_older (insert_newest_first x l).
Proof.
  induction 1 as [|y rest Hs IH Hy]; cbn [insert_newest_first].
  - repeat constructor.
  - destruct (String.ltb (timestamp_text x) (timestamp_text y)) eqn:E.
    + constructor; [exact IH|].
      apply Forall_forall. intros z Hz.
      apply (Permutation_in _ (insert_newest_first_perm x rest)) in Hz.
      destruct Hz as [<-|Hz]; [now apply string_ltb_leb|].
      rewrite Forall_forall in Hy. now apply Hy.
    + apply string_ltb_false_leb in E.
      constructor; [now constructor|].
      constructor; [exact E|].
      apply Forall_forall. intros z Hz. rewrite Forall_forall in Hy.
      specialize (Hy z Hz). unfold text_not_older in *.
      now apply (string_leb_trans _ (timestamp_text y)).
Qed.

Lemma sorted_newest_first_sorted (l : list SentRecord) :
  StronglySorted text_not_older (sorted_newest_first l).
Proof.
  induction l as [|x rest IH]; cbn [sorted_newest_first fold_right]; [constructor|].
  now apply insert_newest_first_sorted.
Qed.

Lemma strongly_sorted_app_inv (R : SentRecord -> SentRecord -> Prop)
      (h rest : list SentRecord) :
  StronglySorted R (h ++ rest) ->
  StronglySorted R h /\ forall a b, In a h -> In b rest -> R a b.
Proof.
  induction h as [|x h IH]; cbn [app]; intros Hs.
  - split; [constructor | intros a b []].
  - inversion Hs as [|? ? Hs' Hx]; subst. destruct (IH Hs') as [H1 H2].
    split.
    + constructor; [exact H1|]. rewrite Forall_forall in *.
      intros z Hz. apply Hx. apply in_or_app. now left.
    + intros a b [<-|Ha] Hb; [|now apply H2].
      rewrite Forall_forall in Hx. apply Hx. apply in_or_app. now right.
Qed.

(** A list sorted by the texts of datetimes is sorted by the instants. *)
Lemma sorted_by_text_sorted (l : list SentRecord) :
  datetimes l -> StronglySorted text_not_older l -> StronglySorted not_older l.
Proof.
  unfold datetimes. intros Hd Hs. induction Hs as [|x l Hs IH Hx]; [constructor|].
  inversion Hd as [|? ? Dx Dl]; subst. constructor; [now apply IH|].
  rewrite Forall_forall in *. intros z Hz.
  apply text_not_older_not_older; auto.
Qed.

Lemma slice_to_prefix {A : Type} (k : Z) (l : list A) :
  exists rest, l = (slice_to k l ++ rest)%list.
Proof.
  unfold slice_to. destruct (k >=? 0); eexists; symmetry; apply firstn_skipn.
Qed.

Lemma slice_to_length {A : Type} (k : Z) (l : list A) :
  Py.len (slice_to k l)
  = if k >=? 0 then Z.min k (Py.len l) else Z.max 0 (Py.len l + k).
Proof.
  unfold slice_to, Py.len.
  destruct (k >=? 0) eqn:E; rewrite length_firstn.
  - rewrite Z.geb_leb in E. apply Z.leb_le in E. lia.
  - rewrite Z.geb_leb in E. apply Z.leb_gt in E. lia.
Qed.

Lemma get_sent_history_run (limit : Z) (w : World) :
  get_sent_history limit w
  = (Ok (slice_to limit (sorted_newest_first (ledger w))), loaded_world w).
Proof.
  unfold get_sent_history, bind. rewrite ensure_loaded_run.
  unfold gets, ret. now rewrite loaded_world_entries.
Qed.

(** X3.  On a ledger of the records [record_sent] writes,
    [get_sent_history(limit)] returns records of the ledger sorted by the
    text of their timestamp, greatest first: together with the
    records it leaves out they make up the ledger, and the text of none
    left out is after that of one returned.  It returns [min(limit, n)] of
    the [n] records for a limit that is not negative; a negative limit
    leaves out that many of the last instead.  When the timestamps are
    datetimes in the text [isoformat] gives them, as [record_sent] writes
    them, the order of the texts is the order of the instants: the
    records returned are the most recent ones, newest first. *)
Theorem history_is_most_recent_first (limit : Z) (w : World) :
  exists h rest,
    fst (get_sent_history limit w) = Ok h /\
    Permutation (h ++ rest) (ledger w) /\
    Py.len h = (if limit >=? 0 then Z.min limit (Py.len (ledger w))
                else Z.max 0 (Py.len (ledger w) + limit)) /\
    StronglySorted text_not_older h /\
    (forall a b, In a h -> In b rest -> text_not_older a b) /\
    (datetimes (ledger w) ->
     StronglySorted not_older h /\
     (forall a b, In a h -> In b rest -> not_older a b)).
Proof.
  rewrite get_sent_history_run. cbn [fst].
  destruct (slice_to_prefix limit (sorted_newest_first (ledger w))) as [rest Hrest].
  exists (slice_to limit (sorted_newest_first (ledger w))), rest.
  split; [reflexivity|].
  pose proof (sorted_newest_first_sorted (ledger w)) as Hs.
  pose proof (sorted_newest_first_perm (ledger w)) as Hp.
  rewrite Hrest in Hs, Hp.
  destruct (strongly_sorted_app_inv _ _ _ Hs) as [H1 H2].
  split; [exact Hp|]. split.
  { rewrite slice_to_length.
    assert (E : Py.len (sorted_newest_first (ledger w)) = Py.len (ledger w)).
    { unfold Py.len. now rewrite (Permutation_length (sorted_newest_first_perm _)). }
    now rewrite E. }
  split; [exact H1|]. split; [exact H2|].
  intros Hd.
  assert (Hd' : datetimes (slice_to limit (sorted_newest_first (ledger w)) ++ rest)%list).
  { unfold datetimes in *. rewrite Forall_forall in *. intros r Hr.
    apply Hd. now apply (Permutation_in _ Hp). }
  apply (strongly_sorted_app_inv not_older).
  now apply sorted_by_text_sorted.
Qed.

(** ** Clearing the history *)

Lemma clear_history_run (env : Env) (w : World) :
  clear_history env w =
  match log_write_fate env (log_writes w) with
  | WriteOk =>
      (Ok tt,
       set_loaded true
         (set_sent_log (LogObject (Some []))
            (set_log_writes (S (log_writes w)) (set_sent_emails [] w))))
  | OpenFails msg =>
      (Raise (OSError msg), set_log_writes (S (log_writes w)) (set_sent_emails [] w))
  | DumpFails e =>
      (Raise e,
       set_sent_log (LogInvalidJson "truncated")
         (set_log_writes (S (log_writes w)) (set_sent_emails [] w)))
  end.
Proof.
  unfold clear_history, bind, modify. rewrite save_sent_log_run. cbn [log_writes set_sent_emails set_rate_limiter].
  destruct (log_write_fate env (log_writes w)); reflexivity.
Qed.

(** X4.  A [clear_history] whose write succeeds empties the ledger in
    memory and on disk: the file holds the empty list, a new process
    reloads nothing, and the limiter counts no record. *)
Theorem clear_history_empties (env : Env) (w : World) :
  log_write_fate env (log_writes w) = WriteOk ->
  let w' := snd (clear_history env w) in
  fst (clear_history env w) = Ok tt
  /\ ledger w' = []
  /\ sent_log w' = LogObject (Some [])
  /\ fst (reload w') = Ok []
  /\ (exists st, fst (get_statistics env w') = Ok st /\
                 Stats.total_sent st = 0 /\ Stats.emails_last_hour st = 0 /\
                 Stats.emails_today st = 0).
Proof.
  intros Hfate w'. subst w'. rewrite clear_history_run, Hfate. cbn [fst snd].
  set (w' := set_loaded true _).
  assert (Hl : ledger w' = []) by reflexivity.
  split; [reflexivity|]. split; [exact Hl|]. split; [reflexivity|].
  split; [rewrite reload_run; reflexivity|].
  rewrite get_statistics_run. eexists. split; [reflexivity|].
  rewrite Hl. repeat split.
Qed.

(** X5.  A [clear_history] whose write is refused raises and clears the
    list in memory only.  The file keeps its records, and [_loaded] is not
    set: on a limiter that had not loaded yet the next access reads the
    file again, so the ledger is what it was; on a loaded limiter the
    ledger is empty until the process restarts. *)
Theorem clear_history_write_refused (env : Env) (w : World) (msg : string) :
  log_write_fate env (log_writes w) = OpenFails msg ->
  let w' := snd (clear_history env w) in
  fst (clear_history env w) = Raise (OSError msg)
  /\ sent_log w' = sent_log w
  /\ _sent_emails (rate_limiter w') = []
  /\ _loaded (rate_limiter w') = _loaded (rate_limiter w)
  /\ (_loaded (rate_limiter w) = false -> ledger w' = ledger w)
  /\ (_loaded (rate_limiter w) = true -> ledger w' = [])
  /\ fst (reload w') = Ok (load_result (sent_log w)).
Proof.
  intros Hfate w'. subst w'. rewrite clear_history_run, Hfate. cbn [fst snd].
  split; [reflexivity|]. split; [reflexivity|]. split; [reflexivity|].
  split; [reflexivity|].
  split; [unfold ledger; cbn; intros ->; reflexivity|].
  split; [unfold ledger; cbn; intros ->; reflexivity|].
  rewrite reload_run. reflexivity.
Qed.

(** ** Queries do not write *)

Lemma get_wait_time_world (env : Env) (w : World) :
  exists k, snd (get_wait_time env w) = set_ticks k (loaded_world w).
Proof.
  unfold get_wait_time, bind. rewrite get_emails_today_run.
  destruct (_ >=? daily_limit env).
  - eexists. reflexivity.
  - rewrite get_emails_last_hour_run.
    rewrite loaded_world_set_ticks, loaded_world_idem.
    destruct (_ >=? hourly_limit env).
    + unfold now at 1. cbn [fst snd]. rewrite get_emails_in_window_run.
      rewrite !loaded_world_set_ticks, loaded_world_idem.
      unfold now, of_result. cbn [fst snd].
      destruct (datetime_add _ _); eexists; reflexivity.
    + eexists. reflexivity.
Qed.

Lemma untouched_loaded_ticks (k : nat) (w : World) :
  untouched w (set_ticks k (loaded_world w))
  /\ trace (set_ticks k (loaded_world w)) = trace w
  /\ smtp_sessions (set_ticks k (loaded_world w)) = smtp_sessions w.
Proof.
  unfold untouched. rewrite ledger_set_ticks, ledger_loaded_world.
  unfold loaded_world. destruct (_loaded (rate_limiter w)); repeat split.
Qed.

(** X6.  The queries of the limiter ([can_send], [check_rate_limit],
    [get_wait_time], [get_statistics] and [get_sent_history]) never write:
    the ledger, its file, the contact store and the trace of effects are
    after the call what they were before, whatever the call returns. *)
Theorem limiter_queries_do_not_write (env : Env) (w : World) (limit : Z) :
  let quiet (w' : World) :=
    untouched w w' /\ trace w' = trace w /\ smtp_sessions w' = smtp_sessions w in
  quiet (snd (can_send env w))
  /\ quiet (snd (check_rate_limit env w))
  /\ quiet (snd (get_wait_time env w))
  /\ quiet (snd (get_statistics env w))
  /\ quiet (snd (get_sent_history limit w)).
Proof.
  cbv zeta.
  rewrite can_send_verdict, check_rate_limit_run, get_statistics_run,
    get_sent_history_run.
  destruct (get_wait_time_world env w) as [k ->]. cbn [snd].
  pose proof (untouched_loaded_ticks (S (S (ticks w))) w) as Hg.
  fold (gate_world w) in Hg.
  pose proof (untouched_loaded_ticks k w) as Hk.
  pose proof (untouched_loaded_ticks (ticks w) w) as Hl.
  assert (E : set_ticks (ticks w) (loaded_world w) = loaded_world w).
  { unfold loaded_world. destruct (_loaded (rate_limiter w)); destruct w; reflexivity. }
  rewrite E in Hl. tauto.
Qed.

(** X7.  When [can_send] allows a send, [get_wait_time] asked at the same
    instant returns 0; when the daily limit is what refuses, it returns at
    least one second. *)
Theorem no_wait_when_allowed (env : Env) (w : World) :
  clock env (ticks w) = clock env (S (ticks w)) ->
  (fst (can_send env w) = Ok (true, "OK") -> fst (get_wait_time env w) = Ok 0)
  /\ (clock env (S (S (ticks w))) = clock env (ticks w) ->
      countOnDate (date (clock env (ticks w))) (ledger w) >= daily_limit env ->
      exists s, fst (get_wait_time env w) = Ok s /\ 1 <= s <= 86400).
Proof.
  intros Hclk. pose proof (get_wait_time_run env w) as Hrun. cbv zeta in Hrun.
  cbn [Nat.add] in Hrun. rewrite <- Hclk in Hrun. split.
  - rewrite can_send_run. cbn [fst]. rewrite <- Hclk. unfold decision.
    intros Hcs. rewrite Hrun.
    destruct (_ >=? daily_limit env); [discriminate|].
    destruct (_ >=? hourly_limit env); [discriminate|]. reflexivity.
  - intros Hclk2 Hday. rewrite Hrun.
    assert (E : (countOnDate (date (clock env (ticks w))) (ledger w) >=? daily_limit env)
                = true) by (rewrite Z.geb_leb; apply Z.leb_le; lia).
    rewrite E, Hclk2.
    destruct (until_midnight_frozen (clock env (ticks w))) as [Hq _].
    rewrite Hq. eexists. split; [reflexivity|].
    unfold second_of_day.
    assert (HD : us_per_day = 86400 * us_per_second) by reflexivity.
    assert (HS : us_per_second = 1000000) by reflexivity.
    pose proof (Z.mod_pos_bound (clock env (ticks w)) us_per_day
                  ltac:(rewrite HD, HS; lia)) as Hb.
    assert (0 <= clock env (ticks w) mod us_per_day / us_per_second < 86400).
    { split; [apply Z.div_pos; lia|].
      apply Z.div_lt_upper_bound; lia. }
    lia.
Qed.

(** ** The quota is kept *)

Lemma accepted_app (a b : list event) : accepted (a ++ b) = accepted a + accepted b.
Proof. unfold accepted, Py.len. rewrite filter_app, length_app. lia. Qed.

Lemma mark_sent_ledger (env : Env) (rid : string) (w : World) :
  ledger (snd (mark_sent env rid w)) = ledger w
  /\ trace (snd (mark_sent env rid w)) = trace w.
Proof.
  pose proof (mark_sent_cases env rid w) as H. cbv zeta in H.
  destruct H as (Ht & Hr & Hs & _). split; [now apply ledger_ext | exact Ht].
Qed.

(** What a call of [send_email], dry run or not, does to the ledger and to
    the count of accepted messages: nothing, or, after passing its own rate
    gate, one accepted message and one record stamped by the clock. *)
Lemma send_email_ledger (env : Env) (r : Recruiter) (tpl : string)
    (cv : option (list (string * string))) (ar : option bool) (dry : bool) (w : World) :
  let w' := snd (send_email env r tpl cv ar dry w) in
  (ledger w' = ledger w /\ accepted (trace w') = accepted (trace w))
  \/ (fst (verdict env w) = true /\
      exists subj,
        ledger w' = (ledger w ++ [new_record (clock env (2 + ticks w)) (id r)
                                    (r_email r) tpl subj])%list /\
        accepted (trace w') = accepted (trace w) + 1).
Proof.
  cbv zeta. destruct dry.
  { left. rewrite send_email_dry_run. cbn [snd].
    destruct (untouched_gate w) as [Hl _]. destruct (gate_world_trace w) as [Ht _].
    now rewrite Hl, Ht. }
  destruct (gate_world_trace w) as [Hgt Hgs].
  pose proof (untouched_gate w) as Hgu.
  unfold send_email, bind. rewrite check_rate_limit_run.
  destruct (fst (verdict env w)) eqn:Ev.
  2:{ left. cbn [snd]. destruct Hgu as [Hl _]. now rewrite Hl, Hgt. }
  unfold render_template.
  destruct (render env tpl r cv) as [[subj body]|e] eqn:Er.
  2:{ left. cbn [snd]. destruct Hgu as [Hl _]. now rewrite Hl, Hgt. }
  destruct ((gmail_email (config env) =? "")%string
            || (gmail_app_password (config env) =? "")%string).
  { left. unfold raise. cbn [snd]. destruct Hgu as [Hl _]. now rewrite Hl, Hgt. }
  unfold try_except, bind. rewrite smtp_session_run.
  fold (outgoing env r ar subj body). rewrite Hgs.
  set (msg := outgoing env r ar subj body).
  set (g1 := emit (EvSmtp msg (smtp env (smtp_sessions w) msg))
                  (set_smtp_sessions (S (smtp_sessions w)) (gate_world w))).
  assert (Hg1t : trace g1 = (trace w ++ [EvSmtp msg (smtp env (smtp_sessions w) msg)])%list)
    by (unfold g1; rewrite session_trace, Hgt; reflexivity).
  assert (Hg1u : untouched w g1) by (unfold g1; now apply untouched_session).
  assert (Hg1k : ticks g1 = (2 + ticks w)%nat) by reflexivity.
  clearbody g1. destruct Hg1u as [Hg1l _].
  destruct (smtp env (smtp_sessions w) msg) as [e|] eqn:Esmtp.
  - left. assert (Ha : accepted (trace g1) = accepted (trace w)).
    { rewrite Hg1t, accepted_app. unfold accepted at 2, Py.len. cbn. lia. }
    destruct e; cbn [snd raise]; now rewrite Hg1l, Ha.
  - right. split; [reflexivity|]. exists subj.
    assert (Ha : accepted (trace g1) = accepted (trace w) + 1).
    { rewrite Hg1t, accepted_app. unfold accepted at 2, Py.len. cbn. lia. }
    pose proof (record_sent_frame env (id r) (r_email r) tpl subj g1) as Hfr.
    pose proof (record_sent_ledger env (id r) (r_email r) tpl subj g1) as Hrs.
    cbv zeta in Hfr, Hrs. destruct Hfr as (Ht & _). destruct Hrs as (Hled & _).
    rewrite Hg1l, Hg1k in Hled.
    destruct (record_sent env (id r) (r_email r) tpl subj g1) as [[[]|e2] g2] eqn:Erec;
      cbn [snd] in Ht, Hled.
    + destruct (mark_sent_ledger env (id r) g2) as [Hml Hmt].
      destruct (mark_sent env (id r) g2) as [[r'|e3] g3] eqn:Emark; cbn [snd] in Hml, Hmt.
      * cbn [snd ret]. now rewrite Hml, Hmt, Ht, Hled, Ha.
      * destruct e3; cbn [snd raise]; now rewrite Hml, Hmt, Ht, Hled, Ha.
    + destruct e2; cbn [snd raise]; now rewrite Ht, Hled, Ha.
Qed.

Lemma countSince_app (i : datetime) (a b : list SentRecord) :
  countSince i (a ++ b) = countSince i a + countSince i b.
Proof. induction a as [|r a IH]; cbn [app countSince]; lia. Qed.

Lemma countOnDate_app (d : Z) (a b : list SentRecord) :
  countOnDate d (a ++ b) = countOnDate d a + countOnDate d b.
Proof. induction a as [|r a IH]; cbn [app countOnDate]; lia. Qed.

Lemma countSince_antitone (i1 i2 : datetime) (l : list SentRecord) :
  i1 <= i2 -> countSince i2 l <= countSince i1 l.
Proof.
  intros Hi. induction l as [|r l IH]; cbn [countSince]; [lia|].
  destruct (i2 <? timestamp r) eqn:E2; destruct (i1 <? timestamp r) eqn:E1; lia.
Qed.

(** X8.  The rate gate of [send_email] keeps the quota at the moment of
    the append.  Whenever a call adds a record to the ledger, the record is
    stamped by the clock reading that follows the gate; if the clock did
    not go back since the gate looked at the trailing hour, the hour that
    ends at the record holds at most [emails_per_hour] records, the new one
    included; if the day did not change, the record's day holds at most
    [max_emails_per_day]. *)
Theorem append_keeps_quota (env : Env) (r : Recruiter) (tpl : string)
    (cv : option (list (string * string))) (ar : option bool) (dry : bool)
    (w : World) (rec : SentRecord) :
  let w' := snd (send_email env r tpl cv ar dry w) in
  ledger w' = (ledger w ++ [rec])%list ->
  timestamp rec = clock env (2 + ticks w)
  /\ (clock env (ticks w) <= clock env (2 + ticks w) ->
      countSince (timestamp rec - hours 1) (ledger w') <= hourly_limit env)
  /\ (date (clock env (1 + ticks w)) = date (clock env (2 + ticks w)) ->
      countOnDate (date (timestamp rec)) (ledger w') <= daily_limit env).
Proof.
  intros w' Happ. subst w'.
  pose proof (send_email_ledger env r tpl cv ar dry w) as H. cbv zeta in H.
  destruct H as [[Hl _]|(Hv & subj & Hl & _)].
  { rewrite Hl in Happ. now apply app_snoc_neq in Happ. }
  rewrite Happ in Hl. apply app_inv_head in Hl. injection Hl as Hrec.
  rewrite Happ, Hrec. cbn [timestamp new_record]. split; [reflexivity|].
  unfold verdict, decision in Hv.
  destruct (_ >=? daily_limit env) eqn:Ed; [discriminate|].
  destruct (_ >=? hourly_limit env) eqn:Eh; [discriminate|].
  rewrite Z.geb_leb in Ed, Eh. apply Z.leb_gt in Ed, Eh.
  split.
  - intros Hmono. rewrite countSince_app. cbn [countSince].
    pose proof (countSince_antitone (clock env (ticks w) - hours 1)
                  (clock env (2 + ticks w) - hours 1) (ledger w) ltac:(lia)).
    assert (0 < hours 1) by (unfold hours, us_per_second; lia).
    cbn [Nat.add] in *.
    destruct (_ <? _) eqn:E; lia.
  - intros Hday. rewrite countOnDate_app. cbn [countOnDate].
    cbn [Nat.add] in *. rewrite Z.eqb_refl, <- Hday. lia.
Qed.

Lemma within_quota_ext (env : Env) (L0 : list SentRecord) (a0 room : Z) (w w' : World) :
  ledger w' = ledger w -> accepted (trace w') = accepted (trace w) ->
  within_quota env L0 a0 room w -> within_quota env L0 a0 room w'.
Proof. intros Hl Ha (new & H1 & H2 & H3 & H4). exists new. now rewrite Hl, Ha. Qed.

(** The room the gate leaves: it allows a send only while the records
    appended during the run are fewer than [room]. *)
Lemma send_email_within_quota (env : Env) (L0 : list SentRecord) (a0 room : Z)
    (r : Recruiter) (tpl : string)
    (cv : option (list (string * string))) (ar : option bool) (dry : bool) (w : World) :
  (forall (g : World) (new : list SentRecord),
     ledger g = (L0 ++ new)%list -> Forall (stamped_by env) new ->
     fst (verdict env g) = true -> Py.len new < room) ->
  within_quota env L0 a0 room w ->
  within_quota env L0 a0 room (snd (send_email env r tpl cv ar dry w)).
Proof.
  intros gate_leaves_room Hq.
  pose proof (send_email_ledger env r tpl cv ar dry w) as H. cbv zeta in H.
  destruct H as [[Hl Ha]|(Hv & subj & Hl & Ha)].
  - now apply (within_quota_ext env L0 a0 room w).
  - destruct Hq as (new & H1 & H2 & H3 & H4).
    pose proof (gate_leaves_room w new H1 H2 Hv) as Hroom.
    eexists (new ++ [_])%list. rewrite Hl, Ha, H1, <- app_assoc.
    split; [reflexivity|]. split.
    + apply Forall_app. split; [exact H2|]. constructor; [|constructor].
      eexists. reflexivity.
    + rewrite len_app, len_cons. unfold Py.len at 2 4. cbn [List.length]. lia.
Qed.

Lemma loop_body_within_quota (env : Env) (L0 : list SentRecord) (a0 room : Z)
    (tpl : string) (cv : option (list (string * string)))
    (dry cb : bool) (n i : Z) (r : Recruiter) (res : Results) (w : World) :
  (forall (g : World) (new : list SentRecord),
     ledger g = (L0 ++ new)%list -> Forall (stamped_by env) new ->
     fst (verdict env g) = true -> Py.len new < room) ->
  within_quota env L0 a0 room w ->
  within_quota env L0 a0 room (snd (loop_body env tpl cv dry cb n i r res w)).
Proof.
  intros gate_leaves_room Hq. rewrite loop_body_run. cbv zeta.
  assert (Hg : within_quota env L0 a0 room (gate_world (notified cb n i r w))).
  { apply (within_quota_ext env L0 a0 room w); [| |exact Hq].
    - destruct (untouched_notified cb n i r w) as [Hl _]. exact Hl.
    - rewrite gate_world_notified_trace, accepted_app.
      destruct cb; unfold accepted at 2, Py.len; cbn; lia. }
  destruct (fst (verdict env (notified cb n i r w))); [|exact Hg]. cbn [snd].
  pose proof (send_email_within_quota env L0 a0 room r tpl cv None dry _
                gate_leaves_room Hg) as Hs.
  destruct (negb dry && (i <? n - 1) && (delay env >? 0)); [|exact Hs].
  eapply within_quota_ext; [| |exact Hs]; [reflexivity|].
  cbn [trace emit]. rewrite accepted_app. unfold accepted at 2, Py.len. cbn. lia.
Qed.

Lemma bulk_loop_within_quota (env : Env) (L0 : list SentRecord) (a0 room : Z)
    (tpl : string) (cv : option (list (string * string)))
    (dry cb : bool) (n : Z) (l : list Recruiter) :
  (forall (g : World) (new : list SentRecord),
     ledger g = (L0 ++ new)%list -> Forall (stamped_by env) new ->
     fst (verdict env g) = true -> Py.len new < room) ->
  forall (i : Z) (res : Results) (w : World),
    within_quota env L0 a0 room w ->
    within_quota env L0 a0 room (snd (bulk_loop env tpl cv dry cb n i l res w)).
Proof.
  intros gate_leaves_room.
  induction l as [|r rest IH]; intros i res w Hq; [exact Hq|].
  destruct (loop_body_step env tpl cv dry cb n i r res w) as (res1 & w1 & Hrun & _).
  rewrite (bulk_loop_cons _ _ _ _ _ _ _ _ _ _ _ _ _ Hrun). apply IH.
  pose proof (loop_body_within_quota env L0 a0 room tpl cv dry cb n i r res w
                gate_leaves_room Hq) as H.
  now rewrite Hrun in H.
Qed.

(** Enumerating the pending contacts touches the contact store only. *)
Lemma get_pending_frame (w : World) :
  ledger (snd (get_pending w)) = ledger w /\ trace (snd (get_pending w)) = trace w.
Proof.
  unfold get_pending, get_by_status, manager_ensure_loaded, load, load_rows,
    bind, gets, modify, raise, ret.
  destruct (_recruiters_loaded (recruiter_manager w)); cbn; [now split|].
  destruct (store w) as [|rows|rows msg]; cbn; now split.
Qed.

Lemma send_to_all_pending_within_quota (env : Env) (room : Z)
    (tpl : option string) (cv : option (list (string * string))) (dry cb : bool)
    (w : World) :
  (forall (g : World) (new : list SentRecord),
     ledger g = (ledger w ++ new)%list -> Forall (stamped_by env) new ->
     fst (verdict env g) = true -> Py.len new < room) ->
  within_quota env (ledger w) (accepted (trace w)) room
    (snd (send_to_all_pending env tpl cv dry cb w)).
Proof.
  intros Hroom.
  assert (H0 : within_quota env (ledger w) (accepted (trace w)) room w).
  { exists []. rewrite app_nil_r. unfold Py.len. cbn. repeat split; try constructor; lia. }
  destruct (get_pending_frame w) as [Hl Ht].
  rewrite send_to_all_pending_run.
  destruct (get_pending w) as [[pending|e] w0]; cbn [snd] in Hl, Ht |- *.
  - apply bulk_loop_within_quota; [exact Hroom|].
    apply (within_quota_ext _ _ _ _ w); [exact Hl | now rewrite Ht | exact H0].
  - apply (within_quota_ext _ _ _ _ w); [exact Hl | now rewrite Ht | exact H0].
Qed.

(** X9.  A bulk run that lasts less than an hour keeps the hourly quota.
    If every clock reading of the run lies between [lo] and [hi], less than
    an hour apart, the messages the server accepts during
    [send_to_all_pending] are at most the hourly limit minus the records
    already inside the hour that ends at [hi]; and each accepted message is
    in the in-memory ledger afterwards. *)
Theorem bulk_run_keeps_hourly_quota (env : Env) (tpl : option string)
    (cv : option (list (string * string))) (dry cb : bool) (w : World)
    (lo hi : datetime) :
  hi - lo < hours 1 ->
  (forall k, lo <= clock env k <= hi) ->
  let w' := snd (send_to_all_pending env tpl cv dry cb w) in
  accepted (trace w') - accepted (trace w)
  <= Z.max 0 (hourly_limit env - countSince (hi - hours 1) (ledger w))
  /\ Py.len (ledger w') = Py.len (ledger w) + (accepted (trace w') - accepted (trace w)).
Proof.
  intros Hspan Hclk w'. subst w'.
  destruct (send_to_all_pending_within_quota env
              (hourly_limit env - countSince (hi - hours 1) (ledger w))
              tpl cv dry cb w) as (new & Hl & _ & Ha & Hr).
  - intros g new Hg Hnew Hv. unfold verdict, decision in Hv.
    destruct (_ >=? daily_limit env); [discriminate|].
    destruct (_ >=? hourly_limit env) eqn:Eh; [discriminate|].
    rewrite Z.geb_leb in Eh. apply Z.leb_gt in Eh.
    rewrite Hg, countSince_app in Eh.
    pose proof (Hclk (ticks g)) as Hc.
    pose proof (countSince_antitone (clock env (ticks g) - hours 1) (hi - hours 1)
                  (ledger w) ltac:(lia)).
    rewrite (countSince_all (clock env (ticks g) - hours 1) new) in Eh; [lia|].
    eapply Forall_impl; [|exact Hnew]. intros rec [k ->].
    pose proof (Hclk k). lia.
  - rewrite Hl, Ha, len_app. split; lia.
Qed.

(** X10.  A bulk run inside one calendar day keeps the daily quota: if
    every clock reading of the run falls on the day [d], the messages the
    server accepts during [send_to_all_pending] are at most the daily limit
    minus the records the ledger already holds for [d]. *)
Theorem bulk_run_keeps_daily_quota (env : Env) (tpl : option string)
    (cv : option (list (string * string))) (dry cb : bool) (w : World) (d : Z) :
  (forall k, date (clock env k) = d) ->
  let w' := snd (send_to_all_pending env tpl cv dry cb w) in
  accepted (trace w') - accepted (trace w)
  <= Z.max 0 (daily_limit env - countOnDate d (ledger w)).
Proof.
  intros Hclk w'. subst w'.
  destruct (send_to_all_pending_within_quota env
              (daily_limit env - countOnDate d (ledger w))
              tpl cv dry cb w) as (new & Hl & _ & Ha & Hr).
  - intros g new Hg Hnew Hv. unfold verdict, decision in Hv.
    destruct (_ >=? daily_limit env) eqn:Ed; [discriminate|].
    rewrite Z.geb_leb in Ed. apply Z.leb_gt in Ed.
    rewrite Hg, countOnDate_app, Hclk in Ed.
    rewrite (countOnDate_all d new) in Ed; [lia|].
    eapply Forall_impl; [|exact Hnew]. intros rec [k ->]. apply Hclk.
  - rewrite Ha. lia.
Qed.

(** ** The contact store *)

Lemma dict_get_set_other (k k' : string) (v : Recruiter) (d : list (string * Recruiter)) :
  k <> k' -> dict_get k' (dict_set k v d) = dict_get k' d.
Proof.
  intros Hk. induction d as [|[k0 v0] rest IH]; simpl.
  - destruct (String.eqb_spec k k'); [contradiction|reflexivity].
  - destruct (String.eqb_spec k0 k) as [->|Hn]; simpl.
    + destruct (String.eqb_spec k k'); [contradiction|reflexivity].
    + destruct (String.eqb_spec k0 k'); [reflexivity|exact IH].
Qed.

Lemma dict_get_none (k : string) (d : list (string * Recruiter)) :
  dict_get k d = None <-> ~ In k (map fst d).
Proof.
  induction d as [|[k0 v0] rest IH]; simpl; [tauto|].
  destruct (String.eqb_spec k0 k) as [->|Hn].
  - split; [discriminate|]. intros H. exfalso. apply H. now left.
  - rewrite IH. split; [intros H [E|I]; [contradiction|auto] | tauto].
Qed.

Lemma dict_get_in (k : string) (r : Recruiter) (d : list (string * Recruiter)) :
  dict_get k d = Some r -> In (k, r) d.
Proof.
  induction d as [|[k0 v0] rest IH]; simpl; [discriminate|].
  destruct (String.eqb_spec k0 k) as [->|Hn].
  - intros [= ->]. now left.
  - intros H. right. auto.
Qed.

Lemma dict_set_keys (k : string) (v : Recruiter) (d : list (string * Recruiter)) :
  map fst (dict_set k v d)
  = match dict_get k d with
    | Some _ => map fst d
    | None => (map fst d ++ [k])%list
    end.
Proof.
  induction d as [|[k0 v0] rest IH]; simpl; [reflexivity|].
  destruct (String.eqb_spec k0 k) as [->|Hn]; simpl; [reflexivity|].
  rewrite IH. now destruct (dict_get k rest).
Qed.

Lemma dict_set_in (k : string) (v : Recruiter) (d : list (string * Recruiter))
    (kv : string * Recruiter) :
  In kv (dict_set k v d) -> kv = (k, v) \/ In kv d.
Proof.
  induction d as [|[k0 v0] rest IH]; simpl.
  - intros [<-|[]]. now left.
  - destruct (String.eqb_spec k0 k) as [->|Hn]; simpl.
    + intros [<-|H]; [now left|right; now right].
    + intros [<-|H]; [right; now left|]. destruct (IH H); [now left|right; now right].
Qed.

Lemma keyed_by_id_set (v : Recruiter) (d : list (string * Recruiter)) :
  id v <> "" -> r_email v <> "" ->
  keyed_by_id d -> keyed_by_id (dict_set (id v) v d).
Proof.
  intros Hi He [Hnd Hall]. split.
  - rewrite dict_set_keys. destruct (dict_get (id v) d) eqn:E; [exact Hnd|].
    apply dict_get_none in E.
    apply NoDup_app; [exact Hnd | repeat constructor; intros [] | ].
    intros a Ha [<-|[]]. contradiction.
  - apply Forall_forall. intros kv Hin. apply dict_set_in in Hin.
    destruct Hin as [->|Hin]; [now repeat split|].
    rewrite Forall_forall in Hall. auto.
Qed.

Lemma keyed_by_id_nil : keyed_by_id [].
Proof. split; constructor. Qed.

Lemma load_step_keyed (rows : list Recruiter) :
  forall d, keyed_by_id d -> keyed_by_id (fold_left load_step rows d).
Proof.
  induction rows as [|r rest IH]; intros d Hd; [exact Hd|].
  cbn [fold_left]. apply IH. unfold load_step.
  destruct (String.eqb_spec (id r) ""); cbn [negb andb]; [exact Hd|].
  destruct (String.eqb_spec (r_email r) ""); cbn [negb]; [exact Hd|].
  now apply keyed_by_id_set.
Qed.

Lemma find_app {A : Type} (f : A -> bool) (a b : list A) :
  find f (a ++ b) = match find f a with Some x => Some x | None => find f b end.
Proof. induction a as [|x a IH]; simpl; [reflexivity|]. now destruct (f x). Qed.

Lemma load_step_lookup (k : string) (rows : list Recruiter) :
  forall d,
    dict_get k (fold_left load_step rows d)
    = match last_row_with_id k rows with
      | Some r => Some r
      | None => dict_get k d
      end.
Proof.
  unfold last_row_with_id.
  induction rows as [|r rest IH]; intros d; [reflexivity|].
  cbn [fold_left rev]. rewrite IH, find_app.
  destruct (find _ (rev rest)); [reflexivity|]. cbn [find].
  unfold load_step.
  destruct (String.eqb_spec (id r) k) as [<-|Hk]; cbn [andb].
  - destruct (negb (id r =? "")%string && negb (r_email r =? "")%string); [|reflexivity].
    apply dict_get_set_same.
  - destruct (negb (id r =? "")%string && negb (r_email r =? "")%string); [|reflexivity].
    now apply dict_get_set_other.
Qed.

Lemma load_run (w : World) :
  _recruiters (recruiter_manager (snd (load w)))
  = fold_left load_step (rows_of (store w)) [].
Proof.
  unfold load, load_rows, bind, gets, modify, raise, ret. cbn.
  destruct (store w) as [|rows|rows msg]; reflexivity.
Qed.

(** X11.  [load] files the contacts by identifier.  Whatever the contact
    file holds, and also when reading it fails half way, the dictionary
    [load] leaves has each key once, every contact under its own
    identifier, none without identifier or address; and looking up an
    identifier gives the last row of the file that has this identifier and
    an address. *)
Theorem load_files_contacts_by_id (w : World) :
  let d := _recruiters (recruiter_manager (snd (load w))) in
  keyed_by_id d /\
  forall k, dict_get k d = last_row_with_id k (rows_of (store w)).
Proof.
  cbv zeta. rewrite load_run. split.
  - apply load_step_keyed, keyed_by_id_nil.
  - intros k. rewrite load_step_lookup. now destruct (last_row_with_id k _).
Qed.

Lemma count_recruiter_fold (l : list Recruiter) :
  forall s,
    RecruiterStats.total (fold_left count_recruiter l s)
    = RecruiterStats.total s + Py.len l /\
    forall st,
      stat_of st (fold_left count_recruiter l s)
      = stat_of st s + Py.len (filter (fun r => status_eqb (status r) st) l).
Proof.
  induction l as [|r rest IH]; intros s.
  - unfold Py.len. cbn. split; [lia|intros st; lia].
  - cbn [fold_left filter]. destruct (IH (count_recruiter s r)) as [Ht Hs].
    rewrite Ht. split.
    + rewrite len_cons. unfold count_recruiter.
      destruct (status r); cbn [RecruiterStats.total]; lia.
    + intros st. rewrite Hs. unfold count_recruiter.
      destruct (status r), st; cbn [status_eqb stat_of RecruiterStats.pending
        RecruiterStats.sent RecruiterStats.replied RecruiterStats.bounced];
        rewrite ?len_cons; lia.
Qed.

Lemma manager_get_statistics_run (w : World) :
  manager_get_statistics w
  = match manager_ensure_loaded w with
    | (Ok _, w0) =>
        (Ok (fold_left count_recruiter (dict_values (_recruiters (recruiter_manager w0)))
               {| RecruiterStats.total := 0; RecruiterStats.pending := 0;
                  RecruiterStats.sent := 0; RecruiterStats.replied := 0;
                  RecruiterStats.bounced := 0 |}), w0)
    | (Raise e, w0) => (Raise e, w0)
    end.
Proof.
  unfold manager_get_statistics, bind, gets, ret.
  now destruct (manager_ensure_loaded w) as [[[]|e] w0].
Qed.

Lemma get_by_status_run (st : status_t) (w : World) :
  get_by_status st w
  = match manager_ensure_loaded w with
    | (Ok _, w0) =>
        (Ok (filter (fun r => status_eqb (status r) st)
               (dict_values (_recruiters (recruiter_manager w0)))), w0)
    | (Raise e, w0) => (Raise e, w0)
    end.
Proof.
  unfold get_by_status, bind, gets, ret.
  now destruct (manager_ensure_loaded w) as [[[]|e] w0].
Qed.

Lemma get_all_run (w : World) :
  get_all w
  = match manager_ensure_loaded w with
    | (Ok _, w0) => (Ok (dict_values (_recruiters (recruiter_manager w0))), w0)
    | (Raise e, w0) => (Raise e, w0)
    end.
Proof.
  unfold get_all, bind, gets, ret.
  now destruct (manager_ensure_loaded w) as [[[]|e] w0].
Qed.

(** X12.  The statistics of the contact store add up.  When
    [get_statistics] returns, its total is the number of contacts
    [get_all] returns in the same world, the total is the sum of the four
    status counts, and the count of each status is the number of contacts
    [get_by_status] returns for it. *)
Theorem recruiter_statistics_add_up (w : World) (stats : RecruiterStats.t) :
  fst (manager_get_statistics w) = Ok stats ->
  RecruiterStats.total stats
  = RecruiterStats.pending stats + RecruiterStats.sent stats
    + RecruiterStats.replied stats + RecruiterStats.bounced stats
  /\ (exists everyone, fst (get_all w) = Ok everyone
                       /\ RecruiterStats.total stats = Py.len everyone)
  /\ forall st, exists l, fst (get_by_status st w) = Ok l /\ stat_of st stats = Py.len l.
Proof.
  rewrite manager_get_statistics_run, get_all_run.
  destruct (manager_ensure_loaded w) as [[[]|e] w0] eqn:E; cbn [fst]; [|discriminate].
  intros [= <-].
  set (l := dict_values (_recruiters (recruiter_manager w0))).
  destruct (count_recruiter_fold l
              {| RecruiterStats.total := 0; RecruiterStats.pending := 0;
                 RecruiterStats.sent := 0; RecruiterStats.replied := 0;
                 RecruiterStats.bounced := 0 |}) as [Ht Hs].
  cbn [RecruiterStats.total] in Ht.
  assert (Hsum : forall st, stat_of st (fold_left count_recruiter l
              {| RecruiterStats.total := 0; RecruiterStats.pending := 0;
                 RecruiterStats.sent := 0; RecruiterStats.replied := 0;
                 RecruiterStats.bounced := 0 |})
            = Py.len (filter (fun r => status_eqb (status r) st) l)).
  { intros st. rewrite Hs. destruct st; cbn; lia. }
  split; [|split].
  - pose proof (Hsum Pending) as Hp. pose proof (Hsum Sent) as Hse.
    pose proof (Hsum Replied) as Hr. pose proof (Hsum Bounced) as Hb.
    cbn [stat_of] in Hp, Hse, Hr, Hb. rewrite Ht, Hp, Hse, Hr, Hb.
    clear. induction l as [|r rest IH]; [reflexivity|].
    cbn [filter]. rewrite len_cons.
    destruct (status r); cbn [status_eqb]; rewrite ?len_cons; lia.
  - exists l. split; [reflexivity|]. rewrite Ht. lia.
  - intros st. rewrite get_by_status_run, E. eexists. split; [reflexivity|]. apply Hsum.
Qed.

Lemma dict_del_get_same (k : string) (d : list (string * Recruiter)) :
  NoDup (map fst d) -> dict_get k (dict_del k d) = None.
Proof.
  induction d as [|[k0 v0] rest IH]; simpl; [reflexivity|].
  intros Hnd. inversion Hnd as [|? ? Hnotin Hnd']; subst.
  destruct (String.eqb_spec k0 k) as [->|Hn]; simpl.
  - now apply dict_get_none.
  - destruct (String.eqb_spec k0 k); [contradiction|auto].
Qed.

Lemma dict_del_get_other (k k' : string) (d : list (string * Recruiter)) :
  k <> k' -> dict_get k' (dict_del k d) = dict_get k' d.
Proof.
  intros Hk. induction d as [|[k0 v0] rest IH]; simpl; [reflexivity|].
  destruct (String.eqb_spec k0 k) as [->|Hn]; simpl.
  - destruct (String.eqb_spec k k'); [contradiction|reflexivity].
  - now rewrite IH.
Qed.

Lemma keyed_not_in (k : string) (d : list (string * Recruiter)) :
  Forall (fun kv => fst kv = id (snd kv) /\ id (snd kv) <> "" /\ r_email (snd kv) <> "") d ->
  ~ In k (map fst d) ->
  filter (fun r => negb (id r =? k)%string) (dict_values d) = dict_values d.
Proof.
  unfold dict_values. induction d as [|[k0 v0] rest IH]; simpl; [reflexivity|].
  intros Hall Hnotin. inversion Hall as [|? ? [Hk _] Hall']; subst. simpl in Hk. subst k0.
  destruct (String.eqb_spec (id v0) k) as [E|Hn]; [tauto|]. simpl.
  f_equal. apply IH; tauto.
Qed.

Lemma dict_del_values (k : string) (d : list (string * Recruiter)) :
  keyed_by_id d ->
  dict_values (dict_del k d)
  = filter (fun r => negb (id r =? k)%string) (dict_values d).
Proof.
  intros [Hnd Hall]. induction d as [|[k0 v0] rest IH]; simpl; [reflexivity|].
  inversion Hnd as [|? ? Hnotin Hnd']; subst.
  inversion Hall as [|? ? [Hk _] Hall']; subst. simpl in Hk. subst k0.
  destruct (String.eqb_spec (id v0) k) as [<-|Hn]; simpl.
  - symmetry. now apply keyed_not_in.
  - f_equal. now apply IH.
Qed.

Lemma dict_del_in (k : string) (d : list (string * Recruiter)) (kv : string * Recruiter) :
  In kv (dict_del k d) -> In kv d.
Proof.
  induction d as [|[k0 v0] rest IH]; simpl; [tauto|].
  destruct (String.eqb k0 k); simpl; [tauto|]. intros [H|H]; auto.
Qed.

Lemma dict_del_nodup (k : string) (d : list (string * Recruiter)) :
  NoDup (map fst d) -> NoDup (map fst (dict_del k d)).
Proof.
  induction d as [|[k0 v0] rest IH]; simpl; [auto|].
  intros Hnd. inversion Hnd as [|? ? Hnotin Hnd']; subst.
  destruct (String.eqb k0 k); simpl; [exact Hnd'|].
  constructor; [|auto]. intros Hin. apply Hnotin.
  apply in_map_iff in Hin. destruct Hin as ([k1 v1] & Hk & Hin). simpl in Hk. subst k1.
  apply dict_del_in in Hin. apply in_map_iff. now exists (k0, v1).
Qed.

Lemma keyed_by_id_del (k : string) (d : list (string * Recruiter)) :
  keyed_by_id d -> keyed_by_id (dict_del k d).
Proof.
  intros [Hnd Hall]. split; [now apply dict_del_nodup|].
  rewrite Forall_forall in *. intros kv Hin. apply Hall. eapply dict_del_in, Hin.
Qed.

Lemma manager_ensure_loaded_loaded (w : World) :
  _recruiters_loaded (recruiter_manager w) = true ->
  manager_ensure_loaded w = (Ok tt, w).
Proof. intros H. unfold manager_ensure_loaded, bind, gets, ret. cbn. now rewrite H. Qed.

Lemma get_by_id_run (rid : string) (w : World) :
  get_by_id rid w
  = match manager_ensure_loaded w with
    | (Ok _, w0) =>
        match dict_get rid (_recruiters (recruiter_manager w0)) with
        | Some r => (Ok r, w0)
        | None => (Raise (RecruiterNotFoundError
                            ("Recruiter with ID '" ++ rid ++ "' not found")), w0)
        end
    | (Raise e, w0) => (Raise e, w0)
    end.
Proof.
  unfold get_by_id, bind, gets, raise, ret.
  destruct (manager_ensure_loaded w) as [[[]|e] w0]; [|reflexivity].
  now destruct (dict_get rid _).
Qed.

Lemma delete_run (env : Env) (rid : string) (w : World) :
  delete env rid w
  = match manager_ensure_loaded w with
    | (Ok _, w0) =>
        match dict_get rid (_recruiters (recruiter_manager w0)) with
        | Some _ =>
            save env (set_recruiters (dict_del rid (_recruiters (recruiter_manager w0))) w0)
        | None => (Raise (RecruiterNotFoundError
                            ("Recruiter with ID '" ++ rid ++ "' not found")), w0)
        end
    | (Raise e, w0) => (Raise e, w0)
    end.
Proof.
  unfold delete, bind, gets, modify, raise, ret.
  destruct (manager_ensure_loaded w) as [[[]|e] w0]; [|reflexivity].
  now destruct (dict_get rid _).
Qed.

Lemma save_manager (env : Env) (w : World) :
  recruiter_manager (snd (save env w)) = recruiter_manager w
  /\ store_saves (snd (save env w)) = S (store_saves w)
  /\ (fst (save env w) = Ok tt <-> store_save_fate env (store_saves w) = SaveOk).
Proof.
  unfold save, bind, gets, modify, raise, ret. cbn.
  destruct (store_save_fate env (store_saves w)); cbn; repeat split; try discriminate; auto.
Qed.

(** X13.  [delete] of a contact that cannot be looked up fails like the
    lookup and attempts no save: whenever [get_by_id] raises, [delete]
    raises the same exception and leaves the world [get_by_id] leaves, with
    the contact file and the count of saves as they were. *)
Theorem delete_unknown_saves_nothing (env : Env) (rid : string) (w : World) (e : exn) :
  fst (get_by_id rid w) = Raise e ->
  delete env rid w = (Raise e, snd (get_by_id rid w))
  /\ store (snd (delete env rid w)) = store w
  /\ store_saves (snd (delete env rid w)) = store_saves w.
Proof.
  rewrite delete_run, get_by_id_run.
  assert (Hfr : store (snd (manager_ensure_loaded w)) = store w
                /\ store_saves (snd (manager_ensure_loaded w)) = store_saves w).
  { unfold manager_ensure_loaded, load, load_rows, bind, gets, modify, raise, ret. cbn.
    destruct (_recruiters_loaded (recruiter_manager w)); cbn; [now split|].
    destruct (store w) eqn:Es; cbn; rewrite ?Es; now split. }
  destruct (manager_ensure_loaded w) as [[[]|e0] w0]; cbn [fst snd] in *.
  - destruct (dict_get rid _); cbn [fst snd]; [discriminate|].
    intros [= <-]. tauto.
  - intros [= <-]. tauto.
Qed.

(** X14.  [delete] forgets the contact before it saves.  In a loaded store
    whose contacts are filed by identifier, deleting a known contact makes
    one save attempt; it returns exactly when the save succeeds; and
    whether the save succeeds or not, the process no longer knows the
    contact afterwards: [get_by_id] raises [RecruiterNotFoundError],
    [get_all] returns the former contacts without it, and the other
    lookups are unchanged. *)
Theorem delete_forgets_contact (env : Env) (rid : string) (w : World) (r : Recruiter) :
  _recruiters_loaded (recruiter_manager w) = true ->
  keyed_by_id (_recruiters (recruiter_manager w)) ->
  dict_get rid (_recruiters (recruiter_manager w)) = Some r ->
  let w' := snd (delete env rid w) in
  store_saves w' = S (store_saves w)
  /\ (fst (delete env rid w) = Ok tt <-> store_save_fate env (store_saves w) = SaveOk)
  /\ fst (get_by_id rid w')
     = Raise (RecruiterNotFoundError ("Recruiter with ID '" ++ rid ++ "' not found"))
  /\ fst (get_all w')
     = Ok (filter (fun x => negb (id x =? rid)%string)
             (dict_values (_recruiters (recruiter_manager w))))
  /\ (forall k, k <> rid ->
        fst (get_by_id k w') = fst (get_by_id k w))
  /\ keyed_by_id (_recruiters (recruiter_manager w')).
Proof.
  intros Hl Hk Hget w'. subst w'.
  rewrite delete_run, (manager_ensure_loaded_loaded w Hl), Hget.
  set (w1 := set_recruiters (dict_del rid (_recruiters (recruiter_manager w))) w).
  destruct (save_manager env w1) as (Hm & Hs & Hok).
  assert (Hl' : _recruiters_loaded (recruiter_manager (snd (save env w1))) = true)
    by (rewrite Hm; exact Hl).
  assert (Hd : _recruiters (recruiter_manager (snd (save env w1)))
               = dict_del rid (_recruiters (recruiter_manager w)))
    by (rewrite Hm; reflexivity).
  split; [exact Hs|]. split; [exact Hok|]. split; [|split; [|split]].
  - rewrite get_by_id_run, (manager_ensure_loaded_loaded _ Hl'), Hd.
    rewrite dict_del_get_same; [reflexivity|apply Hk].
  - rewrite get_all_run, (manager_ensure_loaded_loaded _ Hl'), Hd. cbn [fst].
    now rewrite dict_del_values.
  - intros k Hne.
    rewrite !get_by_id_run, (manager_ensure_loaded_loaded _ Hl'),
      (manager_ensure_loaded_loaded _ Hl), Hd.
    rewrite dict_del_get_other by congruence.
    now destruct (dict_get k _).
  - rewrite Hd. now apply keyed_by_id_del.
Qed.

Lemma dict_set_values (v : Recruiter) (d : list (string * Recruiter)) :
  keyed_by_id d -> In (id v) (map fst d) ->
  dict_values (dict_set (id v) v d)
  = map (fun x => if (id x =? id v)%string then v else x) (dict_values d).
Proof.
  intros [Hnd Hall] Hin. induction d as [|[k0 v0] rest IH]; simpl; [destruct Hin|].
  inversion Hnd as [|? ? Hnotin Hnd']; subst.
  inversion Hall as [|? ? [Hk _] Hall']; subst. simpl in Hk. subst k0.
  destruct (String.eqb_spec (id v0) (id v)) as [E|Hn]; simpl.
  - f_equal. rewrite E in Hnotin. clear - Hnotin Hall'.
    induction rest as [|[k1 v1] rest IH]; simpl; [reflexivity|].
    inversion Hall' as [|? ? [Hk _] Hall'']; subst. simpl in Hk. subst k1.
    simpl in Hnotin.
    destruct (String.eqb_spec (id v1) (id v)); [tauto|]. f_equal. apply IH; tauto.
  - f_equal. apply IH; auto. destruct Hin as [Hin|Hin]; [simpl in Hin; contradiction|exact Hin].
Qed.

Lemma mark_sent_run (env : Env) (rid : string) (w : World) (r : Recruiter) :
  _recruiters_loaded (recruiter_manager w) = true ->
  dict_get rid (_recruiters (recruiter_manager w)) = Some r ->
  mark_sent env rid w
  = let r' := with_status Sent (Some (clock env (ticks w))) r in
    let w1 := set_recruiters (dict_set rid r' (_recruiters (recruiter_manager w)))
                (set_ticks (S (ticks w)) w) in
    match save env w1 with
    | (Ok _, w2) => (Ok r', w2)
    | (Raise e, w2) => (Raise e, w2)
    end.
Proof.
  intros Hl Hget.
  unfold mark_sent, update_status_and_time, get_by_id, manager_ensure_loaded,
    bind, now, gets, modify, raise, ret. cbn. rewrite Hl. cbn. rewrite Hl. cbn.
  rewrite Hget. cbn. reflexivity.
Qed.

(** X15.  A contact marked as sent is no longer pending.  In a loaded
    store whose contacts are filed by identifier, after [mark_sent(id)] has
    run for a known contact, whether its save succeeded or not,
    [get_pending] returns the contacts that were pending before, in the
    same order, without that one; and the contacts are still filed by
    identifier. *)
Theorem mark_sent_leaves_pending (env : Env) (rid : string) (w : World) (r : Recruiter) :
  _recruiters_loaded (recruiter_manager w) = true ->
  keyed_by_id (_recruiters (recruiter_manager w)) ->
  dict_get rid (_recruiters (recruiter_manager w)) = Some r ->
  let w' := snd (mark_sent env rid w) in
  (exists before, fst (get_pending w) = Ok before
     /\ fst (get_pending w') = Ok (filter (fun x => negb (id x =? rid)%string) before))
  /\ keyed_by_id (_recruiters (recruiter_manager w')).
Proof.
  intros Hl Hk Hget w'. subst w'.
  rewrite (mark_sent_run env rid w r Hl Hget). cbv zeta.
  set (r' := with_status Sent (Some (clock env (ticks w))) r).
  set (w1 := set_recruiters _ _).
  destruct (save_manager env w1) as (Hm & _ & _).
  assert (Hrid : rid = id r').
  { destruct Hk as [_ Hall]. rewrite Forall_forall in Hall.
    apply dict_get_in in Hget. now destruct (Hall _ Hget) as [Hid _]. }
  assert (Hw2 : recruiter_manager (snd (match save env w1 with
                                        | (Ok _, w2) => (Ok r', w2)
                                        | (Raise e, w2) => (Raise e, w2)
                                        end)) = recruiter_manager w1).
  { destruct (save env w1) as [[[]|e] w2]; exact Hm. }
  assert (Hl' : _recruiters_loaded (recruiter_manager w1) = true) by exact Hl.
  assert (Hin : In (id r') (map fst (_recruiters (recruiter_manager w)))).
  { rewrite <- Hrid. apply dict_get_in in Hget. apply in_map_iff. now exists (rid, r). }
  split.
  - unfold get_pending. rewrite !get_by_status_run.
    rewrite (manager_ensure_loaded_loaded w Hl).
    rewrite manager_ensure_loaded_loaded by (rewrite Hw2; exact Hl').
    eexists. split; [reflexivity|]. cbn [fst]. rewrite Hw2.
    change (_recruiters (recruiter_manager w1))
      with (dict_set rid r' (_recruiters (recruiter_manager w))).
    rewrite Hrid at 1. rewrite (dict_set_values r' _ Hk Hin), <- Hrid.
    generalize (dict_values (_recruiters (recruiter_manager w))). intros l.
    induction l as [|x l IH]; [reflexivity|]. cbn [map filter].
    injection IH as IH. f_equal.
    destruct (id x =? rid)%string eqn:E.
    + change (status r') with Sent. cbn [status_eqb].
      destruct (status_eqb (status x) Pending); cbn [filter]; rewrite ?E; cbn [negb];
        exact IH.
    + destruct (status_eqb (status x) Pending); cbn [filter]; rewrite ?E; cbn [negb];
        [now rewrite IH|exact IH].
  - rewrite Hw2.
    change (_recruiters (recruiter_manager w1))
      with (dict_set rid r' (_recruiters (recruiter_manager w))).
    rewrite Hrid. destruct Hk as [Hnd Hall].
    pose proof Hall as Hall0. rewrite Forall_forall in Hall0.
    apply dict_get_in in Hget. destruct (Hall0 _ Hget) as (_ & Hi & He).
    apply keyed_by_id_set; [exact Hi | exact He | now split].
Qed.

(** ** The bulk send of the web interface *)

Lemma sse_get_set_same (k : string) (v : Sse.BulkSendSession) (d : Sse.sessions) :
  Sse.get k (Sse.set k v d) = Some v.
Proof.
  induction d as [|[k' v'] rest IH]; simpl.
  - now rewrite String.eqb_refl.
  - destruct (String.eqb k' k) eqn:E; simpl.
    + now rewrite String.eqb_refl.
    + now rewrite E.
Qed.

Lemma sse_get_set_other (k k' : string) (v : Sse.BulkSendSession) (d : Sse.sessions) :
  k <> k' -> Sse.get k' (Sse.set k v d) = Sse.get k' d.
Proof.
  intros Hk. induction d as [|[k0 v0] rest IH]; simpl.
  - destruct (String.eqb_spec k k'); [contradiction|reflexivity].
  - destruct (String.eqb_spec k0 k) as [E|Hn]; simpl.
    + subst k0. destruct (String.eqb_spec k k'); [contradiction|reflexivity].
    + destruct (String.eqb_spec k0 k'); [reflexivity|exact IH].
Qed.



Lemma update_session_found (sid : string) (s : Sse.BulkSendSession)
    (c : option Z) (ce st : option string) (se fa sk : option Z) (er : option ErrorEntry)
    (ss : Sse.sessions) (w : World) :
  Sse.get sid ss = Some s ->
  update_session sid c ce st se fa sk er ss w
  = (Ok (Some (assign s c ce st se fa sk er)), w,
     Sse.set sid (assign s c ce st se fa sk er) ss).
Proof.
  intros H. unfold update_session, wbind, gets_sessions, modify_sessions, wret.
  now rewrite H.
Qed.

Lemma update_session_missing (sid : string)
    (c : option Z) (ce st : option string) (se fa sk : option Z) (er : option ErrorEntry)
    (ss : Sse.sessions) (w : World) :
  Sse.get sid ss = None ->
  update_session sid c ce st se fa sk er ss w = (Ok None, w, ss).
Proof.
  intros H. unfold update_session, wbind, gets_sessions, modify_sessions, wret.
  now rewrite H.
Qed.


Lemma run_loop_body_missing (env : Env) (sid tpl : string) (dry : bool) (n i : Z)
    (r : Recruiter) (res : Results) (ss : Sse.sessions) (w : World) :
  Sse.get sid ss = None ->
  exists res1 w1,
    loop_body env tpl None dry false n i r res w = (Ok res1, w1) /\
    run_loop_body env sid tpl dry n i r (sent res, failed res, skipped res) ss w
    = (Ok (sent res1, failed res1, skipped res1), w1, ss).
Proof.
  intros Hget.
  rewrite loop_body_run. cbv zeta. unfold notified.
  unfold run_loop_body, wbind.
  rewrite (update_session_missing sid _ _ _ _ _ _ _ ss w Hget).
  unfold lift at 1. rewrite can_send_verdict.
  destruct (verdict env w) as [[|] reason]; cbn [fst snd negb].
  - unfold wtry_except, wbind, lift.
    destruct (send_email env r tpl None None dry (gate_world w)) as [[[[|] message]|e] w2];
      cbn [fst snd]; unfold wret at 1;
      rewrite ?(update_session_missing sid _ _ _ _ _ _ _ ss w2 Hget);
      unfold wret at 1;
      rewrite ?(update_session_missing sid _ _ _ _ _ _ _ ss w2 Hget);
      eexists; exists (if negb dry && (i <? n - 1) && (delay env >? 0)
                       then emit (EvSleep (delay env)) w2 else w2);
      (split; [reflexivity|]);
      unfold wait_for_delay, modify, ret, wret;
      (destruct (negb dry && (i <? n - 1)); cbn [andb];
        [destruct (delay env >? 0)|]); reflexivity.
  - rewrite (update_session_missing sid _ _ _ _ _ _ _ ss _ Hget). unfold wret.
    eexists. eexists. split; reflexivity.
Qed.



Lemma run_loop_missing (env : Env) (sid tpl : string) (dry : bool) (n : Z)
    (l : list Recruiter) :
  forall (i : Z) (res : Results) (ss : Sse.sessions) (w : World),
    Sse.get sid ss = None ->
    exists res1 w1,
      bulk_loop env tpl None dry false n i l res w = (Ok res1, w1) /\
      run_loop env sid tpl dry n i l (sent res, failed res, skipped res) ss w
      = (Ok (sent res1, failed res1, skipped res1), w1, ss).
Proof.
  induction l as [|r rest IH]; intros i res ss w Hget.
  - exists res, w. split; reflexivity.
  - destruct (run_loop_body_missing env sid tpl dry n i r res ss w Hget)
      as (res1 & w1 & Hlib & Hweb).
    destruct (IH (i + 1) res1 ss w1 Hget) as (res2 & w2 & Hlib2 & Hweb2).
    exists res2, w2. split.
    + now rewrite (bulk_loop_cons _ _ _ _ _ _ _ _ _ _ _ _ _ Hlib).
    + cbn [run_loop]. unfold wbind. now rewrite Hweb, Hweb2.
Qed.


(** X17.  [_run_bulk_send] does not need its session.  When no session is
    registered under the identifier (it was deleted, or never created),
    the contacts are mailed all the same: the mailer ends exactly as after
    [send_to_all_pending], and the session dictionary is untouched. *)
Theorem web_bulk_send_without_session (env : Env) (sid tpl : string) (dry : bool)
    (ss : Sse.sessions) (w : World) :
  Sse.get sid ss = None ->
  _run_bulk_send env sid tpl dry ss w
  = match send_to_all_pending env (Some tpl) None dry false w with
    | (Ok _, w') => (Ok tt, w', ss)
    | (Raise e, w') => (Raise e, w', ss)
    end.
Proof.
  intros Hget.
  rewrite send_to_all_pending_run. unfold _run_bulk_send, wbind, lift.
  destruct (get_pending w) as [[pending|e] w0]; [|reflexivity].
  destruct pending as [|r rest].
  - cbn [bulk_loop]. unfold ret.
    now rewrite (update_session_missing sid _ _ _ _ _ _ _ ss w0 Hget).
  - rewrite (update_session_missing sid _ _ _ _ _ _ _ ss w0 Hget).
    set (res0 := {| total := Py.len (r :: rest); sent := 0; failed := 0;
                    skipped := 0; errors := [] |}).
    destruct (run_loop_missing env sid tpl dry (Py.len (r :: rest)) (r :: rest) 0 res0
                ss w0 Hget) as (res1 & w1 & Hlib & Hweb).
    rewrite Hlib. change (0, 0, 0) with (sent res0, failed res0, skipped res0).
    rewrite Hweb.
    now rewrite (update_session_missing sid _ _ _ _ _ _ _ ss w1 Hget).
Qed.

(** X18.  Sessions are told apart by their identifier.  Registering,
    updating or deleting the session [sid] never changes what
    [get_session] returns for another identifier.  After [create_session]
    the new session is found, with zero counters and the status pending;
    after [update_session] on a registered session the identifier and the
    total are as before, and on an unregistered one nothing is stored;
    after [delete_session] the session is found no more. *)
Theorem sessions_are_independent (sid other : string) (total : Z)
    (c : option Z) (ce st : option string) (se fa sk : option Z) (er : option ErrorEntry)
    (ss : Sse.sessions) (w : World) :
  sid <> other ->
  NoDup (map fst ss) ->
  let created := snd (create_session sid total ss w) in
  let updated := snd (update_session sid c ce st se fa sk er ss w) in
  let deleted := snd (delete_session sid ss w) in
  fst (get_session other created w) = (Ok (Sse.get other ss), w)
  /\ fst (get_session other updated w) = (Ok (Sse.get other ss), w)
  /\ fst (get_session other deleted w) = (Ok (Sse.get other ss), w)
  /\ Sse.get sid created
     = Some {| Sse.session_id := sid; Sse.total := total; Sse.current := 0;
               Sse.current_email := ""; Sse.status := "pending"; Sse.sent := 0;
               Sse.failed := 0; Sse.skipped := 0; Sse.errors := [] |}
  /\ match Sse.get sid ss with
     | Some s => exists s', Sse.get sid updated = Some s'
                            /\ Sse.session_id s' = Sse.session_id s
                            /\ Sse.total s' = Sse.total s
     | None => updated = ss
     end
  /\ Sse.get sid deleted = None.
Proof.
  intros Hne Hnd. cbv zeta.
  unfold get_session, gets_sessions, create_session, delete_session, wbind,
    modify_sessions, wret. cbn [fst snd].
  split; [now rewrite sse_get_set_other|]. split; [|split; [|split; [|split]]].
  - destruct (Sse.get sid ss) as [s|] eqn:E.
    + rewrite (update_session_found sid s _ _ _ _ _ _ _ ss w E). cbn [snd].
      now rewrite sse_get_set_other.
    + now rewrite (update_session_missing sid _ _ _ _ _ _ _ ss w E).
  - f_equal. f_equal. clear Hnd.
    induction ss as [|[k v] rest IH]; simpl; [reflexivity|].
    destruct (String.eqb_spec k sid) as [E|Hn]; simpl.
    + subst k. destruct (String.eqb_spec sid other); [contradiction|reflexivity].
    + now rewrite IH.
  - apply sse_get_set_same.
  - destruct (Sse.get sid ss) as [s|] eqn:E.
    + rewrite (update_session_found sid s _ _ _ _ _ _ _ ss w E). cbn [snd].
      eexists. split; [apply sse_get_set_same|]. split; reflexivity.
    + now rewrite (update_session_missing sid _ _ _ _ _ _ _ ss w E).
  - induction ss as [|[k v] rest IH]; simpl; [reflexivity|].
    inversion Hnd as [|? ? Hnotin Hnd']; subst.
    destruct (String.eqb_spec k sid) as [E|Hn]; simpl.
    + subst k. clear - Hnotin. induction rest as [|[k1 v1] rest IH]; simpl; [reflexivity|].
      simpl in Hnotin. destruct (String.eqb_spec k1 sid); [tauto|]. apply IH. tauto.
    + destruct (String.eqb_spec k sid); [contradiction|]. now apply IH.
Qed.

(** ** The checks of [send_email] *)

(** X19.  [send_email] checks the rate gate first, renders second and
    looks for the credentials third, and gives up at the first check that
    fails, before it contacts the server.  A real send that is refused by
    the gate raises [RateLimitError] even if the template is broken and the
    credentials are missing; one whose template fails raises the
    renderer's exception even if the credentials are missing; one without
    credentials raises [EmailError].  In each case no SMTP session is
    opened and nothing is recorded: the world is the one the gate left.  A
    dry run never looks at the credentials. *)
Theorem send_email_checks_in_order (env : Env) (r : Recruiter) (tpl : string)
    (cv : option (list (string * string))) (ar : option bool) (w : World) :
  (fst (verdict env w) = false ->
   send_email env r tpl cv ar false w
   = (Raise (RateLimitError ("Rate limit exceeded: " ++ snd (verdict env w))),
      gate_world w))
  /\ (forall e,
        fst (verdict env w) = true -> render env tpl r cv = Raise e ->
        send_email env r tpl cv ar false w = (Raise e, gate_world w))
  /\ (forall subj body,
        fst (verdict env w) = true -> render env tpl r cv = Ok (subj, body) ->
        credentials_set env = false ->
        send_email env r tpl cv ar false w
        = (Raise (EmailError "Gmail credentials not configured. Set GMAIL_EMAIL and GMAIL_APP_PASSWORD in .env"),
           gate_world w)
        /\ send_email env r tpl cv ar true w
           = (Ok (true, "DRY RUN - Would send:" ++ nl
                          ++ preview_text (r_email r) subj body),
              gate_world w))
  /\ smtp_sessions (gate_world w) = smtp_sessions w
  /\ trace (gate_world w) = trace w
  /\ untouched w (gate_world w).
Proof.
  destruct (gate_world_trace w) as [Ht Hs].
  split; [|split; [|split; [|split; [exact Hs|split; [exact Ht|apply untouched_gate]]]]].
  - intros Hv. unfold send_email, bind. rewrite check_rate_limit_run, Hv. reflexivity.
  - intros e Hv Hr. unfold send_email, bind, render_template.
    rewrite check_rate_limit_run, Hv, Hr. reflexivity.
  - intros subj body Hv Hr Hc. split.
    + unfold send_email, bind, render_template.
      rewrite check_rate_limit_run, Hv, Hr.
      unfold credentials_set in Hc. apply negb_false_iff in Hc. rewrite Hc. reflexivity.
    + rewrite send_email_dry_run, Hv, Hr. reflexivity.
Qed.

Lemma preview_email_run (env : Env) (r : Recruiter) (tpl : string)
    (cv : option (list (string * string))) (w : World) :
  preview_email env r tpl cv w
  = (match render env tpl r cv with
     | Ok (subj, body) => Ok (preview_text (r_email r) subj body)
     | Raise e => Raise e
     end, w).
Proof.
  unfold preview_email, render_preview, render_template, bind.
  destruct (render env tpl r cv) as [[subj body]|e]; [|reflexivity].
  unfold ret. now rewrite strip_preview.
Qed.

(** X20.  [preview_email] is the preview of a dry run without the gate.
    It reads neither the clock nor the ledger and changes nothing, and it
    answers also when the rate limit is exhausted.  A dry run of
    [send_email] in the same world is refused by the gate or else gives
    what [preview_email] gives: the same exception, or the same text behind
    the line DRY RUN - Would send:. *)
Theorem preview_email_is_ungated_dry_run (env : Env) (r : Recruiter) (tpl : string)
    (cv : option (list (string * string))) (ar : option bool) (w : World) :
  snd (preview_email env r tpl cv w) = w
  /\ fst (send_email env r tpl cv ar true w)
     = if fst (verdict env w) then
         match fst (preview_email env r tpl cv w) with
         | Ok p => Ok (true, "DRY RUN - Would send:" ++ nl ++ p)
         | Raise e => Raise e
         end
       else Raise (RateLimitError ("Rate limit exceeded: " ++ snd (verdict env w))).
Proof.
  rewrite send_email_dry_run, preview_email_run. cbn [fst snd].
  split; [reflexivity|].
  destruct (fst (verdict env w)); [|reflexivity].
  now destruct (render env tpl r cv) as [[subj body]|e].
Qed.

(** ** The columns of the CSV file *)

Lemma str_int_inj (a b : Z) : Py.str_int a = Py.str_int b -> a = b.
Proof.
  unfold Py.str_int. intros H. apply DecimalZ.to_int_inj.
  assert (Hn : forall z, Z.to_int z <> Decimal.Pos Decimal.Nil
                         /\ Z.to_int z <> Decimal.Neg Decimal.Nil).
  { intros [|p|p]; cbn; split; try discriminate; intros [= E];
      now apply DecimalPos.Unsigned.to_uint_nonnil in E. }
  destruct (Hn a) as [Ha1 Ha2]. destruct (Hn b) as [Hb1 Hb2].
  pose proof (NilZero.isi _ Ha1 Ha2) as Ea. pose proof (NilZero.isi _ Hb1 Hb2) as Eb.
  rewrite H in Ea. rewrite Ea in Eb. now injection Eb.
Qed.

Lemma custom_field_header_inj (a b : Z) :
  custom_field_header a = custom_field_header b -> a = b.
Proof. unfold custom_field_header. cbn [append]. intros [= H]. now apply str_int_inj. Qed.

Lemma range_from_snoc (n : nat) :
  forall a, range_from a (S n) = (range_from a n ++ [a + Z.of_nat n])%list.
Proof.
  induction n as [|n IH]; intros a.
  - cbn. now rewrite Z.add_0_r.
  - change (range_from a (S (S n))) with (a :: range_from (a + 1) (S n)).
    rewrite IH. cbn [range_from app]. do 2 f_equal. f_equal. lia.
Qed.

Lemma range_from_in (n : nat) :
  forall a x, In x (range_from a n) <-> a <= x < a + Z.of_nat n.
Proof.
  induction n as [|n IH]; intros a x.
  - cbn. lia.
  - cbn [range_from In]. rewrite IH. lia.
Qed.

Lemma range_from_nodup (n : nat) : forall a, NoDup (range_from a n).
Proof.
  induction n as [|n IH]; intros a; cbn [range_from]; constructor; [|apply IH].
  rewrite range_from_in. lia.
Qed.

(** The columns once the custom fields up to [k] are in place. *)
Lemma insert_minus2_two {A : Type} (x a b : A) (pre : list A) :
  list_insert_minus2 x (pre ++ [a; b]) = (pre ++ [x; a; b])%list.
Proof.
  unfold list_insert_minus2. rewrite length_app. cbn [List.length].
  replace (List.length pre + 2 - 2)%nat with (List.length pre + 0)%nat by lia.
  rewrite firstn_app_2, skipn_app, Nat.add_0_r, skipn_all. cbn [firstn].
  rewrite app_nil_r.
  replace (List.length pre - List.length pre)%nat with 0%nat by lia.
  reflexivity.
Qed.

Lemma existsb_eqb_false (x : string) (l : list string) :
  ~ In x l -> existsb (String.eqb x) l = false.
Proof.
  intros H. induction l as [|y l IH]; [reflexivity|]. cbn [existsb].
  destruct (String.eqb_spec x y) as [->|Hn]; [exfalso; apply H; now left|].
  apply IH. intros Hin. apply H. now right.
Qed.

Lemma fieldnames_shape (k : nat) :
  ~ In (custom_field_header (1 + Z.of_nat k))
       (["id"; "email"; "first_name"; "last_name"; "title"; "company"; "job_title";
         "greeting_style"]
        ++ map custom_field_header (range_from 1 k) ++ ["status"; "last_contacted"])%list.
Proof.
  intros Hin. apply in_app_or in Hin. destruct Hin as [Hin|Hin].
  - unfold custom_field_header in Hin. cbn [append In] in Hin.
    repeat (destruct Hin as [Hin|Hin]; [discriminate Hin|]). exact Hin.
  - apply in_app_or in Hin. destruct Hin as [Hin|Hin].
    + apply in_map_iff in Hin. destruct Hin as (j & Hj & Hin).
      apply custom_field_header_inj in Hj. apply range_from_in in Hin. lia.
    + unfold custom_field_header in Hin. cbn [append In] in Hin.
      repeat (destruct Hin as [Hin|Hin]; [discriminate Hin|]). exact Hin.
Qed.

Lemma fieldnames_fold (n : nat) :
  forall k : nat,
    fold_left
      (fun headers i =>
         if existsb (String.eqb (custom_field_header i)) headers then headers
         else list_insert_minus2 (custom_field_header i) headers)
      (range_from (1 + Z.of_nat k) n)
      (["id"; "email"; "first_name"; "last_name"; "title"; "company"; "job_title";
        "greeting_style"]
       ++ map custom_field_header (range_from 1 k) ++ ["status"; "last_contacted"])%list
    = (["id"; "email"; "first_name"; "last_name"; "title"; "company"; "job_title";
        "greeting_style"]
       ++ map custom_field_header (range_from 1 (k + n))
       ++ ["status"; "last_contacted"])%list.
Proof.
  induction n as [|n IH]; intros k.
  - now rewrite Nat.add_0_r.
  - cbn [range_from fold_left].
    rewrite (existsb_eqb_false _ _ (fieldnames_shape k)).
    rewrite !app_assoc, insert_minus2_two, <- !app_assoc.
    replace (1 + Z.of_nat k + 1) with (1 + Z.of_nat (S k)) by lia.
    replace (k + S n)%nat with (S k + n)%nat by lia.
    rewrite <- IH. f_equal. rewrite range_from_snoc, map_app. cbn [map].
    now rewrite <- !app_assoc.
Qed.

Lemma py_max_is_max (a b : Z) : Py.max a b = Z.max a b.
Proof. unfold Py.max. destruct (Z.ltb_spec a b); lia. Qed.

Lemma fold_py_max (l : list Z) : forall x, fold_left Py.max l x = fold_right Z.max x l.
Proof.
  induction l as [|y l IH]; intros x; [reflexivity|].
  cbn [fold_left fold_right]. rewrite IH, py_max_is_max.
  clear IH. revert x y. induction l as [|z l IH]; intros x y; cbn [fold_right]; [lia|].
  rewrite IH. lia.
Qed.

Lemma widest_run (rs : list Recruiter) :
  Py.max (py_max_default (map (fun r => Py.len (custom_fields r)) rs) 2) 2 = widest rs.
Proof.
  rewrite py_max_is_max. unfold widest, py_max_default.
  destruct rs as [|r rs]; [reflexivity|]. cbn [map fold_right].
  rewrite fold_py_max.
  assert (H : forall x, Z.max (fold_right Z.max x
                                 (map (fun r => Py.len (custom_fields r)) rs)) 2
                        = Z.max x (fold_right (fun r m => Z.max (Py.len (custom_fields r)) m)
                                     2 rs)).
  { induction rs as [|r0 rs IH]; intros x; cbn [map fold_right]; [lia|].
    specialize (IH x). lia. }
  apply H.
Qed.

Lemma widest_bounds (rs : list Recruiter) :
  2 <= widest rs /\ forall r, In r rs -> Py.len (custom_fields r) <= widest rs.
Proof.
  unfold widest. induction rs as [|r0 rs [IH1 IH2]]; cbn [fold_right].
  - split; [lia|intros r []].
  - split; [lia|]. intros r [<-|Hin]; [lia|]. specialize (IH2 r Hin). lia.
Qed.

Lemma csv_fieldnames_run (rs : list Recruiter) :
  csv_fieldnames rs
  = (["id"; "email"; "first_name"; "last_name"; "title"; "company"; "job_title";
      "greeting_style"]
     ++ map custom_field_header (range 1 (widest rs + 1))
     ++ ["status"; "last_contacted"])%list.
Proof.
  unfold csv_fieldnames. rewrite widest_run.
  destruct (widest_bounds rs) as [H2 _].
  unfold range.
  replace (Z.to_nat (widest rs + 1 - 1)) with (2 + Z.to_nat (widest rs + 1 - 3))%nat by lia.
  rewrite <- (fieldnames_fold (Z.to_nat (widest rs + 1 - 3)) 2). reflexivity.
Qed.

(** X21.  The header [_save_csv] writes has a column for everything
    [to_csv_row] produces.  For any contacts, the field names are the eight
    fixed columns, then [custom_field_1] up to [custom_field_m] in order,
    [m] being the largest number of custom fields of a contact and at least
    2, then [status] and [last_contacted]; no column occurs twice; every
    key of every contact's row is among them, so the writer, which ignores
    unknown keys, drops no custom field; and there is no column for the
    department. *)
Theorem csv_header_covers_rows (rs : list Recruiter) :
  csv_fieldnames rs
  = (["id"; "email"; "first_name"; "last_name"; "title"; "company"; "job_title";
      "greeting_style"]
     ++ map custom_field_header (range 1 (widest rs + 1))
     ++ ["status"; "last_contacted"])%list
  /\ NoDup (csv_fieldnames rs)
  /\ (forall r, In r rs -> incl (to_csv_row_keys r) (csv_fieldnames rs))
  /\ ~ In "department" (csv_fieldnames rs).
Proof.
  split; [apply csv_fieldnames_run|]. rewrite csv_fieldnames_run.
  destruct (widest_bounds rs) as [H2 Hw].
  assert (Hcf : forall x l, In x (map custom_field_header l) ->
                            exists i, x = custom_field_header i)
    by (intros x l Hin; apply in_map_iff in Hin; destruct Hin as (i & <- & _); eauto).
  split; [|split].
  - apply NoDup_app.
    + repeat constructor; cbn [In]; intuition discriminate.
    + apply NoDup_app.
      * apply Injective_map_NoDup; [|apply range_from_nodup].
        intros a b. apply custom_field_header_inj.
      * repeat constructor; cbn [In]; intuition discriminate.
      * intros x Hin Hin2. destruct (Hcf _ _ Hin) as [i ->].
        unfold custom_field_header in Hin2. cbn [append In] in Hin2.
        intuition discriminate.
    + intros x Hin Hin2. apply in_app_or in Hin2. destruct Hin2 as [Hin2|Hin2].
      * destruct (Hcf _ _ Hin2) as [i ->].
        unfold custom_field_header in Hin. cbn [append In] in Hin. intuition discriminate.
      * cbn [In] in Hin, Hin2. intuition (subst; discriminate).
  - intros r Hr x Hx. unfold to_csv_row_keys in Hx. apply in_app_or in Hx.
    destruct Hx as [Hx|Hx].
    + cbn [In] in Hx. apply in_or_app.
      repeat (destruct Hx as [<-|Hx];
              [try (left; cbn [In]; tauto);
               right; apply in_or_app; right; cbn [In]; tauto|]).
      destruct Hx.
    + apply in_or_app. right. apply in_or_app. left.
      apply in_map_iff in Hx. destruct Hx as (i & <- & Hi).
      apply in_map. unfold range in *. rewrite range_from_in in *.
      specialize (Hw r Hr). pose proof (len_nonneg (custom_fields r)). lia.
  - intros Hin. apply in_app_or in Hin. destruct Hin as [Hin|Hin].
    + cbn [In] in Hin. intuition discriminate.
    + apply in_app_or in Hin. destruct Hin as [Hin|Hin].
      * destruct (Hcf _ _ Hin) as [i E]. unfold custom_field_header in E.
        cbn [append] in E. discriminate.
      * cbn [In] in Hin. intuition discriminate.
Qed.

(** ** The format of the contact file *)

(** X22.  Automatic detection of the data format picks a file that is
    there.  With [data_format] set to auto the answer is csv or json; if
    either contact file exists, the file of the chosen format exists; the
    chosen file is never older than the other one; and json is chosen only
    when its file is strictly newer than an existing CSV file or the CSV
    file is missing. *)
Theorem auto_format_picks_existing_file (json_file csv_file : option Z) :
  let fmt := get_data_format "auto" json_file csv_file in
  (fmt = "csv" \/ fmt = "json")
  /\ (json_file <> None \/ csv_file <> None ->
      file_of fmt json_file csv_file <> None)
  /\ (forall chosen other,
        file_of fmt json_file csv_file = Some chosen ->
        file_of (if (fmt =? "json")%string then "csv" else "json") json_file csv_file
        = Some other ->
        other <= chosen)
  /\ (fmt = "json" <->
      exists j, json_file = Some j /\ forall c, csv_file = Some c -> c < j).
Proof.
  cbv zeta. unfold get_data_format, file_of.
  destruct json_file as [j|], csv_file as [c|]; cbn.
  - destruct (Z.gtb_spec j c) as [Hgt|Hle]; cbn.
    + split; [now right|]. split; [discriminate|]. split.
      * intros ? ? [= <-] [= <-]. lia.
      * split; [|reflexivity]. intros _. exists j. split; [reflexivity|].
        intros ? [= <-]. lia.
    + split; [now left|]. split; [discriminate|]. split.
      * intros ? ? [= <-] [= <-]. lia.
      * split; [discriminate|]. intros (j' & [= <-] & Hc). specialize (Hc c eq_refl). lia.
  - repeat split; auto; try discriminate.
    intros _. exists j. split; [reflexivity|]. discriminate.
  - repeat split; auto; try discriminate. intros (j' & H & _). discriminate.
  - repeat split; auto; try discriminate.
    + intros [H|H]; now elim H.
    + intros (j' & H & _). discriminate.
Qed.

(** ** The summary of a bulk run *)

Lemma accepted_snoc (tr : list event) (ev : event) :
  accepted (tr ++ [ev])
  = accepted tr + match ev with EvSmtp _ None => 1 | _ => 0 end.
Proof.
  rewrite accepted_app. f_equal. unfold accepted, Py.len.
  destruct ev as [| ? [|] |]; reflexivity.
Qed.

Lemma send_email_accepts (env : Env) (r : Recruiter) (tpl : string)
    (cv : option (list (string * string))) (ar : option bool) (w : World) :
  let run := send_email env r tpl cv ar false w in
  accepted (trace w) <= accepted (trace (snd run))
  /\ forall b m, fst run = Ok (b, m) ->
                 b = true /\ accepted (trace (snd run)) = accepted (trace w) + 1.
Proof.
  pose proof (send_email_cases env r tpl cv ar w) as H. cbv zeta in *.
  destruct H as [(Ht & _ & e & He)
                |[(subj & body & e & _ & Ht & He & _)
                 |(subj & body & _ & Ht &
                   [(He & _)|[(e & He & _)|(e & He & _)]])]];
    rewrite Ht, ?accepted_snoc;
    (split; [lia|]); intros b m Hok; rewrite He in Hok; try discriminate.
  injection Hok as <- <-. split; [reflexivity|lia].
Qed.

Lemma loop_body_summary (env : Env) (tpl : string) (cv : option (list (string * string)))
    (cb : bool) (n i : Z) (r : Recruiter) (res : Results) (w : World) :
  exists res1 w1 new,
    loop_body env tpl cv false cb n i r res w = (Ok res1, w1) /\
    sent res1 - sent res <= accepted (trace w1) - accepted (trace w) /\
    errors res1 = (errors res ++ new)%list /\
    Py.len new = (failed res1 - failed res) + (skipped res1 - skipped res) /\
    (sent res1 - sent res) + Py.len new = 1 /\
    Forall (fun e => err_email e = r_email r) new.
Proof.
  rewrite loop_body_run. cbv zeta.
  assert (Hg : accepted (trace (gate_world (notified cb n i r w))) = accepted (trace w)).
  { rewrite gate_world_notified_trace, accepted_app.
    destruct cb; unfold accepted at 2, Py.len; cbn; lia. }
  destruct (fst (verdict env (notified cb n i r w))).
  - destruct (send_email_accepts env r tpl cv None (gate_world (notified cb n i r w)))
      as [Hmono Hok].
    set (run := send_email env r tpl cv None false (gate_world (notified cb n i r w))) in *.
    assert (Hsl : accepted (trace (if negb false && (i <? n - 1) && (delay env >? 0)
                                   then emit (EvSleep (delay env)) (snd run)
                                   else snd run))
                  = accepted (trace (snd run))).
    { destruct (negb false && (i <? n - 1) && (delay env >? 0)); [|reflexivity].
      cbn [trace emit]. rewrite accepted_app. unfold accepted at 2, Py.len. cbn. lia. }
    destruct (fst run) as [[b m]|e] eqn:Er.
    + destruct (Hok b m eq_refl) as [-> Hacc].
      eexists. eexists. exists []. split; [reflexivity|]. rewrite Hsl.
      cbn [add_sent sent failed skipped errors]. rewrite app_nil_r.
      unfold Py.len. cbn [List.length].
      repeat split; try constructor; lia.
    + eexists. eexists. eexists [_]. split; [reflexivity|]. rewrite Hsl.
      cbn [add_failed sent failed skipped errors err_email].
      unfold Py.len. cbn [List.length].
      repeat split; try (repeat constructor); lia.
  - eexists. eexists. eexists [_]. split; [reflexivity|]. rewrite Hg.
    cbn [add_skipped sent failed skipped errors err_email].
    unfold Py.len. cbn [List.length].
    repeat split; try (repeat constructor); lia.
Qed.

Lemma bulk_loop_summary (env : Env) (tpl : string) (cv : option (list (string * string)))
    (cb : bool) (n : Z) (l : list Recruiter) :
  forall (i : Z) (res : Results) (w : World),
  exists res1 w1 new,
    bulk_loop env tpl cv false cb n i l res w = (Ok res1, w1) /\
    sent res1 - sent res <= accepted (trace w1) - accepted (trace w) /\
    errors res1 = (errors res ++ new)%list /\
    Py.len new = (failed res1 - failed res) + (skipped res1 - skipped res) /\
    (sent res1 - sent res) + Py.len new = Py.len l /\
    Forall (fun e => In (err_email e) (map r_email l)) new.
Proof.
  induction l as [|r rest IH]; intros i res w.
  - exists res, w, []. cbn [bulk_loop]. unfold ret, Py.len. cbn [List.length].
    rewrite app_nil_r. repeat split; try constructor; lia.
  - destruct (loop_body_summary env tpl cv cb n i r res w)
      as (res1 & w1 & new1 & Hrun & Hacc & Herr & Hlen & Hone & Hall).
    destruct (IH (i + 1) res1 w1)
      as (res2 & w2 & new2 & Hrun2 & Hacc2 & Herr2 & Hlen2 & Hsum2 & Hall2).
    exists res2, w2, (new1 ++ new2)%list.
    rewrite (bulk_loop_cons _ _ _ _ _ _ _ _ _ _ _ _ _ Hrun).
    split; [exact Hrun2|]. split; [lia|]. split; [now rewrite Herr2, Herr, app_assoc|].
    rewrite len_app, len_cons. split; [lia|]. split; [lia|].
    apply Forall_app. split.
    + eapply Forall_impl; [|exact Hall]. intros e ->. now left.
    + eapply Forall_impl; [|exact Hall2]. intros e He. now right.
Qed.

(** X23.  The summary of a real bulk run is sound.  When
    [send_to_all_pending] (not a dry run) returns its summary, the server
    accepted at least as many messages during the run as the summary
    counts as sent; the error list has exactly one entry per failed or
    skipped contact, so together with the sent count it accounts for
    [total]; and every entry names the address of a contact that was
    pending when the run started. *)
Theorem bulk_summary_is_sound (env : Env) (tpl : option string)
    (cv : option (list (string * string))) (cb : bool) (w w' : World) (res : Results) :
  send_to_all_pending env tpl cv false cb w = (Ok res, w') ->
  sent res <= accepted (trace w') - accepted (trace w)
  /\ Py.len (errors res) = failed res + skipped res
  /\ sent res + Py.len (errors res) = total res
  /\ exists pending,
       fst (get_pending w) = Ok pending /\
       Forall (fun e => In (err_email e) (map r_email pending)) (errors res).
Proof.
  rewrite send_to_all_pending_run.
  destruct (get_pending_frame w) as [_ Ht].
  destruct (get_pending w) as [[pending|e] w0]; [|discriminate]. cbn [snd] in Ht.
  set (res0 := {| total := Py.len pending; sent := 0; failed := 0; skipped := 0;
                  errors := [] |}).
  destruct (bulk_loop_summary env
              match tpl with None => default_template (config env) | Some t => t end
              cv cb (Py.len pending) pending 0 res0 w0)
    as (res1 & w1 & new & Hrun & Hacc & Herr & Hlen & Hsum & Hall).
  destruct (bulk_loop_run env
              match tpl with None => default_template (config env) | Some t => t end
              cv false cb (Py.len pending) pending 0 res0 w0)
    as (res1' & w1' & Hrun' & Htot & _).
  rewrite Hrun. rewrite Hrun in Hrun'. injection Hrun' as <- <-.
  intros [= <- <-]. cbn [sent failed skipped errors total res0 app] in *.
  rewrite Ht in Hacc. rewrite Herr.
  split; [lia|]. split; [lia|]. split; [lia|].
  exists pending. split; [reflexivity|exact Hall].
Qed.


(** * The further properties at work on the sample worlds *)

Lemma clear_history_empties_witness :
  log_write_fate default_env (log_writes (world_with_records 2 noon)) = WriteOk
  /\ fst (clear_history default_env (world_with_records 2 noon)) = Ok tt
  /\ ledger (snd (clear_history default_env (world_with_records 2 noon))) = [].
Proof.
  split; [reflexivity|].
  destruct (clear_history_empties default_env (world_with_records 2 noon) eq_refl)
    as (H1 & H2 & _).
  split; [exact H1|exact H2].
Defined.

Lemma clear_history_write_refused_witness :
  log_write_fate full_disk_env (log_writes (world_with_records 2 noon))
  = OpenFails "No space left on device"
  /\ fst (clear_history full_disk_env (world_with_records 2 noon))
     = Raise (OSError "No space left on device")
  /\ sent_log (snd (clear_history full_disk_env (world_with_records 2 noon)))
     = sent_log (world_with_records 2 noon).
Proof.
  split; [reflexivity|].
  destruct (clear_history_write_refused full_disk_env (world_with_records 2 noon)
              "No space left on device" eq_refl) as (H1 & H2 & _).
  split; [exact H1|exact H2].
Defined.

Lemma no_wait_when_allowed_witness :
  clock default_env (ticks garbled_world) = clock default_env (S (ticks garbled_world))
  /\ fst (can_send default_env garbled_world) = Ok (true, "OK")
  /\ fst (get_wait_time default_env garbled_world) = Ok 0.
Proof.
  assert (Hc : fst (can_send default_env garbled_world) = Ok (true, "OK"))
    by (vm_compute; reflexivity).
  split; [reflexivity|]. split; [exact Hc|].
  destruct (no_wait_when_allowed default_env garbled_world eq_refl) as [H _].
  exact (H Hc).
Defined.

Lemma append_keeps_quota_witness :
  ledger (snd (send_email default_env (sample_recruiter "1" "a@b.com") "default"
                 None None false one_contact_world))
  = (ledger one_contact_world ++ [record_at noon])%list
  /\ timestamp (record_at noon) = clock default_env (2 + ticks one_contact_world)
  /\ countSince (noon - hours 1)
       (ledger (snd (send_email default_env (sample_recruiter "1" "a@b.com") "default"
                       None None false one_contact_world)))
     <= hourly_limit default_env.
Proof.
  assert (Hl : ledger (snd (send_email default_env (sample_recruiter "1" "a@b.com")
                              "default" None None false one_contact_world))
               = (ledger one_contact_world ++ [record_at noon])%list)
    by (vm_compute; reflexivity).
  split; [exact Hl|].
  destruct (append_keeps_quota default_env (sample_recruiter "1" "a@b.com") "default"
              None None false one_contact_world (record_at noon) Hl) as (H1 & H2 & _).
  split; [exact H1|]. apply H2. apply Z.le_refl.
Defined.

Lemma bulk_run_keeps_hourly_quota_witness :
  noon - noon < hours 1
  /\ (forall k, noon <= clock one_per_hour_env k <= noon)
  /\ accepted (trace (snd (send_to_all_pending one_per_hour_env None None false false
                             three_pending_world)))
     - accepted (trace three_pending_world)
     <= Z.max 0 (hourly_limit one_per_hour_env
                 - countSince (noon - hours 1) (ledger three_pending_world)).
Proof.
  assert (H1 : noon - noon < hours 1) by (vm_compute; reflexivity).
  assert (H2 : forall k, noon <= clock one_per_hour_env k <= noon)
    by (intros k; split; apply Z.le_refl).
  split; [exact H1|]. split; [exact H2|].
  exact (proj1 (bulk_run_keeps_hourly_quota one_per_hour_env None None false false
                  three_pending_world noon noon H1 H2)).
Defined.

Lemma bulk_run_keeps_daily_quota_witness :
  (forall k, date (clock five_per_day_env k) = 739000)
  /\ accepted (trace (snd (send_to_all_pending five_per_day_env None None false false
                             three_pending_world)))
     - accepted (trace three_pending_world)
     <= Z.max 0 (daily_limit five_per_day_env
                 - countOnDate 739000 (ledger three_pending_world)).
Proof.
  assert (H : forall k, date (clock five_per_day_env k) = 739000)
    by (intros k; vm_compute; reflexivity).
  split; [exact H|].
  exact (bulk_run_keeps_daily_quota five_per_day_env None None false false
           three_pending_world 739000 H).
Defined.

Lemma recruiter_statistics_add_up_witness :
  fst (manager_get_statistics three_pending_world)
  = Ok {| RecruiterStats.total := 3; RecruiterStats.pending := 3;
          RecruiterStats.sent := 0; RecruiterStats.replied := 0;
          RecruiterStats.bounced := 0 |}
  /\ exists everyone, fst (get_all three_pending_world) = Ok everyone
                      /\ 3 = Py.len everyone.
Proof.
  assert (H : fst (manager_get_statistics three_pending_world)
              = Ok {| RecruiterStats.total := 3; RecruiterStats.pending := 3;
                      RecruiterStats.sent := 0; RecruiterStats.replied := 0;
                      RecruiterStats.bounced := 0 |}) by reflexivity.
  split; [exact H|].
  exact (proj1 (proj2 (recruiter_statistics_add_up three_pending_world _ H))).
Defined.

Lemma delete_unknown_saves_nothing_witness :
  fst (get_by_id "9" three_pending_world)
  = Raise (RecruiterNotFoundError "Recruiter with ID '9' not found")
  /\ store_saves (snd (delete default_env "9" three_pending_world))
     = store_saves three_pending_world.
Proof.
  assert (H : fst (get_by_id "9" three_pending_world)
              = Raise (RecruiterNotFoundError "Recruiter with ID '9' not found"))
    by reflexivity.
  split; [exact H|].
  exact (proj2 (proj2 (delete_unknown_saves_nothing default_env "9"
                         three_pending_world _ H))).
Defined.

Lemma three_loaded_world_keyed :
  keyed_by_id (_recruiters (recruiter_manager three_loaded_world)).
Proof.
  split.
  - vm_compute. repeat (apply NoDup_cons; [cbn [In]; intuition discriminate|]). apply NoDup_nil.
  - vm_compute. repeat (apply Forall_cons; [repeat split; discriminate|]).
    apply Forall_nil.
Defined.

Lemma delete_forgets_contact_witness :
  _recruiters_loaded (recruiter_manager three_loaded_world) = true
  /\ keyed_by_id (_recruiters (recruiter_manager three_loaded_world))
  /\ dict_get "2" (_recruiters (recruiter_manager three_loaded_world))
     = Some (sample_recruiter "2" "c@d.com")
  /\ fst (get_by_id "2" (snd (delete read_only_store_env "2" three_loaded_world)))
     = Raise (RecruiterNotFoundError ("Recruiter with ID '" ++ "2" ++ "' not found")).
Proof.
  split; [reflexivity|]. split; [exact three_loaded_world_keyed|].
  split; [reflexivity|].
  destruct (delete_forgets_contact read_only_store_env "2" three_loaded_world
              (sample_recruiter "2" "c@d.com") eq_refl three_loaded_world_keyed eq_refl)
    as (_ & _ & H & _).
  exact H.
Defined.

Lemma mark_sent_leaves_pending_witness :
  _recruiters_loaded (recruiter_manager three_loaded_world) = true
  /\ keyed_by_id (_recruiters (recruiter_manager three_loaded_world))
  /\ dict_get "2" (_recruiters (recruiter_manager three_loaded_world))
     = Some (sample_recruiter "2" "c@d.com")
  /\ exists before,
       fst (get_pending three_loaded_world) = Ok before
       /\ fst (get_pending (snd (mark_sent default_env "2" three_loaded_world)))
          = Ok (filter (fun x => negb (id x =? "2")%string) before).
Proof.
  split; [reflexivity|]. split; [exact three_loaded_world_keyed|].
  split; [reflexivity|].
  exact (proj1 (mark_sent_leaves_pending default_env "2" three_loaded_world
                  (sample_recruiter "2" "c@d.com") eq_refl three_loaded_world_keyed
                  eq_refl)).
Defined.


Lemma web_bulk_send_without_session_witness :
  Sse.get "b1946ac9" [] = None
  /\ snd (_run_bulk_send default_env "b1946ac9" "default" false [] three_pending_world)
     = [].
Proof.
  split; [reflexivity|].
  rewrite (web_bulk_send_without_session default_env "b1946ac9" "default" false []
             three_pending_world eq_refl).
  destruct (send_to_all_pending default_env (Some "default") None false false
              three_pending_world) as [[res|e] w']; reflexivity.
Defined.

Lemma sessions_are_independent_witness :
  "b1946ac9" <> "0f3c2a11"
  /\ NoDup (map fst one_session)
  /\ Sse.get "b1946ac9"
       (snd (delete_session "b1946ac9" one_session three_pending_world)) = None
  /\ fst (get_session "0f3c2a11"
            (snd (create_session "b1946ac9" 5 one_session three_pending_world))
            three_pending_world)
     = (Ok (Sse.get "0f3c2a11" one_session), three_pending_world).
Proof.
  assert (H1 : "b1946ac9" <> "0f3c2a11") by discriminate.
  assert (H2 : NoDup (map fst one_session))
    by (vm_compute; repeat (apply NoDup_cons; [cbn [In]; intuition discriminate|]);
        apply NoDup_nil).
  split; [exact H1|]. split; [exact H2|].
  destruct (sessions_are_independent "b1946ac9" "0f3c2a11" 5 None None None None None
              None None one_session three_pending_world H1 H2)
    as (Hc & _ & _ & _ & _ & Hd).
  split; [exact Hd|exact Hc].
Defined.

Lemma send_email_checks_in_order_witness :
  fst (verdict no_password_env one_contact_world) = true
  /\ credentials_set no_password_env = false
  /\ send_email no_password_env (sample_recruiter "1" "a@b.com") "default" None None
       false one_contact_world
     = (Raise (EmailError "Gmail credentials not configured. Set GMAIL_EMAIL and GMAIL_APP_PASSWORD in .env"),
        gate_world one_contact_world).
Proof.
  assert (Hv : fst (verdict no_password_env one_contact_world) = true)
    by (vm_compute; reflexivity).
  split; [exact Hv|]. split; [reflexivity|].
  destruct (send_email_checks_in_order no_password_env (sample_recruiter "1" "a@b.com")
              "default" None None one_contact_world) as (_ & _ & H & _).
  exact (proj1 (H _ _ Hv eq_refl eq_refl)).
Defined.

Lemma csv_header_covers_rows_witness :
  In "custom_field_3" (csv_fieldnames [sample_recruiter "1" "a@b.com"; three_field_contact])
  /\ ~ In "department"
         (csv_fieldnames [sample_recruiter "1" "a@b.com"; three_field_contact]).
Proof.
  destruct (csv_header_covers_rows [sample_recruiter "1" "a@b.com"; three_field_contact])
    as (_ & _ & Hincl & Hdep).
  split; [|exact Hdep].
  apply (Hincl three_field_contact); [right; left; reflexivity|].
  vm_compute. do 12 right. left. reflexivity.
Defined.

Lemma bulk_summary_is_sound_witness :
  exists res w',
    send_to_all_pending refusing_env None None false false three_pending_world
    = (Ok res, w')
    /\ sent res <= accepted (trace w') - accepted (trace three_pending_world)
    /\ Py.len (errors res) = failed res + skipped res.
Proof.
  destruct (send_to_all_pending refusing_env None None false false three_pending_world)
    as [[res|e] w'] eqn:E.
  - exists res, w'. split; [reflexivity|].
    destruct (bulk_summary_is_sound refusing_env None None false three_pending_world
                w' res E) as (H1 & H2 & _).
    split; [exact H1|exact H2].
  - exfalso. vm_compute in E. discriminate.
Defined.

Lemma history_is_most_recent_first_witness :
  datetimes (ledger shuffled_world)
  /\ fst (get_sent_history 2 shuffled_world)
     = Ok [record_at (noon + hours 1); record_at noon]
  /\ exists h rest,
       fst (get_sent_history 2 shuffled_world) = Ok h /\
       Permutation (h ++ rest) (ledger shuffled_world) /\
       StronglySorted not_older h /\
       (forall a b, In a h -> In b rest -> not_older a b).
Proof.
  assert (Hd : datetimes (ledger shuffled_world))
    by (repeat constructor).
  split; [exact Hd|]. split; [vm_compute; reflexivity|].
  destruct (history_is_most_recent_first 2 shuffled_world)
    as (h & rest & E & P & _ & _ & _ & H).
  destruct (H Hd) as [S M].
  exists h, rest. repeat split; assumption.
Defined.
